(** * Quote-request intake: selection state, catalog lookup, submission
      orchestration and notification

    A shallow embedding of the repository's TypeScript:
    - [src/App.tsx]: the static catalog [SERVICE_CATEGORIES], the selection
      state ([toggleService], [isSelected], [serviceTitleById]) and the
      browser-direct submission [handleSubmit];
    - the e-mail service module ([validateQuoteRequestData],
      [sendQuoteRequestEmails] and the two senders of [EmailService]);
    - the server-mediated submission endpoint ([handler] of the quote API).

    JavaScript strings are sequences of UTF-16 code units; they are modelled
    as lists of code units ([N]).  The hosted database and the e-mail
    provider are external: their answers are read from a [World] record, and
    every call made to them is recorded in a log of [Event]s. *)

From Stdlib Require Import List NArith ZArith Bool String Ascii Arith Lia DecimalString.
From Stdlib Require DecimalN.
Import ListNotations.

Set Implicit Arguments.

(* ===================================================================== *)
(** ** JavaScript strings *)
(* ===================================================================== *)

Module Js.

(** A string is the list of its UTF-16 code units. *)
Definition str : Type := list N.

(** A literal of the source, every character of which is ASCII. *)
Definition lit (s : string) : str :=
  map N_of_ascii (list_ascii_of_string s).

(** [a === b] on strings. *)
Fixpoint eqb (a b : str) : bool :=
  match a, b with
  | [], [] => true
  | x :: a', y :: b' => N.eqb x y && eqb a' b'
  | _, _ => false
  end.

(** Truthiness of a string: only the empty string is falsy. *)
Definition truthy (s : str) : bool :=
  match s with [] => false | _ :: _ => true end.

(** [a || b] where [a] is a string. *)
Definition or_else (a b : str) : str := if truthy a then a else b.

(** Truthiness of a possibly-undefined string ([undefined] and [""] are
    falsy). *)
Definition truthy_opt (s : option str) : bool :=
  match s with Some s' => truthy s' | None => false end.

(** The code units matched by [\s], which are also the ones [trim]
    strips: WhiteSpace and LineTerminator of ECMAScript. *)
Definition is_space (c : N) : bool :=
  (N.leb 9 c && N.leb c 13)            (* \t \n \v \f \r *)
  || N.eqb c 32                        (* space *)
  || N.eqb c 160                       (* U+00A0 *)
  || N.eqb c 5760                      (* U+1680 *)
  || (N.leb 8192 c && N.leb c 8202)    (* U+2000 .. U+200A *)
  || N.eqb c 8232 || N.eqb c 8233      (* U+2028, U+2029 *)
  || N.eqb c 8239                      (* U+202F *)
  || N.eqb c 8287                      (* U+205F *)
  || N.eqb c 12288                     (* U+3000 *)
  || N.eqb c 65279.                    (* U+FEFF *)

Fixpoint trimStart (s : str) : str :=
  match s with
  | c :: s' => if is_space c then trimStart s' else s
  | [] => []
  end.

Definition trimEnd (s : str) : str := rev (trimStart (rev s)).

Definition trim (s : str) : str := trimEnd (trimStart s).

(** [parts.join(sep)] *)
Fixpoint join (sep : str) (parts : list str) : str :=
  match parts with
  | [] => []
  | [p] => p
  | p :: rest => p ++ sep ++ join sep rest
  end.

(** [String(n)] for a non-negative integer. *)
Definition of_N (n : N) : str :=
  lit (NilEmpty.string_of_uint (N.to_uint n)).

(** [xs.includes(x)] on an array of strings. *)
Definition includes (xs : list str) (x : str) : bool :=
  existsb (fun y => eqb y x) xs.

End Js.

(* ===================================================================== *)
(** ** Regular expressions (the fragment the source uses) *)
(* ===================================================================== *)

Module Regex.

(** Patterns over code units.  [Class p] is a character class given by
    its membership test; [Plus r] is [r+].  The source's only pattern is
    anchored at both ends, so [test] decides a match of the whole input. *)
Inductive t : Type :=
| Void : t
| Eps : t
| Class : (N -> bool) -> t
| Seq : t -> t -> t
| Alt : t -> t -> t
| Star : t -> t.

Definition Chr (c : N) : t := Class (N.eqb c).
Definition Plus (r : t) : t := Seq r (Star r).

Fixpoint nullable (r : t) : bool :=
  match r with
  | Void => false
  | Eps => true
  | Class _ => false
  | Seq a b => nullable a && nullable b
  | Alt a b => nullable a || nullable b
  | Star _ => true
  end.

(** Brzozowski derivative of [r] by the code unit [c]. *)
Fixpoint deriv (c : N) (r : t) : t :=
  match r with
  | Void => Void
  | Eps => Void
  | Class p => if p c then Eps else Void
  | Seq a b =>
      if nullable a
      then Alt (Seq (deriv c a) b) (deriv c b)
      else Seq (deriv c a) b
  | Alt a b => Alt (deriv c a) (deriv c b)
  | Star a => Seq (deriv c a) (Star a)
  end.

(** [/^r$/.test(s)] *)
Fixpoint test (r : t) (s : Js.str) : bool :=
  match s with
  | [] => nullable r
  | c :: s' => test (deriv c r) s'
  end.

(** The language of a pattern, as a relation. *)
Inductive Matches : t -> Js.str -> Prop :=
| MEps : Matches Eps []
| MClass p c : p c = true -> Matches (Class p) [c]
| MSeq a b u v : Matches a u -> Matches b v -> Matches (Seq a b) (u ++ v)
| MAltL a b u : Matches a u -> Matches (Alt a b) u
| MAltR a b u : Matches b u -> Matches (Alt a b) u
| MStarNil a : Matches (Star a) []
| MStarCons a u v :
    Matches a u -> Matches (Star a) v -> Matches (Star a) (u ++ v).

End Regex.

(* ===================================================================== *)
(** ** The static service catalog ([src/App.tsx], lines 5-123) *)
(* ===================================================================== *)

Module Catalog.

Record Service : Type := mkService {
  s_id : Js.str;
  s_title : Js.str
}.

Record ServiceCategory : Type := mkCategory {
  c_id : Js.str;
  c_title : Js.str;
  c_description : Js.str;
  c_services : list Service
}.

Definition svc (id title : string) : Service :=
  mkService (Js.lit id) (Js.lit title).

Definition cat (id title description : string) (services : list Service)
  : ServiceCategory :=
  mkCategory (Js.lit id) (Js.lit title) (Js.lit description) services.

Definition SERVICE_CATEGORIES : list ServiceCategory := [
  cat "ideation" "Product Ideation & Research"
      "Market research, feasibility, validation and product concepting."
    [ svc "market-research" "Market Research & Consumer Insights";
      svc "competitive-benchmark" "Competitive Benchmarking";
      svc "feasibility" "Feasibility Studies";
      svc "concept-dev" "Product Concept Development";
      svc "validation" "Validation & Pilot Testing" ];
  cat "design" "Design & Creative Services"
      "Product design, visuals, photography, prototypes."
    [ svc "industrial-design" "Industrial / Product Design";
      svc "graphic-design" "Graphic & Logo Design";
      svc "ux-ui" "UX / UI Design";
      svc "photo-video" "Product Photography & Videography";
      svc "prototyping" "Prototyping & 3D Rendering" ];
  cat "branding" "Branding & Identity"
      "Strategy, messaging, brand guides and localization."
    [ svc "brand-strategy" "Brand Strategy & Positioning";
      svc "logo-identity" "Logo & Identity";
      svc "messaging" "Messaging & Copywriting";
      svc "guidelines" "Brand Guidelines";
      svc "localization" "Multilingual Branding" ];
  cat "packaging" "Packaging & Labeling"
      "Design, sourcing and compliance-ready labels."
    [ svc "pack-design" "Packaging Design (structural + aesthetic)";
      svc "eco-pack" "Sustainable / Eco Packaging";
      svc "labeling" "Compliance Labeling";
      svc "smart-pack" "QR / Smart Packaging";
      svc "print-prod" "Print & Production Management" ];
  cat "digital" "Digital Presence & Web"
      "Websites, ecommerce, SEO and catalogs."
    [ svc "website" "Corporate Website Development";
      svc "ecommerce" "E-commerce Store Setup";
      svc "seo" "SEO & Listing Optimization";
      svc "landing" "Product Landing Pages";
      svc "catalog" "Digital Catalogs & Brochures" ];
  cat "marketing" "Marketing & Go-to-Market"
      "Social, PR, ads, trade shows and partnerships."
    [ svc "social" "Social Media Strategy & Content";
      svc "influencer" "Influencer & Affiliate Partnerships";
      svc "pr" "PR & Media Outreach";
      svc "ads" "Paid Advertising Campaigns";
      svc "tradeshows" "Trade Show Representation" ];
  cat "compliance" "Compliance & Certification"
      "Certifications, IP and export doc support."
    [ svc "certs" "Product Certification Support";
      svc "ip" "Intellectual Property Assistance";
      svc "export-docs" "Export Documentation Support";
      svc "safety" "Safety & Regulatory Compliance" ];
  cat "manufacturing" "Manufacturing & Supply Chain"
      "Suppliers, contract manufacturing and QA."
    [ svc "sourcing" "Supplier & Vendor Sourcing";
      svc "small-batch" "Small-Batch Production Setup";
      svc "contract-man" "Contract Manufacturing";
      svc "qa" "Quality Assurance & Testing";
      svc "inventory" "Inventory & Warehouse Consulting" ];
  cat "finance" "Financing & Insurance"
      "Trade finance, grants and insurance advisory."
    [ svc "trade-finance" "Trade Finance Access";
      svc "grants" "Grants & Funding Advisory";
      svc "insurance" "Export & Product Insurance";
      svc "liability" "Product Liability Insurance" ];
  cat "growth" "Post-Launch Growth"
      "Distribution, iteration, scaling and licensing."
    [ svc "distributor" "Distributor & Retailer Matchmaking";
      svc "feedback" "Customer Feedback Loops";
      svc "scaling" "Iteration & SKU Scaling";
      svc "licensing" "Licensing & Franchising" ]
].

(** Every service of a list of categories, in catalog order. *)
Definition all_services (cats : list ServiceCategory) : list Service :=
  flat_map c_services cats.

End Catalog.

(* ===================================================================== *)
(** ** Effects: state, exceptions, [try]/[catch]/[finally] *)
(* ===================================================================== *)

Module Effect.

(** A thrown JavaScript value: an [Error] object with its message, or
    anything else. *)
Inductive Exn : Type :=
| ErrorObj (message : Js.str)
| OtherValue.

(** What [console.error(e)] prints of a thrown value. *)
Definition exn_text (e : Exn) : Js.str :=
  match e with ErrorObj message => message | OtherValue => [] end.

Inductive Outcome (A : Type) : Type :=
| Returned (a : A)
| Thrown (e : Exn).
Arguments Thrown {A} e.

(** A computation over a state [S] that returns an [A] or throws. *)
Definition M (S A : Type) : Type := S -> Outcome A * S.

Definition ret {S A} (a : A) : M S A := fun s => (Returned a, s).

Definition bind {S A B} (m : M S A) (k : A -> M S B) : M S B :=
  fun s =>
    match m s with
    | (Returned a, s') => k a s'
    | (Thrown e, s') => (Thrown e, s')
    end.

Definition throw {S A} (e : Exn) : M S A := fun s => (Thrown e, s).

Definition get {S} : M S S := fun s => (Returned s, s).

Definition modify {S} (f : S -> S) : M S unit := fun s => (Returned tt, f s).

(** [try { m } catch (e) { h e }] *)
Definition try_catch {S A} (m : M S A) (h : Exn -> M S A) : M S A :=
  fun s =>
    match m s with
    | (Returned a, s') => (Returned a, s')
    | (Thrown e, s') => h e s'
    end.

(** [try { m } finally { f }] *)
Definition try_finally {S A} (m : M S A) (f : M S unit) : M S A :=
  fun s =>
    match m s with
    | (r, s1) =>
        match f s1 with
        | (Returned _, s2) => (r, s2)
        | (Thrown e, s2) => (Thrown e, s2)
        end
    end.

(** Run a computation on a component [T] of the state [S]. *)
Definition lift {S T A} (proj : S -> T) (upd : S -> T -> S) (m : M T A)
  : M S A :=
  fun s => match m (proj s) with (r, t') => (r, upd s t') end.

(** [if (c) { m }] *)
Definition when {S} (c : bool) (m : M S unit) : M S unit :=
  if c then m else ret tt.

Declare Scope effect_scope.
Delimit Scope effect_scope with eff.
Notation "x <- m ;; k" := (bind m (fun x => k))
  (at level 61, m at next level, right associativity) : effect_scope.
Notation "m ;; k" := (bind m (fun _ => k))
  (at level 61, right associativity) : effect_scope.

End Effect.

(* ===================================================================== *)
(** ** The external collaborators: hosted database and e-mail provider *)
(* ===================================================================== *)

Module Backend.
Import Effect.
Local Open Scope effect_scope.

(** The object passed to [from('quote_requests').insert(...)]: a column
    is [None] when the object gives [null] or leaves it out. *)
Record QuoteRequestInsert : Type := mkQuoteRequestInsert {
  r_name : option Js.str;
  r_company : option Js.str;
  r_email : option Js.str;
  r_phone : option Js.str;
  r_budget_range : option Js.str;
  r_timeline : option Js.str;
  r_message : option Js.str;
  r_status : Js.str;
  r_request_number : option Js.str;
  r_created_at : option Js.str
}.

(** One element of the array passed to
    [from('quote_request_services').insert(...)]. *)
Record ServiceInsert : Type := mkServiceInsert {
  v_quote_request_id : N;
  v_service_name : Js.str;
  v_custom_description : option Js.str;
  v_estimated_price : option N;
  v_final_price : option N
}.

(** What the database generates for a new request: its identifier and,
    when the insert gives none, its request number. *)
Record Generated : Type := mkGenerated {
  g_id : N;
  g_request_number : Js.str
}.

(** A stored request, as [.select().single()] returns it. *)
Record QuoteRequestRow : Type := mkQuoteRequestRow {
  row_id : N;
  row_request_number : Js.str;
  row_values : QuoteRequestInsert
}.

Record Db : Type := mkDb {
  quote_requests : list QuoteRequestRow;
  quote_request_services : list ServiceInsert
}.

(** The answer of the database client to one insert.  The client
    resolves to [{ data, error }] with exactly one of the two set, or the
    promise rejects. *)
Inductive DbAnswer (A : Type) : Type :=
| Data (data : A)
| DbError (detail : Js.str)
| Rejects (e : Exn).
Arguments DbError {A} detail.
Arguments Rejects {A} e.

(** What the caller destructures from a resolved answer. *)
Inductive DbResult (A : Type) : Type :=
| Ok (data : A)
| Err (error : Js.str).
Arguments Err {A} error.

(** The behaviour of the outside world during one submission. *)
Record World : Type := mkWorld {
  ADMIN_EMAIL : Js.str;
  date_now : N;                         (* Date.now() *)
  date_iso : Js.str;                    (* new Date().toISOString() *)
  quote_insert : DbAnswer Generated;    (* insert into quote_requests *)
  services_insert : DbAnswer unit;      (* insert into quote_request_services *)
  admin_email_ok : bool;                (* response.ok of the admin send *)
  client_email_ok : bool;               (* response.ok of the client send *)
  email_error_text : Js.str             (* response.text() of a failed send *)
}.

Inductive Event : Type :=
| InsertQuoteRequest (row : QuoteRequestInsert)
| InsertQuoteRequestServices (rows : list ServiceInsert)
| PostEmail (to subject : Js.str) (pdf_attached : bool)
| ConsoleError (label : Js.str)
| ConsoleWarn (label : Js.str).

(** The events that are requests to the database or the e-mail
    provider. *)
Definition is_network_call (e : Event) : bool :=
  match e with
  | InsertQuoteRequest _ | InsertQuoteRequestServices _ | PostEmail _ _ _ => true
  | ConsoleError _ | ConsoleWarn _ => false
  end.

Definition is_db_insert (e : Event) : bool :=
  match e with
  | InsertQuoteRequest _ | InsertQuoteRequestServices _ => true
  | _ => false
  end.

Definition is_email_send (e : Event) : bool :=
  match e with PostEmail _ _ _ => true | _ => false end.

(** Database contents and the chronological log of calls. *)
Record St : Type := mkSt {
  db : Db;
  log : list Event
}.

Definition emit (e : Event) : M St unit :=
  modify (fun s => mkSt (db s) (log s ++ [e])).

Definition console_error (label : string) : M St unit :=
  emit (ConsoleError (Js.lit label)).

Definition console_warn (label : string) : M St unit :=
  emit (ConsoleWarn (Js.lit label)).

Definition store_request (g : Generated) (row : QuoteRequestInsert)
  : QuoteRequestRow :=
  mkQuoteRequestRow (g_id g)
    (match r_request_number row with
     | Some n => n
     | None => g_request_number g
     end)
    row.

(** [await supabase.from('quote_requests').insert(row).select().single()]:
    a successful insert appends the row, a failed one writes nothing. *)
Definition insert_quote_request (w : World) (row : QuoteRequestInsert)
  : M St (DbResult QuoteRequestRow) :=
  emit (InsertQuoteRequest row) ;;
  match quote_insert w with
  | Data g =>
      let stored := store_request g row in
      modify (fun s =>
        mkSt (mkDb (quote_requests (db s) ++ [stored])
                   (quote_request_services (db s)))
             (log s)) ;;
      ret (Ok stored)
  | DbError detail => ret (Err detail)
  | Rejects e => throw e
  end.

(** [await supabase.from('quote_request_services').insert(rows)] *)
Definition insert_quote_request_services (w : World) (rows : list ServiceInsert)
  : M St (DbResult unit) :=
  emit (InsertQuoteRequestServices rows) ;;
  match services_insert w with
  | Data _ =>
      modify (fun s =>
        mkSt (mkDb (quote_requests (db s))
                   (quote_request_services (db s) ++ rows))
             (log s)) ;;
      ret (Ok tt)
  | DbError detail => ret (Err detail)
  | Rejects e => throw e
  end.

(** [await fetch(<resend>, { method: 'POST', ... })] followed by reading
    [response.ok]. *)
Definition post_email (ok : bool) (to subject : Js.str) (pdf_attached : bool)
  : M St bool :=
  emit (PostEmail to subject pdf_attached) ;;
  ret ok.

End Backend.

(* ===================================================================== *)
(** ** The e-mail service (browser side) *)
(* ===================================================================== *)

Module EmailService.
Import Effect Backend.
Local Open Scope effect_scope.

Record QuoteRequestData : Type := mkQuoteRequestData {
  q_name : Js.str;
  q_company : option Js.str;
  q_email : Js.str;
  q_phone : option Js.str;
  q_budget : option Js.str;
  q_timeline : option Js.str;
  q_message : option Js.str;
  q_selectedServices : list Js.str;
  q_timestamp : Js.str
}.

(** [Partial<QuoteRequestData>], restricted to the fields the validation
    reads. *)
Record PartialQuoteRequestData : Type := mkPartial {
  p_name : option Js.str;
  p_email : option Js.str;
  p_selectedServices : option (list Js.str)
}.

Definition as_partial (d : QuoteRequestData) : PartialQuoteRequestData :=
  mkPartial (Some (q_name d)) (Some (q_email d)) (Some (q_selectedServices d)).

Record EmailResult : Type := mkEmailResult {
  e_success : bool;
  e_message : Js.str
}.

Record Validation : Type := mkValidation {
  isValid : bool;
  errors : list Js.str
}.

(** The class [[^\s@]]. *)
Definition not_space_or_at (c : N) : bool :=
  negb (Js.is_space c || N.eqb c 64).

(** [/^[^\s@]+@[^\s@]+\.[^\s@]+$/] *)
Definition EMAIL_PATTERN : Regex.t :=
  Regex.Seq (Regex.Plus (Regex.Class not_space_or_at))
    (Regex.Seq (Regex.Chr 64)
       (Regex.Seq (Regex.Plus (Regex.Class not_space_or_at))
          (Regex.Seq (Regex.Chr 46)
             (Regex.Plus (Regex.Class not_space_or_at))))).

(** [!s || s.trim().length === 0] *)
Definition blank (s : option Js.str) : bool :=
  match s with
  | None => true
  | Some s' => negb (Js.truthy s') || Nat.eqb (List.length (Js.trim s')) 0
  end.

Definition validateQuoteRequestData (data : PartialQuoteRequestData)
  : Validation :=
  let errors0 : list Js.str := [] in
  let errors1 :=
    if blank (p_name data)
    then errors0 ++ [Js.lit "Name is required"]
    else errors0 in
  let errors2 :=
    if blank (p_email data)
    then errors1 ++ [Js.lit "Email is required"]
    else
      match p_email data with
      | Some email =>
          if negb (Regex.test EMAIL_PATTERN email)
          then errors1 ++ [Js.lit "Valid email address is required"]
          else errors1
      | None => errors1
      end in
  let errors3 :=
    match p_selectedServices data with
    | None => errors2 ++ [Js.lit "At least one service must be selected"]
    | Some l =>
        if Nat.eqb (List.length l) 0
        then errors2 ++ [Js.lit "At least one service must be selected"]
        else errors2
    end in
  mkValidation (Nat.eqb (List.length errors3) 0) errors3.

(** [company || name] *)
Definition company_or_name (d : QuoteRequestData) : Js.str :=
  match q_company d with
  | Some c => Js.or_else c (q_name d)
  | None => q_name d
  end.

(** [EmailService.sendQuoteRequestEmail]: the admin notification, with
    the PDF attached.  Rendering of the PDF and of the HTML body is left
    out; a response that is not ok is thrown and caught in place. *)
Definition sendQuoteRequestEmail (w : World) (quoteData : QuoteRequestData)
  : M St bool :=
  try_catch
    (ok <- post_email (admin_email_ok w) (ADMIN_EMAIL w)
             (Js.lit "New Quote Request - " ++ company_or_name quoteData)
             true ;;
     if negb ok
     then throw (ErrorObj (Js.lit "Resend API error: " ++ email_error_text w))
     else ret true)
    (fun _ =>
       console_error "Failed to send quote request email:" ;;
       ret false).

(** [EmailService.sendClientConfirmationEmail] *)
Definition sendClientConfirmationEmail (w : World) (quoteData : QuoteRequestData)
  : M St bool :=
  try_catch
    (ok <- post_email (client_email_ok w) (q_email quoteData)
             (Js.lit "Quote Request Received - OneShopCentrale")
             false ;;
     if negb ok
     then throw (ErrorObj (Js.lit "Resend API error: " ++ email_error_text w))
     else ret true)
    (fun _ =>
       console_error "Failed to send client confirmation email:" ;;
       ret false).

Definition sendQuoteRequestEmails (w : World) (data : QuoteRequestData)
  : M St EmailResult :=
  try_catch
    (let validation := validateQuoteRequestData (as_partial data) in
     if negb (isValid validation)
     then
       ret (mkEmailResult false
              (Js.lit "Validation failed: "
                 ++ Js.join (Js.lit ", ") (errors validation)))
     else
       adminEmailSent <- sendQuoteRequestEmail w data ;;
       clientEmailSent <- sendClientConfirmationEmail w data ;;
       if adminEmailSent && clientEmailSent
       then ret (mkEmailResult true
                   (Js.lit "Quote request emails sent successfully"))
       else if adminEmailSent
       then ret (mkEmailResult true
                   (Js.lit "Admin notification sent, but client confirmation failed"))
       else ret (mkEmailResult false
                   (Js.lit "Failed to send quote request emails")))
    (fun error =>
       console_error "Error sending quote request emails:" ;;
       ret (mkEmailResult false
              (Js.lit "Error: "
                 ++ match error with
                    | ErrorObj message => message
                    | OtherValue => Js.lit "Unknown error"
                    end))).

End EmailService.

(* ===================================================================== *)
(** ** The form component ([src/App.tsx]) *)
(* ===================================================================== *)

Module App.
Import Effect Backend Catalog.
Local Open Scope effect_scope.

Record ContactForm : Type := mkForm {
  f_name : Js.str;
  f_company : Js.str;
  f_email : Js.str;
  f_phone : Js.str;
  f_budget : Js.str;
  f_timeline : Js.str;
  f_message : Js.str
}.

Definition empty_form : ContactForm := mkForm [] [] [] [] [] [] [].

(** The React state of [ProductBouquet]. *)
Record UiState : Type := mkUi {
  expandedCategory : option Js.str;
  selected : list Js.str;
  form : ContactForm;
  submitting : bool;
  success : option Js.str;
  error : option Js.str
}.

Definition initial_ui : UiState :=
  mkUi None [] empty_form false None None.

(** The component together with the services it talks to. *)
Record AppState : Type := mkApp {
  ui : UiState;
  backend : Backend.St
}.

Definition on_backend {A} (m : M Backend.St A) : M AppState A :=
  lift backend (fun s b => mkApp (ui s) b) m.

Definition modify_ui (f : UiState -> UiState) : M AppState unit :=
  modify (fun s => mkApp (f (ui s)) (backend s)).

Definition setSelected (f : list Js.str -> list Js.str) : M AppState unit :=
  modify_ui (fun u =>
    mkUi (expandedCategory u) (f (selected u)) (form u) (submitting u)
         (success u) (error u)).

Definition setForm (f : ContactForm) : M AppState unit :=
  modify_ui (fun u =>
    mkUi (expandedCategory u) (selected u) f (submitting u)
         (success u) (error u)).

Definition setSubmitting (b : bool) : M AppState unit :=
  modify_ui (fun u =>
    mkUi (expandedCategory u) (selected u) (form u) b (success u) (error u)).

Definition setSuccess (m : option Js.str) : M AppState unit :=
  modify_ui (fun u =>
    mkUi (expandedCategory u) (selected u) (form u) (submitting u) m (error u)).

Definition setError (m : option Js.str) : M AppState unit :=
  modify_ui (fun u =>
    mkUi (expandedCategory u) (selected u) (form u) (submitting u)
         (success u) m).

(** The updater that [toggleService] passes to [setSelected]. *)
Definition toggle (serviceId : Js.str) (prev : list Js.str) : list Js.str :=
  if Js.includes prev serviceId
  then filter (fun s => negb (Js.eqb s serviceId)) prev
  else prev ++ [serviceId].

Definition toggleService (serviceId : Js.str) : M AppState unit :=
  setSelected (toggle serviceId).

Definition isSelected (u : UiState) (serviceId : Js.str) : bool :=
  Js.includes (selected u) serviceId.

(** [serviceTitleById]: two nested loops with an early return. *)
Fixpoint title_in_services (services : list Service) (id : Js.str)
  : option Js.str :=
  match services with
  | [] => None
  | s :: rest =>
      if Js.eqb (s_id s) id then Some (s_title s)
      else title_in_services rest id
  end.

Fixpoint title_in_categories (cats : list ServiceCategory) (id : Js.str)
  : option Js.str :=
  match cats with
  | [] => None
  | c :: rest =>
      match title_in_services (c_services c) id with
      | Some title => Some title
      | None => title_in_categories rest id
      end
  end.

Definition serviceTitleById (id : Js.str) : Js.str :=
  match title_in_categories SERVICE_CATEGORIES id with
  | Some title => title
  | None => id
  end.

(** The lookup that [handleSubmit] runs for each selected id: the first
    category whose [services.find] succeeds gives the service. *)
Fixpoint find_service (cats : list ServiceCategory) (serviceId : Js.str)
  : option Service :=
  match cats with
  | [] => None
  | category :: rest =>
      match find (fun s => Js.eqb (s_id s) serviceId) (c_services category) with
      | Some service => Some service
      | None => find_service rest serviceId
      end
  end.

(** [serviceDetails?.title || serviceId] *)
Definition service_name_of (serviceId : Js.str) : Js.str :=
  match find_service SERVICE_CATEGORIES serviceId with
  | Some serviceDetails => Js.or_else (s_title serviceDetails) serviceId
  | None => serviceId
  end.

(** The title put in the e-mail payload: [service.title] when found,
    else the id. *)
Definition email_title_of (serviceId : Js.str) : Js.str :=
  match find_service SERVICE_CATEGORIES serviceId with
  | Some service => s_title service
  | None => serviceId
  end.

(** [s || null] *)
Definition or_null (s : Js.str) : option Js.str :=
  if Js.truthy s then Some s else None.

Definition request_insert (w : World) (form : ContactForm)
  : QuoteRequestInsert :=
  {| r_name := Some (f_name form);
     r_company := or_null (f_company form);
     r_email := Some (f_email form);
     r_phone := or_null (f_phone form);
     r_budget_range := None;
     r_timeline := None;
     r_message := or_null (f_message form);
     r_status := Js.lit "pending";
     r_request_number := Some (Js.lit "REQ-" ++ Js.of_N (date_now w));
     r_created_at := Some (date_iso w) |}.

Definition service_inserts (quote_id : N) (selected : list Js.str)
  : list ServiceInsert :=
  map (fun serviceId =>
         {| v_quote_request_id := quote_id;
            v_service_name := service_name_of serviceId;
            v_custom_description := None;
            v_estimated_price := None;
            v_final_price := None |})
      selected.

Definition email_data (w : World) (form : ContactForm) (selected : list Js.str)
  : EmailService.QuoteRequestData :=
  {| EmailService.q_name := f_name form;
     EmailService.q_company := Some (f_company form);
     EmailService.q_email := f_email form;
     EmailService.q_phone := Some (f_phone form);
     EmailService.q_budget := Some (f_budget form);
     EmailService.q_timeline := Some (f_timeline form);
     EmailService.q_message := Some (f_message form);
     EmailService.q_selectedServices := map email_title_of selected;
     EmailService.q_timestamp := date_iso w |}.

Definition MSG_REQUIRED : Js.str :=
  Js.lit "Please provide your name, email and select at least one service.".
Definition MSG_SENT : Js.str :=
  Js.lit "Request sent successfully. Our team will contact you shortly.".
Definition MSG_QUOTE_FAILED : Js.str := Js.lit "Failed to save quote request".
Definition MSG_SERVICES_FAILED : Js.str :=
  Js.lit "Failed to save selected services".
Definition MSG_FALLBACK : Js.str :=
  Js.lit "We couldn't submit your request. Try again later.".

(** [handleSubmit].  [form] and [selected] are the values of the render
    in which the handler was created. *)
Definition handleSubmit (w : World) : M AppState unit :=
  setError None ;;
  s <- get ;;
  let form := form (ui s) in
  let selected := selected (ui s) in
  if negb (Js.truthy (f_name form)) || negb (Js.truthy (f_email form))
     || Nat.eqb (List.length selected) 0
  then setError (Some MSG_REQUIRED)
  else
    setSubmitting true ;;
    try_finally
      (try_catch
         (r <- on_backend (insert_quote_request w (request_insert w form)) ;;
          match r with
          | Err quoteError =>
              on_backend (console_error "Database error:") ;;
              throw (ErrorObj MSG_QUOTE_FAILED)
          | Ok quoteData =>
              (if Nat.ltb 0 (List.length selected)
               then
                 r2 <- on_backend
                         (insert_quote_request_services w
                            (service_inserts (row_id quoteData) selected)) ;;
                 match r2 with
                 | Err servicesError =>
                     on_backend (console_error "Services insert error:") ;;
                     throw (ErrorObj MSG_SERVICES_FAILED)
                 | Ok _ => ret tt
                 end
               else ret tt) ;;
              emailResult <- on_backend
                               (EmailService.sendQuoteRequestEmails w
                                  (email_data w form selected)) ;;
              when (negb (EmailService.e_success emailResult))
                   (on_backend (console_warn "Email sending failed:")) ;;
              setSuccess (Some MSG_SENT) ;;
              setSelected (fun _ => []) ;;
              setForm empty_form
          end)
         (fun err =>
            on_backend (emit (ConsoleError (exn_text err))) ;;
            setError (Some match err with
                           | ErrorObj message => message
                           | OtherValue => MSG_FALLBACK
                           end)))
      (setSubmitting false).

End App.

(* ===================================================================== *)
(** ** The server-mediated submission endpoint *)
(* ===================================================================== *)

Module Api.
Import Effect Backend.
Local Open Scope effect_scope.

(** [QuoteRequestData] of the endpoint.  The body is parsed JSON, so any
    field may be missing. *)
Record Contact : Type := mkContact {
  k_name : option Js.str;
  k_company : option Js.str;
  k_email : option Js.str;
  k_phone : option Js.str;
  k_budget : option Js.str;
  k_timeline : option Js.str;
  k_message : option Js.str
}.

Record ServiceItem : Type := mkServiceItem {
  i_id : Js.str;
  i_name : Js.str;
  i_category : Js.str;
  i_description : option Js.str
}.

Record QuoteRequestData : Type := mkBody {
  contact : option Contact;
  services : option (list ServiceItem);
  timestamp : Js.str
}.

Record Request : Type := mkRequest {
  method : Js.str;
  body : QuoteRequestData
}.

Inductive Json : Type :=
| EmptyObject
| ErrorBody (error : Js.str)
| SuccessBody (requestNumber message : Js.str).

Record Response : Type := mkResponse {
  cors_headers : bool;
  status : N;
  json : Json
}.

(** [await sendEmail(to, subject, html)]: throws when the response is not
    ok. *)
Definition sendEmail (w : World) (ok : bool) (to subject : Js.str)
  : M St unit :=
  response_ok <- post_email ok to subject false ;;
  if negb response_ok
  then throw (ErrorObj (Js.lit "Email sending failed: " ++ email_error_text w))
  else ret tt.

(** [!data.contact?.name] and [!data.contact?.email] *)
Definition contact_field (data : QuoteRequestData)
                         (field : Contact -> option Js.str) : option Js.str :=
  match contact data with
  | Some c => field c
  | None => None
  end.

(** [data.services?.length], with [undefined] read as [0]. *)
Definition services_length (data : QuoteRequestData) : nat :=
  match services data with
  | Some l => List.length l
  | None => 0
  end.

Definition services_of (data : QuoteRequestData) : list ServiceItem :=
  match services data with
  | Some l => l
  | None => []
  end.

Definition request_insert (data : QuoteRequestData) : QuoteRequestInsert :=
  {| r_name := contact_field data k_name;
     r_company := contact_field data k_company;
     r_email := contact_field data k_email;
     r_phone := contact_field data k_phone;
     r_budget_range := contact_field data k_budget;
     r_timeline := contact_field data k_timeline;
     r_message := contact_field data k_message;
     r_status := Js.lit "pending";
     r_request_number := None;
     r_created_at := None |}.

Definition service_inserts (quote_id : N) (items : list ServiceItem)
  : list ServiceInsert :=
  map (fun service =>
         {| v_quote_request_id := quote_id;
            v_service_name := i_name service;
            v_custom_description := i_description service;
            v_estimated_price := None;
            v_final_price := None |})
      items.

Definition client_address (data : QuoteRequestData) : Js.str :=
  match contact_field data k_email with
  | Some e => e
  | None => []
  end.

Definition handler (w : World) (req : Request) : M St Response :=
  if Js.eqb (method req) (Js.lit "OPTIONS")
  then ret (mkResponse false 200 EmptyObject)
  else if negb (Js.eqb (method req) (Js.lit "POST"))
  then ret (mkResponse true 405 (ErrorBody (Js.lit "Method not allowed")))
  else
    try_catch
      (let data := body req in
       if negb (Js.truthy_opt (contact_field data k_name))
          || negb (Js.truthy_opt (contact_field data k_email))
          || Nat.eqb (services_length data) 0
       then ret (mkResponse true 400 (ErrorBody (Js.lit "Missing required fields")))
       else
         r <- insert_quote_request w (request_insert data) ;;
         match r with
         | Err dbError =>
             console_error "Database error:" ;;
             ret (mkResponse true 500
                    (ErrorBody (Js.lit "Failed to save quote request")))
         | Ok quoteRequest =>
             (if Nat.ltb 0 (List.length (services_of data))
              then
                r2 <- insert_quote_request_services w
                        (service_inserts (row_id quoteRequest) (services_of data)) ;;
                match r2 with
                | Err servicesError => console_error "Services insert error:"
                | Ok _ => ret tt
                end
              else ret tt) ;;
             try_catch
               (sendEmail w (admin_email_ok w) (ADMIN_EMAIL w)
                  (Js.lit "New Quote Request - "
                     ++ row_request_number quoteRequest) ;;
                sendEmail w (client_email_ok w) (client_address data)
                  (Js.lit "Quote Request Received - "
                     ++ row_request_number quoteRequest))
               (fun emailError => console_error "Email sending error:") ;;
             ret (mkResponse true 200
                    (SuccessBody (row_request_number quoteRequest)
                       (Js.lit "Quote request submitted successfully")))
         end)
      (fun error =>
         console_error "API error:" ;;
         ret (mkResponse true 500 (ErrorBody (Js.lit "Internal server error")))).

End Api.

(* ===================================================================== *)
(** ** Vocabulary of the statements *)
(* ===================================================================== *)

Module Spec.
Import Effect Backend Catalog App.
Local Open Scope effect_scope.

(** A sequence of clicks on service checkboxes. *)
Fixpoint toggle_all (ids : list Js.str) : M AppState unit :=
  match ids with
  | [] => ret tt
  | id :: rest => toggleService id ;; toggle_all rest
  end.

(** How many times [id] was toggled in [ids]. *)
Definition count_toggles (id : Js.str) (ids : list Js.str) : nat :=
  List.length (filter (fun x => Js.eqb x id) ids).

(** [id] is the id of some service of the catalog. *)
Definition in_catalog (id : Js.str) : Prop :=
  exists c s, In c SERVICE_CATEGORIES /\ In s (c_services c) /\ s_id s = id.

(** The state a computation ends in, and what it returns. *)
Definition final {S A} (m : M S A) (s : S) : S := snd (m s).
Definition result {S A} (m : M S A) (s : S) : Outcome A := fst (m s).

Definition with_error (u : UiState) (m : option Js.str) : UiState :=
  mkUi (expandedCategory u) (selected u) (form u) (submitting u)
       (success u) m.

(** The UI state after an aborted submission that shows [m]. *)
Definition aborted_ui (u : UiState) (m : Js.str) : UiState :=
  mkUi (expandedCategory u) (selected u) (form u) false (success u) (Some m).

(** The UI state after a completed submission. *)
Definition completed_ui (u : UiState) : UiState :=
  mkUi (expandedCategory u) [] empty_form false (Some MSG_SENT) None.

(** The backend once both inserts of the browser-direct submission have
    succeeded, [g] being what the database generated. *)
Definition persisted (w : World) (u : UiState) (g : Generated)
                     (st : Backend.St) : Backend.St :=
  let row := request_insert w (form u) in
  let rows := service_inserts (g_id g) (selected u) in
  mkSt (mkDb (quote_requests (db st) ++ [store_request g row])
             (quote_request_services (db st) ++ rows))
       (log st ++ [InsertQuoteRequest row; InsertQuoteRequestServices rows]).

(** What the two senders of the e-mail service add to the log. *)
Definition email_events (w : World) (d : EmailService.QuoteRequestData)
  : list Event :=
  [PostEmail (ADMIN_EMAIL w)
     (Js.lit "New Quote Request - " ++ EmailService.company_or_name d) true]
  ++ (if admin_email_ok w then []
      else [ConsoleError (Js.lit "Failed to send quote request email:")])
  ++ [PostEmail (EmailService.q_email d)
        (Js.lit "Quote Request Received - OneShopCentrale") false]
  ++ (if client_email_ok w then []
      else [ConsoleError (Js.lit "Failed to send client confirmation email:")]).

(** The combined result for a payload that passed validation. *)
Definition combined_result (w : World) : EmailService.EmailResult :=
  if admin_email_ok w && client_email_ok w
  then EmailService.mkEmailResult true
         (Js.lit "Quote request emails sent successfully")
  else if admin_email_ok w
  then EmailService.mkEmailResult true
         (Js.lit "Admin notification sent, but client confirmation failed")
  else EmailService.mkEmailResult false
         (Js.lit "Failed to send quote request emails").

(** The payload passes [validateQuoteRequestData]. *)
Definition valid_payload (d : EmailService.QuoteRequestData) : bool :=
  EmailService.isValid
    (EmailService.validateQuoteRequestData (EmailService.as_partial d)).

(** What the notification step of [handleSubmit] adds to the log. *)
Definition notification_events (w : World) (d : EmailService.QuoteRequestData)
  : list Event :=
  if valid_payload d
  then email_events w d
       ++ (if admin_email_ok w then []
           else [ConsoleWarn (Js.lit "Email sending failed:")])
  else [ConsoleWarn (Js.lit "Email sending failed:")].

(** What the e-mail step of the endpoint adds to the log: the client send
    is attempted only after the admin send went through. *)
Definition server_email_events (w : World) (d : Api.QuoteRequestData)
                               (request_number : Js.str) : list Event :=
  [PostEmail (ADMIN_EMAIL w)
     (Js.lit "New Quote Request - " ++ request_number) false]
  ++ (if admin_email_ok w
      then [PostEmail (Api.client_address d)
              (Js.lit "Quote Request Received - " ++ request_number) false]
           ++ (if client_email_ok w then []
               else [ConsoleError (Js.lit "Email sending error:")])
      else [ConsoleError (Js.lit "Email sending error:")]).

(** The success answer of the endpoint. *)
Definition accepted (request_number : Js.str) : Api.Response :=
  Api.mkResponse true 200
    (Api.SuccessBody request_number
       (Js.lit "Quote request submitted successfully")).

(** An error answer of the endpoint. *)
Definition refused (status : N) (message : string) : Api.Response :=
  Api.mkResponse true status (Api.ErrorBody (Js.lit message)).

(** The events a run added to the log of [before]. *)
Definition new_events (before after : Backend.St) : list Event :=
  skipn (List.length (log before)) (log after).

(** Sample inputs: the form and selection of the end-to-end scenario,
    and worlds that differ in what the collaborators answer. *)
Definition jane_form : ContactForm :=
  mkForm (Js.lit "Jane Doe") [] (Js.lit "jane@x.com") []
         (Js.lit "5k-20k") (Js.lit "1-3") [].

Definition jane_app (sel : list Js.str) (f : ContactForm) : AppState :=
  mkApp (mkUi None sel f false None None) (mkSt (mkDb [] []) []).

Definition jane_body : Api.QuoteRequestData :=
  Api.mkBody
    (Some (Api.mkContact (Some (Js.lit "Jane Doe")) None
             (Some (Js.lit "jane@x.com")) None
             (Some (Js.lit "5k-20k")) (Some (Js.lit "1-3")) None))
    (Some [Api.mkServiceItem (Js.lit "seo") (Js.lit "SEO Optimization")
             (Js.lit "digital") None])
    (Js.lit "2024-01-15T10:00:00.000Z").

Definition world_of (q : DbAnswer Generated) (v : DbAnswer unit)
                    (admin client : bool) : World :=
  mkWorld (Js.lit "admin@example.com") 1705312800000
          (Js.lit "2024-01-15T10:00:00.000Z") q v admin client
          (Js.lit "Service Unavailable").

Definition generated : Generated :=
  mkGenerated 1 (Js.lit "QR2024010001").

Definition empty_backend : Backend.St := mkSt (mkDb [] []) [].

(** The form passes the check at the top of [handleSubmit]. *)
Definition submittable (u : UiState) : Prop :=
  f_name (form u) <> [] /\ f_email (form u) <> [] /\ selected u <> [].

(** The body passes the check at the top of the endpoint. *)
Definition acceptable (d : Api.QuoteRequestData) : Prop :=
  Js.truthy_opt (Api.contact_field d Api.k_name) = true
  /\ Js.truthy_opt (Api.contact_field d Api.k_email) = true
  /\ Api.services_length d <> 0.

(** The freshly mounted component over an empty database. *)
Definition initial_app : AppState :=
  mkApp initial_ui (mkSt (mkDb [] []) []).

Definition post (d : Api.QuoteRequestData) : Api.Request :=
  Api.mkRequest (Js.lit "POST") d.

(** The message an aborting failure of the browser-direct submission
    shows: a failed insert gives its fixed message, a rejected promise the
    message of the thrown error (or the fallback). *)
Definition thrown_message (e : Exn) : Js.str :=
  match e with
  | ErrorObj message => message
  | OtherValue => MSG_FALLBACK
  end.

Definition abort_message (w : World) : option Js.str :=
  match quote_insert w with
  | DbError _ => Some MSG_QUOTE_FAILED
  | Rejects e => Some (thrown_message e)
  | Data _ =>
      match services_insert w with
      | DbError _ => Some MSG_SERVICES_FAILED
      | Rejects e => Some (thrown_message e)
      | Data _ => None
      end
  end.

End Spec.

(* ===================================================================== *)
(** ** Decimal digits *)
(* ===================================================================== *)

Module Digits.

(** The code units of ["0"] to ["9"]. *)
Definition is_digit (c : N) : bool := N.leb 48 c && N.leb c 57.

End Digits.

(* ===================================================================== *)
(** ** Form editing ([handleChange] of [src/App.tsx]) *)
(* ===================================================================== *)

Module FormState.
Import Effect App.
Local Open Scope effect_scope.

(** [{ ...f, [name]: value }].  The seven inputs of the form carry the
    seven keys below; any other key would add a property that no code
    reads, and the record does not carry it. *)
Definition merge (f : ContactForm) (name value : Js.str) : ContactForm :=
  if Js.eqb name (Js.lit "name") then
    mkForm value (f_company f) (f_email f) (f_phone f) (f_budget f)
           (f_timeline f) (f_message f)
  else if Js.eqb name (Js.lit "company") then
    mkForm (f_name f) value (f_email f) (f_phone f) (f_budget f)
           (f_timeline f) (f_message f)
  else if Js.eqb name (Js.lit "email") then
    mkForm (f_name f) (f_company f) value (f_phone f) (f_budget f)
           (f_timeline f) (f_message f)
  else if Js.eqb name (Js.lit "phone") then
    mkForm (f_name f) (f_company f) (f_email f) value (f_budget f)
           (f_timeline f) (f_message f)
  else if Js.eqb name (Js.lit "budget") then
    mkForm (f_name f) (f_company f) (f_email f) (f_phone f) value
           (f_timeline f) (f_message f)
  else if Js.eqb name (Js.lit "timeline") then
    mkForm (f_name f) (f_company f) (f_email f) (f_phone f) (f_budget f)
           value (f_message f)
  else if Js.eqb name (Js.lit "message") then
    mkForm (f_name f) (f_company f) (f_email f) (f_phone f) (f_budget f)
           (f_timeline f) value
  else f.

(** [f[name]] for the seven keys of the form. *)
Definition read (f : ContactForm) (name : Js.str) : option Js.str :=
  if Js.eqb name (Js.lit "name") then Some (f_name f)
  else if Js.eqb name (Js.lit "company") then Some (f_company f)
  else if Js.eqb name (Js.lit "email") then Some (f_email f)
  else if Js.eqb name (Js.lit "phone") then Some (f_phone f)
  else if Js.eqb name (Js.lit "budget") then Some (f_budget f)
  else if Js.eqb name (Js.lit "timeline") then Some (f_timeline f)
  else if Js.eqb name (Js.lit "message") then Some (f_message f)
  else None.

(** [handleChange(e)] with [e.target] giving [name] and [value]. *)
Definition handleChange (name value : Js.str) : M AppState unit :=
  modify_ui (fun u =>
    mkUi (expandedCategory u) (selected u) (merge (form u) name value)
         (submitting u) (success u) (error u)).

(** A sequence of change events, oldest first. *)
Fixpoint change_all (edits : list (Js.str * Js.str)) : M AppState unit :=
  match edits with
  | [] => ret tt
  | (name, value) :: rest => handleChange name value ;; change_all rest
  end.

(** The value of the last edit of [name], if any. *)
Fixpoint last_edit (edits : list (Js.str * Js.str)) (name : Js.str)
  : option Js.str :=
  match edits with
  | [] => None
  | (n, v) :: rest =>
      match last_edit rest name with
      | Some v' => Some v'
      | None => if Js.eqb n name then Some v else None
      end
  end.

End FormState.

(* ===================================================================== *)
(** ** The attachment name of the admin notification *)
(* ===================================================================== *)

Module Attachment.

(** [s.replace(/\s+/g, '-')]: every maximal run of white space becomes one
    dash.  [in_run] tells that the previous code unit was white space. *)
Fixpoint dash_runs (in_run : bool) (s : Js.str) : Js.str :=
  match s with
  | [] => []
  | c :: s' =>
      if Js.is_space c
      then if in_run then dash_runs true s' else 45%N :: dash_runs true s'
      else c :: dash_runs false s'
  end.

Definition replace_spaces (s : Js.str) : Js.str := dash_runs false s.

(** [`quote-request-${(company || name).replace(/\s+/g, '-')}.pdf`] *)
Definition filename (d : EmailService.QuoteRequestData) : Js.str :=
  Js.lit "quote-request-"
    ++ replace_spaces (EmailService.company_or_name d)
    ++ Js.lit ".pdf".

End Attachment.

(* ===================================================================== *)
(** ** The e-mail relay endpoint ([api/send-email.ts]) *)
(* ===================================================================== *)

Module SendEmailApi.
Import Effect.
Local Open Scope effect_scope.

Record Attachment : Type := mkAttachment {
  a_filename : Js.str;
  a_content : Js.str;
  a_encoding : Js.str
}.

(** The request body; any field may be missing. *)
Record EmailData : Type := mkEmailData {
  to : option Js.str;
  subject : option Js.str;
  html : option Js.str;
  attachments : option (list Attachment)
}.

Record SentAttachment : Type := mkSentAttachment {
  t_filename : Js.str;
  t_content : Js.str;
  t_content_type : Js.str
}.

(** The JSON posted to the provider. *)
Record Payload : Type := mkPayload {
  p_from : Js.str;
  p_to : list (option Js.str);
  p_subject : option Js.str;
  p_html : option Js.str;
  p_attachments : option (list SentAttachment)
}.

(** What the provider does with one post. *)
Inductive ProviderAnswer : Type :=
| Accepted (id : Js.str)
| Refused (status : N) (text : Js.str)
| Unreachable (e : Exn).

Record World : Type := mkWorld {
  FROM_EMAIL : Js.str;
  provider : ProviderAnswer
}.

Inductive Event : Type :=
| Post (p : Payload)
| ConsoleError (label : Js.str).

Definition is_post (e : Event) : bool :=
  match e with Post _ => true | ConsoleError _ => false end.

Record Request : Type := mkRequest {
  method : Js.str;
  body : EmailData
}.

Inductive Json : Type :=
| MessageBody (message : Js.str)
| ErrorBody (error : Js.str)
| SentBody (message id : Js.str)
| FailureBody (error details : Js.str).

Record Response : Type := mkResponse {
  cors_headers : bool;
  status : N;
  json : Json
}.

Definition emit (e : Event) : M (list Event) unit :=
  modify (fun l => l ++ [e]).

Definition build_payload (w : World) (emailData : EmailData) : Payload :=
  let payload :=
    mkPayload (FROM_EMAIL w) [to emailData] (subject emailData)
              (html emailData) None in
  match attachments emailData with
  | Some atts =>
      if Nat.ltb 0 (List.length atts)
      then mkPayload (p_from payload) (p_to payload) (p_subject payload)
             (p_html payload)
             (Some (map (fun att =>
                           mkSentAttachment (a_filename att) (a_content att)
                                            (Js.lit "application/pdf"))
                        atts))
      else payload
  | None => payload
  end.

(** [sendEmail]: returns [result.id], throws when the response is not ok. *)
Definition sendEmail (w : World) (emailData : EmailData)
  : M (list Event) Js.str :=
  emit (Post (build_payload w emailData)) ;;
  match provider w with
  | Accepted id => ret id
  | Refused status text =>
      throw (ErrorObj (Js.lit "Resend API error: " ++ Js.of_N status
                         ++ Js.lit " - " ++ text))
  | Unreachable e => throw e
  end.

Definition handler (w : World) (req : Request) : M (list Event) Response :=
  if Js.eqb (method req) (Js.lit "OPTIONS")
  then ret (mkResponse false 200 (MessageBody (Js.lit "OK")))
  else if negb (Js.eqb (method req) (Js.lit "POST"))
  then ret (mkResponse true 405 (ErrorBody (Js.lit "Method not allowed")))
  else
    try_catch
      (let emailData := body req in
       if negb (Js.truthy_opt (to emailData))
          || negb (Js.truthy_opt (subject emailData))
          || negb (Js.truthy_opt (html emailData))
       then ret (mkResponse true 400
                   (ErrorBody (Js.lit "Missing required fields: to, subject, html")))
       else
         id <- sendEmail w emailData ;;
         ret (mkResponse true 200
                (SentBody (Js.lit "Email sent successfully") id)))
      (fun error =>
         emit (ConsoleError (Js.lit "Email sending error:")) ;;
         ret (mkResponse true 500
                (FailureBody (Js.lit "Failed to send email")
                   match error with
                   | ErrorObj message => message
                   | OtherValue => Js.lit "Unknown error"
                   end))).

End SendEmailApi.

(* ===================================================================== *)
(** ** Storage paths ([generateStoragePath] of the database client module) *)
(* ===================================================================== *)

Module Storage.

Definition between (lo hi c : N) : bool := N.leb lo c && N.leb c hi.

(** The class [[a-zA-Z0-9.-]]. *)
Definition allowed (c : N) : bool :=
  between 97 122 c || between 65 90 c || between 48 57 c
  || N.eqb c 46 || N.eqb c 45.

(** [fileName.replace(/[^a-zA-Z0-9.-]/g, '_')] *)
Definition sanitize (fileName : Js.str) : Js.str :=
  map (fun c => if allowed c then c else 95%N) fileName.

(** [`applications/${applicationId}/${timestamp}_${sanitizedFileName}`],
    [timestamp] being [Date.now()]. *)
Definition generateStoragePath (timestamp : N) (applicationId fileName : Js.str)
  : Js.str :=
  Js.lit "applications/" ++ applicationId ++ Js.lit "/"
    ++ Js.of_N timestamp ++ Js.lit "_" ++ sanitize fileName.

(** The part of a path after its last slash. *)
Fixpoint last_segment_from (acc : Js.str) (path : Js.str) : Js.str :=
  match path with
  | [] => acc
  | c :: rest =>
      if N.eqb c 47 then last_segment_from [] rest
      else last_segment_from (acc ++ [c]) rest
  end.

Definition last_segment (path : Js.str) : Js.str := last_segment_from [] path.

End Storage.

(* ===================================================================== *)
(** ** Server-side request numbers (the SQL functions of the schema) *)
(* ===================================================================== *)

Module Schema.

(** SQL text: a sequence of characters, here by character code. *)
Definition text : Type := Js.str.

(** One element of a [LIKE] pattern. *)
Inductive LikeToken : Type :=
| AnyString             (* % *)
| AnyChar               (* _ *)
| Literal (c : N).

(** Reads a [LIKE] pattern, backslash being the escape character; a
    pattern that ends in the escape character is an error. *)
Fixpoint like_tokens (p : text) : option (list LikeToken) :=
  match p with
  | [] => Some []
  | c :: p' =>
      if N.eqb c 92 then
        match p' with
        | [] => None
        | d :: p'' => option_map (cons (Literal d)) (like_tokens p'')
        end
      else if N.eqb c 37 then option_map (cons AnyString) (like_tokens p')
      else if N.eqb c 95 then option_map (cons AnyChar) (like_tokens p')
      else option_map (cons (Literal c)) (like_tokens p')
  end.

Fixpoint like_match (ts : list LikeToken) (s : text) : bool :=
  match ts with
  | [] => match s with [] => true | _ :: _ => false end
  | AnyString :: ts' =>
      (fix any (s : text) : bool :=
         like_match ts' s
         || match s with [] => false | _ :: s' => any s' end) s
  | AnyChar :: ts' =>
      match s with [] => false | _ :: s' => like_match ts' s' end
  | Literal c :: ts' =>
      match s with [] => false | x :: s' => N.eqb x c && like_match ts' s' end
  end.

(** [s LIKE p] *)
Definition like (s p : text) : option bool :=
  option_map (fun ts => like_match ts s) (like_tokens p).

(** [LPAD(s, len, fill)]: pads on the left, or truncates on the right a
    string that is already longer than [len]. *)
Definition lpad (s : text) (len : nat) (fill : text) : text :=
  if Nat.leb len (List.length s) then firstn len s
  else firstn (len - List.length s)
              (List.concat (repeat fill (len - List.length s))) ++ s.

(** The part of [NOW()] that the function reads. *)
Record Now : Type := mkNow {
  year : N;
  month : N
}.

(** A number printed with at least [width] digits. *)
Definition zero_padded (width : nat) (n : N) : text :=
  repeat 48%N (width - List.length (Js.of_N n)) ++ Js.of_N n.

(** [TO_CHAR(NOW(), 'YYYYMM')] *)
Definition to_char_YYYYMM (now : Now) : text :=
  zero_padded 4 (year now) ++ zero_padded 2 (month now).

(** [generate_quote_request_number()], over the [request_number] column of
    [quote_requests]. *)
Definition generate_quote_request_number (now : Now) (quote_requests : list text)
  : text :=
  let new_number := Js.lit "QR" ++ to_char_YYYYMM now in
  let counter :=
    (N.of_nat
       (List.length
          (filter (fun request_number =>
                     match like request_number (new_number ++ Js.lit "%") with
                     | Some b => b
                     | None => false
                     end)
                  quote_requests)) + 1)%N in
  new_number ++ lpad (Js.of_N counter) 4 (Js.lit "0").

(** [set_quote_request_number()], the [BEFORE INSERT] trigger: the value
    of [NEW.request_number] after it ran. *)
Definition set_quote_request_number (now : Now) (quote_requests : list text)
                                    (request_number : option text) : text :=
  match request_number with
  | None => generate_quote_request_number now quote_requests
  | Some n =>
      if Nat.eqb (List.length n) 0
      then generate_quote_request_number now quote_requests
      else n
  end.

(** An insert into [quote_requests], seen on the column
    [request_number VARCHAR(20) UNIQUE NOT NULL]: [None] when the value is
    too long or already present. *)
Definition insert_request (now : Now) (quote_requests : list text)
                          (request_number : option text) : option (list text) :=
  let n := set_quote_request_number now quote_requests request_number in
  if Nat.ltb 20 (List.length n) then None
  else if Js.includes quote_requests n then None
  else Some (quote_requests ++ [n]).

(** [k] inserts in a row that leave the request number to the trigger. *)
Fixpoint insert_unnumbered (now : Now) (k : nat) (quote_requests : list text)
  : option (list text) :=
  match k with
  | O => Some quote_requests
  | S k' =>
      match insert_request now quote_requests None with
      | Some t => insert_unnumbered now k' t
      | None => None
      end
  end.

(** The request number with counter [i] in the month of [now]. *)
Definition numbered (now : Now) (i : N) : text :=
  Js.lit "QR" ++ to_char_YYYYMM now ++ lpad (Js.of_N i) 4 (Js.lit "0").

(** The request numbers with counters 1 to [j] in the month of [now], in
    order. *)
Definition issued (now : Now) (j : nat) : list text :=
  map (fun i => numbered now (N.of_nat i)) (seq 1 j).

(** The prefix of the month's request numbers. *)
Definition month_prefix (now : Now) : text :=
  Js.lit "QR" ++ to_char_YYYYMM now.

(** A character that stands for itself in a [LIKE] pattern. *)
Definition plain (c : N) : bool :=
  negb (N.eqb c 92) && negb (N.eqb c 37) && negb (N.eqb c 95).

(** The counters below ten thousand, for checks by evaluation. *)
Definition small_counters : list N := map N.of_nat (seq 0 (N.to_nat 10000)).

(** [s] starts with [p]. *)
Fixpoint starts_with (p s : text) : bool :=
  match p, s with
  | [], _ => true
  | c :: p', x :: s' => N.eqb x c && starts_with p' s'
  | _ :: _, [] => false
  end.

(** The value of a string of decimal digits. *)
Definition digits_value (s : text) : N :=
  fold_left (fun acc c => (acc * 10 + (c - 48))%N) s 0%N.

End Schema.

(* ===================================================================== *)
(** ** The PDF summary ([generateQuoteRequestPDF] of the e-mail service) *)
(* ===================================================================== *)

Module Pdf.
Import Effect.
Local Open Scope effect_scope.

(** The three widths the layout uses: [pageWidth], [contentWidth]
    ([pageWidth - 2 * margin]) and [contentWidth - 60]. *)
Inductive Width : Type :=
| PageWidth
| ContentWidth
| ValueWidth.

(** A vertical position: a number, or [pageHeight - 10] of the footer. *)
Inductive YPos : Type :=
| At (y : Z)
| FooterLine.

(** The calls made on the jsPDF document. *)
Inductive Op : Type :=
| SetFillColor (r g b : N)
| Rect (x y : Z) (w : Width) (h : Z)
| SetTextColor (r g b : N)
| SetFontSize (size : N)
| SetFont (style : Js.str)
| Text (lines : list Js.str) (x : Z) (y : YPos)
| AddPage
| SetPage (page : nat).

(** The document: [getNumberOfPages()] and the calls so far. *)
Record Doc : Type := mkDoc {
  pages : nat;
  ops : list Op
}.

(** [new jsPDF()] *)
Definition new_doc : Doc := mkDoc 1 [].

(** What the layout takes from its libraries.  All vertical positions of
    the layout are integers, so [y + 30 > pageHeight - 20] is
    [y + 30 > bottom] with [bottom] the integer part of
    [pageHeight - 20]. *)
Record Lib : Type := mkLib {
  splitTextToSize : Js.str -> Width -> list Js.str;
  bottom : Z;
  toLocaleDateString : Js.str -> Js.str
}.

Definition draw (op : Op) : M Doc unit :=
  modify (fun d => mkDoc (pages d) (ops d ++ [op])).

(** [doc.addPage()] *)
Definition addPage : M Doc unit :=
  modify (fun d => mkDoc (S (pages d)) (ops d ++ [AddPage])).

Definition lineHeight : Z := 8.
Definition sectionSpacing : Z := 15.
Definition margin : Z := 20.

Definition addText (lib : Lib) (text : Js.str) (x y : Z)
                   (fontSize : N) (fontStyle : string) (maxWidth : Width)
  : M Doc Z :=
  draw (SetFontSize fontSize) ;;
  draw (SetFont (Js.lit fontStyle)) ;;
  let lines := splitTextToSize lib text maxWidth in
  draw (Text lines x (At y)) ;;
  ret (y + Z.of_nat (List.length lines) * lineHeight)%Z.

Definition addSectionHeader (title : string) (y : Z) : M Doc Z :=
  draw (SetFillColor 59 130 246) ;;
  draw (Rect margin (y - 5) ContentWidth 12) ;;
  draw (SetTextColor 255 255 255) ;;
  draw (SetFontSize 12) ;;
  draw (SetFont (Js.lit "bold")) ;;
  draw (Text [Js.lit title] (margin + 5) (At (y + 3))) ;;
  draw (SetTextColor 0 0 0) ;;
  ret (y + 20)%Z.

(** [addField], for the string values this file passes to it. *)
Definition addField (lib : Lib) (label value : Js.str) (y : Z) : M Doc Z :=
  if negb (Js.truthy value) then ret y
  else
    let displayValue := value in
    if Nat.eqb (List.length (Js.trim displayValue)) 0 then ret y
    else
      draw (SetFont (Js.lit "bold")) ;;
      draw (SetFontSize 10) ;;
      draw (Text [label ++ Js.lit ":"] margin (At y)) ;;
      draw (SetFont (Js.lit "normal")) ;;
      let lines := splitTextToSize lib displayValue ValueWidth in
      draw (Text lines (margin + 60) (At y)) ;;
      ret (y + Z.of_nat (List.length lines) * lineHeight + 3)%Z.

(** [checkNewPage(currentY)], with the default [requiredSpace = 30]. *)
Definition checkNewPage (lib : Lib) (currentY : Z) : M Doc Z :=
  if Z.ltb (bottom lib) (currentY + 30)
  then addPage ;; ret 20%Z
  else ret currentY.

(** [value || fallback] for an optional field. *)
Definition or_default (value : option Js.str) (fallback : string) : Js.str :=
  match value with
  | Some v => Js.or_else v (Js.lit fallback)
  | None => Js.lit fallback
  end.

(** [data.selectedServices.forEach((service, index) => ...)] *)
Fixpoint addServices (lib : Lib) (services : list Js.str) (index : nat) (y : Z)
  : M Doc Z :=
  match services with
  | [] => ret y
  | service :: rest =>
      y' <- addField lib
              (Js.lit "Service " ++ Js.of_N (N.of_nat index + 1)) service y ;;
      addServices lib rest (S index) y'
  end.

(** [data.message && data.message.trim()] *)
Definition has_message (message : option Js.str) : bool :=
  match message with
  | Some m => Js.truthy m && Js.truthy (Js.trim m)
  | None => false
  end.

Definition footer_text (i pageCount : nat) : Js.str :=
  Js.lit "Page " ++ Js.of_N (N.of_nat i) ++ Js.lit " of "
    ++ Js.of_N (N.of_nat pageCount)
    ++ Js.lit " | Generated by OneShopCentrale System".

(** [for (let i = 1; i <= pageCount; i++) { ... }] *)
Fixpoint addFooters (pageCount : nat) (numbers : list nat) : M Doc unit :=
  match numbers with
  | [] => ret tt
  | i :: rest =>
      draw (SetPage i) ;;
      draw (SetFontSize 8) ;;
      draw (SetTextColor 128 128 128) ;;
      draw (Text [footer_text i pageCount] margin FooterLine) ;;
      addFooters pageCount rest
  end.

(** The drawing part of [generateQuoteRequestPDF]. *)
Definition render (lib : Lib) (data : EmailService.QuoteRequestData)
  : M Doc unit :=
  draw (SetFillColor 31 41 55) ;;
  draw (Rect 0 0 PageWidth 35) ;;
  draw (SetTextColor 255 255 255) ;;
  draw (SetFontSize 18) ;;
  draw (SetFont (Js.lit "bold")) ;;
  draw (Text [Js.lit "OneShopCentrale"] margin (At 20)) ;;
  draw (SetFontSize 12) ;;
  draw (SetFont (Js.lit "normal")) ;;
  draw (Text [Js.lit "Service Quote Request"] margin (At 28)) ;;
  draw (SetTextColor 0 0 0) ;;
  y <- addText lib
         (Js.lit "Submitted: "
            ++ toLocaleDateString lib (EmailService.q_timestamp data))
         margin 50 10 "italic" ContentWidth ;;
  y <- checkNewPage lib (y + sectionSpacing) ;;
  y <- addSectionHeader "Contact Information" y ;;
  y <- addField lib (Js.lit "Name") (EmailService.q_name data) y ;;
  y <- addField lib (Js.lit "Company")
         (or_default (EmailService.q_company data) "Not provided") y ;;
  y <- addField lib (Js.lit "Email") (EmailService.q_email data) y ;;
  y <- addField lib (Js.lit "Phone")
         (or_default (EmailService.q_phone data) "Not provided") y ;;
  y <- checkNewPage lib (y + sectionSpacing) ;;
  y <- addSectionHeader "Project Details" y ;;
  y <- addField lib (Js.lit "Budget Range")
         (or_default (EmailService.q_budget data) "Not specified") y ;;
  y <- addField lib (Js.lit "Timeline")
         (or_default (EmailService.q_timeline data) "Not specified") y ;;
  y <- checkNewPage lib (y + sectionSpacing) ;;
  y <- addSectionHeader "Requested Services" y ;;
  y <- (if Nat.ltb 0 (List.length (EmailService.q_selectedServices data))
        then addServices lib (EmailService.q_selectedServices data) 0 y
        else addField lib (Js.lit "Services")
               (Js.lit "No services selected") y) ;;
  (if has_message (EmailService.q_message data)
   then
     y <- checkNewPage lib (y + sectionSpacing) ;;
     y <- addSectionHeader "Additional Information" y ;;
     _ <- addField lib (Js.lit "Message")
            (match EmailService.q_message data with
             | Some m => m
             | None => []
             end) y ;;
     ret tt
   else ret tt) ;;
  d <- get ;;
  let pageCount := pages d in
  addFooters pageCount (seq 1 pageCount).

(** The document [generateQuoteRequestPDF] builds before it encodes it. *)
Definition document (lib : Lib) (data : EmailService.QuoteRequestData) : Doc :=
  snd (render lib data new_doc).

(** How many pages a sequence of calls adds. *)
Fixpoint breaks (o : list Op) : nat :=
  match o with
  | [] => 0
  | AddPage :: rest => S (breaks rest)
  | _ :: rest => breaks rest
  end.

(** The section headers: the texts drawn at the header indent, with their
    vertical positions. *)
Fixpoint headers (o : list Op) : list (list Js.str * Z) :=
  match o with
  | [] => []
  | Text lines x (At y) :: rest =>
      if Z.eqb x (margin + 5) then (lines, y) :: headers rest
      else headers rest
  | _ :: rest => headers rest
  end.

(** The footers: each text drawn on the footer line, with the page that
    was current when it was drawn. *)
Fixpoint footers_from (current : nat) (o : list Op)
  : list (nat * list Js.str) :=
  match o with
  | [] => []
  | SetPage i :: rest => footers_from i rest
  | AddPage :: rest => footers_from (S current) rest
  | Text lines _ FooterLine :: rest =>
      (current, lines) :: footers_from current rest
  | _ :: rest => footers_from current rest
  end.

(** A call that draws on the footer line. *)
Definition is_footer_text (op : Op) : bool :=
  match op with
  | Text _ _ FooterLine => true
  | _ => false
  end.

(** [addField] draws its field: the value is neither empty nor white
    space only. *)
Definition field_drawn (value : Js.str) : bool :=
  Js.truthy value && negb (Nat.eqb (List.length (Js.trim value)) 0).

(** The calls of one [addField] and the position it returns. *)
Definition field_ops (lib : Lib) (label value : Js.str) (y : Z) : list Op :=
  if field_drawn value
  then [SetFont (Js.lit "bold"); SetFontSize 10;
        Text [label ++ Js.lit ":"] margin (At y);
        SetFont (Js.lit "normal");
        Text (splitTextToSize lib value ValueWidth) (margin + 60) (At y)]
  else [].

Definition field_y (lib : Lib) (value : Js.str) (y : Z) : Z :=
  if field_drawn value
  then (y + Z.of_nat (List.length (splitTextToSize lib value ValueWidth))
              * lineHeight + 3)%Z
  else y.

(** The calls of one [checkNewPage] and the position it returns. *)
Definition page_ops (lib : Lib) (y : Z) : list Op :=
  if Z.ltb (bottom lib) (y + 30) then [AddPage] else [].

Definition page_y (lib : Lib) (y : Z) : Z :=
  if Z.ltb (bottom lib) (y + 30) then 20%Z else y.

(** The calls of the loop over the services and the position it ends
    at. *)
Fixpoint services_ops (lib : Lib) (services : list Js.str) (index : nat) (y : Z)
  : list Op :=
  match services with
  | [] => []
  | service :: rest =>
      field_ops lib (Js.lit "Service " ++ Js.of_N (N.of_nat index + 1))
                service y
        ++ services_ops lib rest (S index) (field_y lib service y)
  end.

Fixpoint services_y (lib : Lib) (services : list Js.str) (y : Z) : Z :=
  match services with
  | [] => y
  | service :: rest => services_y lib rest (field_y lib service y)
  end.

(** A section header drawn where [checkNewPage] left room for it: at the
    top of a fresh page, or with the 30 units asked for above the bottom
    margin. *)
Definition header_room (lib : Lib) (y : Z) : Prop :=
  y = 23%Z \/ (y + 27 <= bottom lib)%Z.

(** The calls of the footer loop. *)
Definition footer_ops (pageCount : nat) (numbers : list nat) : list Op :=
  flat_map (fun i => [SetPage i; SetFontSize 8; SetTextColor 128 128 128;
                      Text [footer_text i pageCount] margin FooterLine])
           numbers.

End Pdf.

(* ===================================================================== *)
(** ** Further vocabulary *)
(* ===================================================================== *)

Module Outcomes.
Import Effect Backend Spec.

(** The answer of the quote endpoint to an acceptable POST, as decided by
    the answers of the two inserts. *)
Definition endpoint_answer (w : World) : Api.Response :=
  match quote_insert w with
  | DbError _ => refused 500 "Failed to save quote request"
  | Rejects _ => refused 500 "Internal server error"
  | Data g =>
      match services_insert w with
      | Rejects _ => refused 500 "Internal server error"
      | _ => accepted (g_request_number g)
      end
  end.

(** The relay endpoint goes on to the provider: a POST whose body gives
    a recipient, a subject and an HTML body. *)
Definition relay_ready (req : SendEmailApi.Request) : bool :=
  Js.eqb (SendEmailApi.method req) (Js.lit "POST")
  && Js.truthy_opt (SendEmailApi.to (SendEmailApi.body req))
  && Js.truthy_opt (SendEmailApi.subject (SendEmailApi.body req))
  && Js.truthy_opt (SendEmailApi.html (SendEmailApi.body req)).

(** The answer of the relay endpoint once it has posted to the provider. *)
Definition relay_answer (w : SendEmailApi.World) : SendEmailApi.Response :=
  match SendEmailApi.provider w with
  | SendEmailApi.Accepted id =>
      SendEmailApi.mkResponse true 200
        (SendEmailApi.SentBody (Js.lit "Email sent successfully") id)
  | SendEmailApi.Refused status text =>
      SendEmailApi.mkResponse true 500
        (SendEmailApi.FailureBody (Js.lit "Failed to send email")
           (Js.lit "Resend API error: " ++ Js.of_N status
              ++ Js.lit " - " ++ text))
  | SendEmailApi.Unreachable (ErrorObj message) =>
      SendEmailApi.mkResponse true 500
        (SendEmailApi.FailureBody (Js.lit "Failed to send email") message)
  | SendEmailApi.Unreachable OtherValue =>
      SendEmailApi.mkResponse true 500
        (SendEmailApi.FailureBody (Js.lit "Failed to send email")
           (Js.lit "Unknown error"))
  end.

End Outcomes.

(* ===================================================================== *)
(** ** Strings and lists *)
(* ===================================================================== *)

Lemma js_eqb_eq (a b : Js.str) : Js.eqb a b = true <-> a = b.
Proof.
  revert b. induction a as [|x a IH]; intros [|y b]; simpl; split;
    try reflexivity; try discriminate.
  - intros H. apply andb_prop in H. destruct H as [Hx Hab].
    apply N.eqb_eq in Hx. apply IH in Hab. congruence.
  - intros H. injection H as -> ->.
    rewrite N.eqb_refl. simpl. apply IH. reflexivity.
Qed.

Lemma js_eqb_refl (a : Js.str) : Js.eqb a a = true.
Proof. apply js_eqb_eq. reflexivity. Qed.

Lemma js_eqb_neq (a b : Js.str) : Js.eqb a b = false <-> a <> b.
Proof.
  split.
  - intros H E. apply js_eqb_eq in E. congruence.
  - intros H. destruct (Js.eqb a b) eqn:E; [|reflexivity].
    apply js_eqb_eq in E. contradiction.
Qed.

Lemma js_includes_In (xs : list Js.str) (x : Js.str) :
  Js.includes xs x = true <-> In x xs.
Proof.
  unfold Js.includes. rewrite existsb_exists. split.
  - intros [y [Hy E]]. apply js_eqb_eq in E. subst. exact Hy.
  - intros H. exists x. split; [exact H | apply js_eqb_refl].
Qed.

Lemma length_zero_nil {A} (l : list A) :
  Nat.eqb (List.length l) 0 = true <-> l = [].
Proof. destruct l; simpl; split; congruence. Qed.

(* ===================================================================== *)
(** ** The pattern matcher decides the language of a pattern *)
(* ===================================================================== *)

Section RegexCorrect.
Import Regex.

Lemma nullable_Matches (r : t) : nullable r = true <-> Matches r [].
Proof.
  induction r as [| |p|a IHa b IHb|a IHa b IHb|a IHa]; simpl.
  - split; [discriminate | intros H; inversion H].
  - split; [intros _; constructor | reflexivity].
  - split; [discriminate | intros H; inversion H].
  - rewrite andb_true_iff, IHa, IHb. split.
    + intros [Ha Hb]. apply (MSeq Ha Hb).
    + intros H. inversion H as [| |a' b' u v Hu Hv E1 E2| | | |]; subst.
      apply app_eq_nil in E2. destruct E2; subst. auto.
  - rewrite orb_true_iff, IHa, IHb. split.
    + intros [H|H]; [apply MAltL | apply MAltR]; exact H.
    + intros H. inversion H; subst; auto.
  - split; [intros _; constructor | reflexivity].
Qed.

(** A non-empty word of [a*] starts with a non-empty word of [a]. *)
Lemma Matches_Star_cons (a : t) (c : N) (s : Js.str) :
  Matches (Star a) (c :: s) ->
  exists u v, s = u ++ v /\ Matches a (c :: u) /\ Matches (Star a) v.
Proof.
  intros H. remember (Star a) as r eqn:Er. remember (c :: s) as cs eqn:Ecs.
  revert s Ecs.
  induction H as [| | | | | |a' u v Hu _ Hv IHv]; intros s Ecs;
    try discriminate.
  injection Er as ->. destruct u as [|x u].
  - simpl in Ecs. apply IHv; auto.
  - simpl in Ecs. injection Ecs as -> <-. exists u, v. auto.
Qed.

Lemma deriv_Matches (r : t) (c : N) (s : Js.str) :
  Matches (deriv c r) s <-> Matches r (c :: s).
Proof.
  revert s.
  induction r as [| |p|a IHa b IHb|a IHa b IHb|a IHa]; intros s; simpl.
  - split; intros H; inversion H.
  - split; intros H; inversion H.
  - destruct (p c) eqn:P; split; intros H; inversion H; subst.
    + constructor. exact P.
    + constructor.
    + congruence.
  - assert (Hseq : Matches (Seq (deriv c a) b) s
                   <-> exists u v, s = u ++ v /\ Matches a (c :: u)
                                   /\ Matches b v).
    { split.
      - intros H. inversion H as [| |a' b' u v Hu Hv E1 E2| | | |]; subst.
        exists u, v. rewrite <- IHa. auto.
      - intros [u [v [-> [Hu Hv]]]]. apply MSeq; [apply IHa|]; assumption. }
    assert (Hcons : Matches (Seq a b) (c :: s)
                    <-> (exists u v, s = u ++ v /\ Matches a (c :: u)
                                     /\ Matches b v)
                        \/ (Matches a [] /\ Matches b (c :: s))).
    { split.
      - intros H. inversion H as [| |a' b' u v Hu Hv E1 E2| | | |]; subst.
        destruct u as [|x u]; simpl in E2.
        + subst v. right. auto.
        + injection E2 as -> <-. left. exists u, v. auto.
      - intros [[u [v [-> [Hu Hv]]]]|[Ha Hb]].
        + apply (MSeq Hu Hv).
        + apply (MSeq Ha Hb). }
    rewrite Hcons. destruct (nullable a) eqn:Na.
    + split.
      * intros H. inversion H; subst.
        -- left. apply Hseq. assumption.
        -- right. split; [apply nullable_Matches; exact Na | apply IHb; assumption].
      * intros [H|[_ H]].
        -- apply MAltL. apply Hseq. exact H.
        -- apply MAltR. apply IHb. exact H.
    + rewrite Hseq. split.
      * intros H. left. exact H.
      * intros [H|[H _]]; [exact H|].
        apply nullable_Matches in H. congruence.
  - split.
    + intros H. inversion H; subst.
      * apply MAltL. apply IHa. assumption.
      * apply MAltR. apply IHb. assumption.
    + intros H. inversion H; subst.
      * apply MAltL. apply IHa. assumption.
      * apply MAltR. apply IHb. assumption.
  - split.
    + intros H. inversion H as [| |a' b' u v Hu Hv E1 E2| | | |]; subst.
      apply IHa in Hu. apply (MStarCons Hu Hv).
    + intros H. apply Matches_Star_cons in H.
      destruct H as [u [v [-> [Hu Hv]]]].
      apply MSeq; [apply IHa|]; assumption.
Qed.

Lemma test_Matches (r : t) (s : Js.str) : test r s = true <-> Matches r s.
Proof.
  revert r. induction s as [|c s IH]; intros r; simpl.
  - apply nullable_Matches.
  - rewrite IH. apply deriv_Matches.
Qed.

Lemma Matches_Star_Class (p : N -> bool) (s : Js.str) :
  Matches (Star (Class p)) s <-> Forall (fun c => p c = true) s.
Proof.
  split.
  - intros H. remember (Star (Class p)) as r eqn:Er.
    induction H as [| | | | | |a u v Hu _ Hv IHv]; try discriminate.
    + constructor.
    + injection Er as ->. inversion Hu; subst. simpl.
      constructor; [assumption | apply IHv; reflexivity].
  - intros H. induction H as [|c s Hc _ IH].
    + constructor.
    + change (c :: s) with ([c] ++ s).
      apply MStarCons; [constructor; exact Hc | exact IH].
Qed.

Lemma Matches_Plus_Class (p : N -> bool) (s : Js.str) :
  Matches (Plus (Class p)) s <-> s <> [] /\ Forall (fun c => p c = true) s.
Proof.
  unfold Plus. split.
  - intros H. inversion H as [| |a b u v Hu Hv E1 E2| | | |]; subst.
    inversion Hu; subst. simpl. split; [discriminate|].
    constructor; [assumption | apply Matches_Star_Class; assumption].
  - intros [Hne H]. destruct s as [|c s]; [congruence|].
    inversion H; subst. change (c :: s) with ([c] ++ s).
    apply MSeq; [constructor; assumption | apply Matches_Star_Class; assumption].
Qed.

Lemma Matches_Chr_Seq (c : N) (r : t) (s : Js.str) :
  Matches (Seq (Chr c) r) s <-> exists v, s = c :: v /\ Matches r v.
Proof.
  unfold Chr. split.
  - intros H. inversion H as [| |a b u v Hu Hv E1 E2| | | |]; subst.
    inversion Hu as [|p x Hx| | | | |]; subst. apply N.eqb_eq in Hx. subst.
    exists v. auto.
  - intros [v [-> Hv]]. change (c :: v) with ([c] ++ v).
    apply MSeq; [constructor; apply N.eqb_refl | exact Hv].
Qed.

End RegexCorrect.

(** What [/^[^\s@]+@[^\s@]+\.[^\s@]+$/] accepts: a non-empty local part, an
    at sign, and a rest with a dot that has something on both sides, with
    no white space and no further at sign anywhere. *)
Lemma EMAIL_PATTERN_accepts (s : Js.str) :
  Regex.test EmailService.EMAIL_PATTERN s = true <->
  exists l d e,
    s = l ++ 64%N :: d ++ 46%N :: e
    /\ l <> [] /\ d <> [] /\ e <> []
    /\ Forall (fun c => EmailService.not_space_or_at c = true) (l ++ d ++ e).
Proof.
  rewrite test_Matches. unfold EmailService.EMAIL_PATTERN. split.
  - intros H. inversion H as [| |a b l v Hl Hv E1 E2| | | |]; subst.
    apply Matches_Plus_Class in Hl. destruct Hl as [Hl1 Hl2].
    apply Matches_Chr_Seq in Hv. destruct Hv as [v' [-> Hv]].
    inversion Hv as [| |a b d v2 Hd Hv2 E1 E2| | | |]; subst.
    apply Matches_Plus_Class in Hd. destruct Hd as [Hd1 Hd2].
    apply Matches_Chr_Seq in Hv2. destruct Hv2 as [e [-> He]].
    apply Matches_Plus_Class in He. destruct He as [He1 He2].
    exists l, d, e. repeat split; try assumption.
    repeat (apply Forall_app; split); assumption.
  - intros [l [d [e [-> [Hl [Hd [He HF]]]]]]].
    apply Forall_app in HF. destruct HF as [Fl HF].
    apply Forall_app in HF. destruct HF as [Fd Fe].
    apply Regex.MSeq; [apply Matches_Plus_Class; auto|].
    apply Matches_Chr_Seq. eexists. split; [reflexivity|].
    apply Regex.MSeq; [apply Matches_Plus_Class; auto|].
    apply Matches_Chr_Seq. eexists. split; [reflexivity|].
    apply Matches_Plus_Class; auto.
Qed.

Example email_accepted :
  Regex.test EmailService.EMAIL_PATTERN (Js.lit "jane@x.com") = true.
Proof. vm_compute. reflexivity. Qed.

Example email_without_at_rejected :
  Regex.test EmailService.EMAIL_PATTERN (Js.lit "jane.x.com") = false.
Proof. vm_compute. reflexivity. Qed.

Example email_without_dot_rejected :
  Regex.test EmailService.EMAIL_PATTERN (Js.lit "jane@localhost") = false.
Proof. vm_compute. reflexivity. Qed.

Example email_with_space_rejected :
  Regex.test EmailService.EMAIL_PATTERN (Js.lit "jane doe@x.com") = false.
Proof. vm_compute. reflexivity. Qed.

(* ===================================================================== *)
(** ** Selection state *)
(* ===================================================================== *)

Section Toggle.
Import App Spec.

Lemma toggle_In (x id : Js.str) (l : list Js.str) :
  In id (toggle x l) <-> (if Js.eqb x id then ~ In id l else In id l).
Proof.
  unfold toggle. destruct (Js.includes l x) eqn:Hin.
  - apply js_includes_In in Hin. rewrite filter_In.
    destruct (Js.eqb x id) eqn:E.
    + apply js_eqb_eq in E. subst x. split.
      * intros [_ H]. rewrite js_eqb_refl in H. discriminate.
      * intros H. contradiction.
    + split.
      * intros [H _]. exact H.
      * intros H. split; [exact H|].
        apply negb_true_iff. apply js_eqb_neq.
        apply js_eqb_neq in E. congruence.
  - assert (Hx : ~ In x l).
    { intros H. apply js_includes_In in H. congruence. }
    rewrite in_app_iff. simpl. destruct (Js.eqb x id) eqn:E.
    + apply js_eqb_eq in E. subst x. split.
      * intros _. exact Hx.
      * intros _. right. left. reflexivity.
    + apply js_eqb_neq in E. split.
      * intros [H|[H|[]]]; [exact H | contradiction].
      * intros H. left. exact H.
Qed.

Lemma toggle_NoDup (x : Js.str) (l : list Js.str) :
  NoDup l -> NoDup (toggle x l).
Proof.
  intros H. unfold toggle. destruct (Js.includes l x) eqn:Hin.
  - apply NoDup_filter. exact H.
  - apply NoDup_app; [exact H | repeat constructor; intros [] |].
    intros y Hy [E|[]]. subst y.
    apply js_includes_In in Hy. congruence.
Qed.

Lemma toggle_all_final (ids : list Js.str) (s : AppState) :
  final (toggle_all ids) s =
  mkApp (mkUi (expandedCategory (ui s))
              (fold_left (fun sel id => toggle id sel) ids (selected (ui s)))
              (form (ui s)) (submitting (ui s)) (success (ui s)) (error (ui s)))
        (backend s).
Proof.
  revert s. induction ids as [|id rest IH]; intros s.
  - destruct s as [[] ?]. reflexivity.
  - change (final (toggle_all (id :: rest)) s)
      with (final (toggle_all rest) (final (toggleService id) s)).
    rewrite IH. reflexivity.
Qed.

Lemma count_toggles_cons (id x : Js.str) (ids : list Js.str) :
  count_toggles id (x :: ids) =
  if Js.eqb x id then S (count_toggles id ids) else count_toggles id ids.
Proof. unfold count_toggles. simpl. destruct (Js.eqb x id); reflexivity. Qed.

(** After any toggles, membership of [id] has flipped as many times as
    [id] was toggled. *)
Lemma fold_toggle_parity (ids sel : list Js.str) (id : Js.str) :
  Js.includes (fold_left (fun sel x => toggle x sel) ids sel) id =
  xorb (Js.includes sel id) (Nat.odd (count_toggles id ids)).
Proof.
  revert sel. induction ids as [|x ids IH]; intros sel.
  - simpl. destruct (Js.includes sel id); reflexivity.
  - simpl fold_left. rewrite IH, count_toggles_cons.
    assert (Ht : Js.includes (toggle x sel) id =
                 if Js.eqb x id then negb (Js.includes sel id)
                 else Js.includes sel id).
    { pose proof (toggle_In x id sel) as HT.
      pose proof (js_includes_In sel id) as HS.
      pose proof (js_includes_In (toggle x sel) id) as HTS.
      destruct (Js.eqb x id);
        destruct (Js.includes sel id);
        destruct (Js.includes (toggle x sel) id); simpl; try reflexivity;
        exfalso; intuition congruence. }
    rewrite Ht. destruct (Js.eqb x id).
    + rewrite Nat.odd_succ, <- Nat.negb_odd.
      destruct (Js.includes sel id), (Nat.odd (count_toggles id ids));
        reflexivity.
    + reflexivity.
Qed.

Lemma fold_toggle_NoDup (ids sel : list Js.str) :
  NoDup sel -> NoDup (fold_left (fun sel x => toggle x sel) ids sel).
Proof.
  revert sel. induction ids as [|x ids IH]; intros sel H; simpl.
  - exact H.
  - apply IH. apply toggle_NoDup. exact H.
Qed.

End Toggle.

(** C6: starting from the empty selection, after any sequence of
    [toggleService] calls [isSelected id] is true exactly when [id] has been
    toggled an odd number of times, and the selection holds no id twice. *)
Theorem toggle_parity_and_no_duplicates :
  forall (ids : list Js.str) (s : App.AppState) (id : Js.str),
    App.selected (App.ui s) = [] ->
    App.isSelected (App.ui (Spec.final (Spec.toggle_all ids) s)) id
      = Nat.odd (Spec.count_toggles id ids)
    /\ NoDup (App.selected (App.ui (Spec.final (Spec.toggle_all ids) s))).
Proof.
  intros ids s id Hempty.
  rewrite toggle_all_final. unfold App.isSelected. simpl.
  rewrite Hempty. split.
  - rewrite fold_toggle_parity. reflexivity.
  - apply fold_toggle_NoDup. constructor.
Qed.

Lemma toggle_parity_witness :
  App.isSelected
    (App.ui (Spec.final
               (Spec.toggle_all [Js.lit "seo"; Js.lit "website"; Js.lit "seo"])
               Spec.initial_app))
    (Js.lit "website")
  = Nat.odd (Spec.count_toggles (Js.lit "website")
               [Js.lit "seo"; Js.lit "website"; Js.lit "seo"])
  /\ NoDup (App.selected
              (App.ui (Spec.final
                 (Spec.toggle_all [Js.lit "seo"; Js.lit "website"; Js.lit "seo"])
                 Spec.initial_app))).
Proof.
  apply (toggle_parity_and_no_duplicates
           [Js.lit "seo"; Js.lit "website"; Js.lit "seo"]
           Spec.initial_app (Js.lit "website")).
  reflexivity.
Defined.

(* ===================================================================== *)
(** ** Catalog lookup *)
(* ===================================================================== *)

Section Lookup.
Import Catalog App Spec.

Lemma title_in_services_none (l : list Service) (id : Js.str) :
  (forall s, In s l -> s_id s <> id) -> title_in_services l id = None.
Proof.
  induction l as [|s l IH]; intros H; simpl.
  - reflexivity.
  - destruct (Js.eqb (s_id s) id) eqn:E.
    + apply js_eqb_eq in E. exfalso. apply (H s); [left; reflexivity | exact E].
    + apply IH. intros s' Hs'. apply H. right. exact Hs'.
Qed.

Lemma title_in_categories_none (cats : list ServiceCategory) (id : Js.str) :
  (forall c s, In c cats -> In s (c_services c) -> s_id s <> id) ->
  title_in_categories cats id = None.
Proof.
  induction cats as [|c cats IH]; intros H; simpl.
  - reflexivity.
  - rewrite title_in_services_none.
    + apply IH. intros c' s Hc' Hs. apply (H c' s); [right; exact Hc' | exact Hs].
    + intros s Hs. apply (H c s); [left; reflexivity | exact Hs].
Qed.

(** [find] with an early exit and the explicit loop pick the same
    service. *)
Lemma find_title_in_services (l : list Service) (id : Js.str) :
  title_in_services l id =
  option_map s_title (find (fun s => Js.eqb (s_id s) id) l).
Proof.
  induction l as [|s l IH]; simpl.
  - reflexivity.
  - destruct (Js.eqb (s_id s) id); [reflexivity | exact IH].
Qed.

Lemma find_service_title (cats : list ServiceCategory) (id : Js.str) :
  title_in_categories cats id = option_map s_title (find_service cats id).
Proof.
  induction cats as [|c cats IH]; simpl.
  - reflexivity.
  - rewrite find_title_in_services.
    destruct (find (fun s => Js.eqb (s_id s) id) (c_services c));
      [reflexivity | exact IH].
Qed.

Lemma find_service_In (cats : list ServiceCategory) (id : Js.str) (s : Service) :
  find_service cats id = Some s -> In s (all_services cats).
Proof.
  induction cats as [|c cats IH]; simpl; intros H.
  - discriminate.
  - apply in_or_app.
    destruct (find (fun s => Js.eqb (s_id s) id) (c_services c)) eqn:F.
    + injection H as <-. left. apply (find_some _ _ F).
    + right. apply IH. exact H.
Qed.

(** Checked by evaluation over the 47 services of the catalog. *)
Lemma catalog_titles_resolve :
  forallb (fun s => Js.eqb (serviceTitleById (s_id s)) (s_title s))
          (all_services SERVICE_CATEGORIES) = true.
Proof. vm_compute. reflexivity. Qed.

Lemma catalog_titles_nonempty :
  forallb (fun s => Js.truthy (s_title s)) (all_services SERVICE_CATEGORIES)
  = true.
Proof. vm_compute. reflexivity. Qed.

Lemma catalog_size : List.length (all_services SERVICE_CATEGORIES) = 47.
Proof. reflexivity. Qed.

Lemma in_all_services (cats : list ServiceCategory) (s : Service) :
  In s (all_services cats) <-> exists c, In c cats /\ In s (c_services c).
Proof. unfold all_services. apply in_flat_map. Qed.

(** The three lookups of [src/App.tsx] agree on this catalog. *)
Lemma service_name_of_title (id : Js.str) :
  service_name_of id = serviceTitleById id.
Proof.
  unfold service_name_of, serviceTitleById.
  rewrite find_service_title.
  destruct (find_service SERVICE_CATEGORIES id) as [s|] eqn:F; simpl.
  - apply find_service_In in F.
    pose proof catalog_titles_nonempty as H.
    rewrite forallb_forall in H. unfold Js.or_else. rewrite (H s F).
    reflexivity.
  - reflexivity.
Qed.

Lemma email_title_of_title (id : Js.str) :
  email_title_of id = serviceTitleById id.
Proof.
  unfold email_title_of, serviceTitleById.
  rewrite find_service_title.
  destruct (find_service SERVICE_CATEGORIES id); reflexivity.
Qed.

End Lookup.

(** C7: [serviceTitleById] returns the catalog title of every service of
    the static catalog, and returns the id itself for an id that no service
    of the catalog has. *)
Theorem serviceTitleById_catalog_or_identity :
  (forall c s,
      In c Catalog.SERVICE_CATEGORIES -> In s (Catalog.c_services c) ->
      App.serviceTitleById (Catalog.s_id s) = Catalog.s_title s)
  /\ (forall id, ~ Spec.in_catalog id -> App.serviceTitleById id = id).
Proof.
  split.
  - intros c s Hc Hs.
    pose proof catalog_titles_resolve as H.
    rewrite forallb_forall in H.
    apply js_eqb_eq. apply H. apply in_all_services. exists c. auto.
  - intros id Hout. unfold App.serviceTitleById.
    rewrite title_in_categories_none; [reflexivity|].
    intros c s Hc Hs E. apply Hout. exists c, s. auto.
Qed.

Lemma serviceTitleById_witness :
  App.serviceTitleById (Js.lit "seo") = Js.lit "SEO & Listing Optimization"
  /\ App.serviceTitleById (Js.lit "unlisted") = Js.lit "unlisted".
Proof.
  split.
  - apply (proj1 serviceTitleById_catalog_or_identity
             (Catalog.cat "digital" "Digital Presence & Web"
                "Websites, ecommerce, SEO and catalogs."
                [ Catalog.svc "website" "Corporate Website Development";
                  Catalog.svc "ecommerce" "E-commerce Store Setup";
                  Catalog.svc "seo" "SEO & Listing Optimization";
                  Catalog.svc "landing" "Product Landing Pages";
                  Catalog.svc "catalog" "Digital Catalogs & Brochures" ])
             (Catalog.svc "seo" "SEO & Listing Optimization")).
    + simpl. do 4 right. left. reflexivity.
    + simpl. do 2 right. left. reflexivity.
  - apply (proj2 serviceTitleById_catalog_or_identity (Js.lit "unlisted")).
    intros [c [s [Hc [Hs E]]]].
    assert (H : forallb (fun s => negb (Js.eqb (Catalog.s_id s) (Js.lit "unlisted")))
                        (Catalog.all_services Catalog.SERVICE_CATEGORIES) = true)
      by (vm_compute; reflexivity).
    rewrite forallb_forall in H.
    assert (Hin : In s (Catalog.all_services Catalog.SERVICE_CATEGORIES))
      by (apply in_all_services; exists c; auto).
    apply H in Hin. rewrite E, js_eqb_refl in Hin. discriminate.
Defined.

(* ===================================================================== *)
(** ** Submission: the checks at the top *)
(* ===================================================================== *)

Section Checks.
Import Effect Backend App Spec.

Lemma submit_check_fails (u : UiState) :
  f_name (form u) = [] \/ f_email (form u) = [] \/ selected u = [] ->
  negb (Js.truthy (f_name (form u))) || negb (Js.truthy (f_email (form u)))
    || Nat.eqb (List.length (selected u)) 0 = true.
Proof.
  intros [H|[H|H]]; rewrite H; simpl.
  - reflexivity.
  - apply orb_true_iff. left. apply orb_true_r.
  - apply orb_true_r.
Qed.

Lemma submit_check_passes (u : UiState) :
  submittable u ->
  negb (Js.truthy (f_name (form u))) || negb (Js.truthy (f_email (form u)))
    || Nat.eqb (List.length (selected u)) 0 = false.
Proof.
  intros [Hn [He Hs]].
  destruct (f_name (form u)); [congruence|].
  destruct (f_email (form u)); [congruence|].
  destruct (selected u); [congruence|]. reflexivity.
Qed.

Lemma endpoint_check_fails (d : Api.QuoteRequestData) :
  Js.truthy_opt (Api.contact_field d Api.k_name) = false
  \/ Js.truthy_opt (Api.contact_field d Api.k_email) = false
  \/ Api.services_length d = 0 ->
  negb (Js.truthy_opt (Api.contact_field d Api.k_name))
    || negb (Js.truthy_opt (Api.contact_field d Api.k_email))
    || Nat.eqb (Api.services_length d) 0 = true.
Proof.
  intros [H|[H|H]]; rewrite H; simpl.
  - reflexivity.
  - apply orb_true_iff. left. apply orb_true_r.
  - apply orb_true_r.
Qed.

Lemma endpoint_check_passes (d : Api.QuoteRequestData) :
  acceptable d ->
  negb (Js.truthy_opt (Api.contact_field d Api.k_name))
    || negb (Js.truthy_opt (Api.contact_field d Api.k_email))
    || Nat.eqb (Api.services_length d) 0 = false.
Proof.
  intros [Hn [He Hs]]. rewrite Hn, He. simpl.
  apply Nat.eqb_neq. exact Hs.
Qed.

Lemma acceptable_services (d : Api.QuoteRequestData) :
  acceptable d ->
  Nat.ltb 0 (List.length (Api.services_of d)) = true.
Proof.
  intros [_ [_ Hs]]. unfold Api.services_length in Hs. unfold Api.services_of.
  destruct (Api.services d) as [l|]; [|congruence].
  apply Nat.ltb_lt. lia.
Qed.

Lemma submittable_selected (u : UiState) :
  submittable u -> Nat.ltb 0 (List.length (selected u)) = true.
Proof.
  intros [_ [_ Hs]]. destruct (selected u); [congruence|]. reflexivity.
Qed.

End Checks.

Lemma new_events_same (st : Backend.St) : Spec.new_events st st = [].
Proof. unfold Spec.new_events. apply skipn_all. Qed.

(** Unfolds the effect combinators of a run. *)
Ltac run_effects :=
  unfold Effect.bind, Effect.ret, Effect.throw, Effect.get, Effect.modify,
    Effect.try_catch, Effect.try_finally, Effect.lift, Effect.when,
    App.on_backend, App.modify_ui, App.setError, App.setSubmitting,
    App.setSuccess, App.setSelected, App.setForm,
    Backend.console_error, Backend.console_warn, Backend.emit,
    Backend.post_email; simpl.

(** C1: when the name is empty, the e-mail address is empty or nothing is
    selected, the submission returns normally with the validation message
    in the error state and leaves the database and the call log as they
    were, so no insert and no e-mail send is issued; the endpoint answers
    400 with its validation message, again without any call. *)
Theorem invalid_submission_makes_no_call :
  (forall (w : Backend.World) (s : App.AppState),
      App.f_name (App.form (App.ui s)) = []
      \/ App.f_email (App.form (App.ui s)) = []
      \/ App.selected (App.ui s) = [] ->
      App.handleSubmit w s =
      (Effect.Returned tt,
       App.mkApp (Spec.with_error (App.ui s) (Some App.MSG_REQUIRED))
                 (App.backend s))
      /\ existsb Backend.is_network_call
           (Spec.new_events (App.backend s)
              (App.backend (Spec.final (App.handleSubmit w) s))) = false)
  /\ (forall (w : Backend.World) (d : Api.QuoteRequestData) (st : Backend.St),
         Js.truthy_opt (Api.contact_field d Api.k_name) = false
         \/ Js.truthy_opt (Api.contact_field d Api.k_email) = false
         \/ Api.services_length d = 0 ->
         Api.handler w (Spec.post d) st =
         (Effect.Returned
            (Api.mkResponse true 400
               (Api.ErrorBody (Js.lit "Missing required fields"))),
          st)
         /\ existsb Backend.is_network_call
              (Spec.new_events st (Spec.final (Api.handler w (Spec.post d)) st))
            = false).
Proof.
  split.
  - intros w s H. apply submit_check_fails in H.
    assert (E : App.handleSubmit w s =
                (Effect.Returned tt,
                 App.mkApp (Spec.with_error (App.ui s) (Some App.MSG_REQUIRED))
                           (App.backend s))).
    { unfold App.handleSubmit. run_effects. rewrite H. reflexivity. }
    split; [exact E|]. unfold Spec.final. rewrite E.
    cbn [snd App.backend]. rewrite new_events_same. reflexivity.
  - intros w d st H. apply endpoint_check_fails in H.
    assert (E : Api.handler w (Spec.post d) st =
                (Effect.Returned
                   (Api.mkResponse true 400
                      (Api.ErrorBody (Js.lit "Missing required fields"))),
                 st)).
    { unfold Api.handler, Spec.post. run_effects. rewrite H. reflexivity. }
    split; [exact E|]. unfold Spec.final. rewrite E.
    cbn [snd]. rewrite new_events_same. reflexivity.
Qed.

(* ===================================================================== *)
(** ** The notification pipeline *)
(* ===================================================================== *)

Section Notify.
Import Effect Backend EmailService Spec.

Variable w : World.
Variable d : QuoteRequestData.
Variable st : Backend.St.

Lemma sendQuoteRequestEmails_invalid :
  valid_payload d = false ->
  sendQuoteRequestEmails w d st =
  (Returned
     (mkEmailResult false
        (Js.lit "Validation failed: "
           ++ Js.join (Js.lit ", ")
                (errors (validateQuoteRequestData (as_partial d))))),
   st).
Proof.
  unfold valid_payload. intros H. unfold sendQuoteRequestEmails.
  unfold try_catch. rewrite H. reflexivity.
Qed.

Lemma sendQuoteRequestEmails_valid :
  valid_payload d = true ->
  sendQuoteRequestEmails w d st =
  (Returned (combined_result w),
   mkSt (db st) (log st ++ email_events w d)).
Proof.
  unfold valid_payload. intros H. unfold sendQuoteRequestEmails.
  unfold try_catch at 1. rewrite H. cbn [negb].
  unfold sendQuoteRequestEmail, sendClientConfirmationEmail,
    combined_result, email_events.
  run_effects.
  destruct (admin_email_ok w), (client_email_ok w); simpl;
    repeat rewrite <- app_assoc; reflexivity.
Qed.

(** The notification never throws. *)
Lemma sendQuoteRequestEmails_returns :
  exists r st', sendQuoteRequestEmails w d st = (Returned r, st').
Proof.
  destruct (valid_payload d) eqn:V.
  - rewrite (sendQuoteRequestEmails_valid V). eauto.
  - rewrite (sendQuoteRequestEmails_invalid V). eauto.
Qed.

End Notify.

(* ===================================================================== *)
(** ** Browser-direct submission, case by case *)
(* ===================================================================== *)

Section HandleSubmit.
Import Effect Backend App Spec.

Variable w : World.
Variable s : AppState.
Hypothesis valid : submittable (ui s).

Let u := ui s.
Let row := request_insert w (form u).

Ltac enter_submit :=
  unfold handleSubmit; run_effects;
  rewrite (submit_check_passes valid);
  unfold insert_quote_request; run_effects.

Lemma handleSubmit_quote_error (detail : Js.str) :
  quote_insert w = DbError detail ->
  handleSubmit w s =
  (Returned tt,
   mkApp (aborted_ui u MSG_QUOTE_FAILED)
         (mkSt (db (backend s))
               (log (backend s)
                  ++ [InsertQuoteRequest row;
                      ConsoleError (Js.lit "Database error:");
                      ConsoleError MSG_QUOTE_FAILED]))).
Proof.
  intros Hq. enter_submit. rewrite Hq. simpl.
  unfold aborted_ui, u, row. repeat rewrite <- app_assoc. reflexivity.
Qed.

Lemma handleSubmit_quote_rejects (e : Exn) :
  quote_insert w = Rejects e ->
  handleSubmit w s =
  (Returned tt,
   mkApp (aborted_ui u (thrown_message e))
         (mkSt (db (backend s))
               (log (backend s)
                  ++ [InsertQuoteRequest row; ConsoleError (exn_text e)]))).
Proof.
  intros Hq. enter_submit. rewrite Hq. simpl.
  unfold aborted_ui, u, row, thrown_message.
  repeat rewrite <- app_assoc. reflexivity.
Qed.

Variable g : Generated.
Hypothesis quote_ok : quote_insert w = Data g.

Let stored := store_request g row.
Let rows := service_inserts (g_id g) (selected u).

Ltac enter_services :=
  enter_submit; rewrite quote_ok; simpl;
  rewrite (submittable_selected valid);
  unfold insert_quote_request_services; run_effects.

Lemma handleSubmit_services_error (detail : Js.str) :
  services_insert w = DbError detail ->
  handleSubmit w s =
  (Returned tt,
   mkApp (aborted_ui u MSG_SERVICES_FAILED)
         (mkSt (mkDb (quote_requests (db (backend s)) ++ [stored])
                     (quote_request_services (db (backend s))))
               (log (backend s)
                  ++ [InsertQuoteRequest row;
                      InsertQuoteRequestServices rows;
                      ConsoleError (Js.lit "Services insert error:");
                      ConsoleError MSG_SERVICES_FAILED]))).
Proof.
  intros Hs. enter_services. rewrite Hs. simpl.
  unfold aborted_ui, u, row, stored, rows.
  repeat rewrite <- app_assoc. reflexivity.
Qed.

Lemma handleSubmit_services_rejects (e : Exn) :
  services_insert w = Rejects e ->
  handleSubmit w s =
  (Returned tt,
   mkApp (aborted_ui u (thrown_message e))
         (mkSt (mkDb (quote_requests (db (backend s)) ++ [stored])
                     (quote_request_services (db (backend s))))
               (log (backend s)
                  ++ [InsertQuoteRequest row;
                      InsertQuoteRequestServices rows;
                      ConsoleError (exn_text e)]))).
Proof.
  intros Hs. enter_services. rewrite Hs. simpl.
  unfold aborted_ui, u, row, stored, rows, thrown_message.
  repeat rewrite <- app_assoc. reflexivity.
Qed.

(** With both inserts done the submission completes, whatever the
    notification step reports. *)
Lemma handleSubmit_persisted (x : unit) :
  services_insert w = Data x ->
  handleSubmit w s =
  (Returned tt,
   mkApp (completed_ui u)
         (mkSt (db (persisted w u g (backend s)))
               (log (persisted w u g (backend s))
                  ++ notification_events w
                       (email_data w (form u) (selected u))))).
Proof.
  intros Hs. enter_services. rewrite Hs. simpl.
  unfold notification_events. fold u.
  destruct (valid_payload (email_data w (form u) (selected u))) eqn:V.
  - rewrite (@sendQuoteRequestEmails_valid w _ _ V).
    unfold combined_result, persisted, completed_ui, email_events.
    destruct (admin_email_ok w), (client_email_ok w); simpl;
      repeat rewrite <- app_assoc; simpl; rewrite ?app_nil_r; reflexivity.
  - rewrite (@sendQuoteRequestEmails_invalid w _ _ V).
    unfold persisted, completed_ui. simpl.
    repeat rewrite <- app_assoc. reflexivity.
Qed.

End HandleSubmit.

(* ===================================================================== *)
(** ** Server-mediated submission, case by case *)
(* ===================================================================== *)

Section Handler.
Import Effect Backend Api Spec.

Variable w : World.
Variable d : QuoteRequestData.
Variable st : Backend.St.
Hypothesis valid : acceptable d.

Let row := request_insert d.

Ltac enter_handler :=
  unfold handler, post; run_effects;
  rewrite (endpoint_check_passes valid);
  unfold insert_quote_request; run_effects.

Lemma handler_quote_error (detail : Js.str) :
  quote_insert w = DbError detail ->
  handler w (post d) st =
  (Returned (refused 500 "Failed to save quote request"),
   mkSt (db st)
        (log st ++ [InsertQuoteRequest row;
                    ConsoleError (Js.lit "Database error:")])).
Proof.
  intros Hq. enter_handler. rewrite Hq. simpl.
  unfold row. repeat rewrite <- app_assoc. reflexivity.
Qed.

Lemma handler_quote_rejects (e : Exn) :
  quote_insert w = Rejects e ->
  handler w (post d) st =
  (Returned (refused 500 "Internal server error"),
   mkSt (db st)
        (log st ++ [InsertQuoteRequest row;
                    ConsoleError (Js.lit "API error:")])).
Proof.
  intros Hq. enter_handler. rewrite Hq. simpl.
  unfold row. repeat rewrite <- app_assoc. reflexivity.
Qed.

Variable g : Generated.
Hypothesis quote_ok : quote_insert w = Data g.

Let rows := service_inserts (g_id g) (services_of d).

Ltac enter_handler_services :=
  enter_handler; rewrite quote_ok; simpl;
  rewrite (acceptable_services valid);
  unfold insert_quote_request_services; run_effects.

Ltac finish_handler :=
  unfold sendEmail, server_email_events, accepted, row, rows; run_effects;
  destruct (admin_email_ok w), (client_email_ok w); simpl;
  repeat rewrite <- app_assoc; simpl; rewrite ?app_nil_r; reflexivity.

(** A failed insert of the service rows is logged and the endpoint goes
    on to the e-mails and to its success answer. *)
Lemma handler_services_error (detail : Js.str) :
  services_insert w = DbError detail ->
  handler w (post d) st =
  (Returned (accepted (g_request_number g)),
   mkSt (mkDb (quote_requests (db st) ++ [store_request g row])
              (quote_request_services (db st)))
        (log st
           ++ [InsertQuoteRequest row;
               InsertQuoteRequestServices rows;
               ConsoleError (Js.lit "Services insert error:")]
           ++ server_email_events w d (g_request_number g))).
Proof.
  intros Hs. enter_handler_services. rewrite Hs. simpl. finish_handler.
Qed.

Lemma handler_services_rejects (e : Exn) :
  services_insert w = Rejects e ->
  handler w (post d) st =
  (Returned (refused 500 "Internal server error"),
   mkSt (mkDb (quote_requests (db st) ++ [store_request g row])
              (quote_request_services (db st)))
        (log st
           ++ [InsertQuoteRequest row;
               InsertQuoteRequestServices rows;
               ConsoleError (Js.lit "API error:")])).
Proof.
  intros Hs. enter_handler_services. rewrite Hs. simpl.
  unfold row, rows. repeat rewrite <- app_assoc. reflexivity.
Qed.

Lemma handler_persisted (x : unit) :
  services_insert w = Data x ->
  handler w (post d) st =
  (Returned (accepted (g_request_number g)),
   mkSt (mkDb (quote_requests (db st) ++ [store_request g row])
              (quote_request_services (db st) ++ rows))
        (log st
           ++ [InsertQuoteRequest row; InsertQuoteRequestServices rows]
           ++ server_email_events w d (g_request_number g))).
Proof.
  intros Hs. enter_handler_services. rewrite Hs. simpl. finish_handler.
Qed.

End Handler.

(* ===================================================================== *)
(** ** Log bookkeeping *)
(* ===================================================================== *)

Section Events.
Import Backend Spec.

Lemma new_events_app (st : Backend.St) (d : Db) (evs : list Event) :
  new_events st (mkSt d (log st ++ evs)) = evs.
Proof.
  unfold new_events. simpl. rewrite skipn_app, skipn_all, Nat.sub_diag.
  reflexivity.
Qed.

Lemma email_events_no_insert (w : World) (d : EmailService.QuoteRequestData) :
  filter is_db_insert (email_events w d) = [].
Proof.
  unfold email_events.
  destruct (admin_email_ok w), (client_email_ok w); reflexivity.
Qed.

Lemma notification_events_no_insert
      (w : World) (d : EmailService.QuoteRequestData) :
  filter is_db_insert (notification_events w d) = [].
Proof.
  unfold notification_events. destruct (valid_payload d); [|reflexivity].
  rewrite filter_app, email_events_no_insert.
  destruct (admin_email_ok w); reflexivity.
Qed.

Lemma notification_events_invalid
      (w : World) (d : EmailService.QuoteRequestData) :
  valid_payload d = false ->
  notification_events w d = [ConsoleWarn (Js.lit "Email sending failed:")].
Proof. unfold notification_events. intros ->. reflexivity. Qed.

Lemma notification_events_warn
      (w : World) (d : EmailService.QuoteRequestData) :
  admin_email_ok w = false ->
  In (ConsoleWarn (Js.lit "Email sending failed:")) (notification_events w d).
Proof.
  intros Ha. unfold notification_events. rewrite Ha.
  destruct (valid_payload d).
  - apply in_or_app. right. left. reflexivity.
  - left. reflexivity.
Qed.

End Events.

(* ===================================================================== *)
(** ** Validation of the notification payload *)
(* ===================================================================== *)

Section Validation.
Import EmailService Spec.

Lemma blank_spec (s : Js.str) :
  blank (Some s) = true <-> Js.trim s = [].
Proof.
  unfold blank. destruct s as [|c s].
  - simpl. split; reflexivity.
  - cbn [Js.truthy negb orb]. apply length_zero_nil.
Qed.

Lemma valid_payload_spec (d : QuoteRequestData) :
  valid_payload d = true <->
  blank (Some (q_name d)) = false
  /\ blank (Some (q_email d)) = false
  /\ Regex.test EMAIL_PATTERN (q_email d) = true
  /\ q_selectedServices d <> [].
Proof.
  unfold valid_payload, validateQuoteRequestData, as_partial.
  cbn [p_name p_email p_selectedServices isValid].
  destruct (blank (Some (q_name d)));
    destruct (blank (Some (q_email d)));
    destruct (Regex.test EMAIL_PATTERN (q_email d));
    destruct (q_selectedServices d); simpl;
    split; intros H; try discriminate; try reflexivity;
    try (repeat split; congruence);
    try (destruct H as [? [? [? ?]]]; congruence).
Qed.

Lemma invalid_payload (d : QuoteRequestData) :
  q_name d = [] \/ q_selectedServices d = []
  \/ Regex.test EMAIL_PATTERN (q_email d) = false ->
  valid_payload d = false.
Proof.
  intros H. destruct (valid_payload d) eqn:V; [|reflexivity].
  apply valid_payload_spec in V. destruct V as [Hn [_ [Hr Hs]]].
  destruct H as [H|[H|H]].
  - rewrite H in Hn. discriminate.
  - contradiction.
  - congruence.
Qed.

Lemma validation_errors_nonempty (d : QuoteRequestData) :
  valid_payload d = false ->
  errors (validateQuoteRequestData (as_partial d)) <> [].
Proof.
  unfold valid_payload. intros H E.
  change (Nat.eqb (List.length
                     (errors (validateQuoteRequestData (as_partial d)))) 0
          = false) in H.
  rewrite E in H. discriminate.
Qed.

End Validation.

(* ===================================================================== *)
(** ** The submission contract *)
(* ===================================================================== *)

(** C2: when the insert of the request record fails, the insert of the
    service rows is never issued and the table of service rows is as it
    was; the browser shows exactly "Failed to save quote request" and the
    endpoint answers with that same string, whatever the database error
    text was. *)
Theorem failed_request_insert_fixed_message :
  forall (w : Backend.World) (detail : Js.str),
    Backend.quote_insert w = Backend.DbError detail ->
    (forall s : App.AppState,
        Spec.submittable (App.ui s) ->
        App.handleSubmit w s =
        (Effect.Returned tt,
         App.mkApp
           (Spec.aborted_ui (App.ui s) (Js.lit "Failed to save quote request"))
           (Backend.mkSt
              (Backend.db (App.backend s))
              (Backend.log (App.backend s)
                 ++ [Backend.InsertQuoteRequest
                       (App.request_insert w (App.form (App.ui s)));
                     Backend.ConsoleError (Js.lit "Database error:");
                     Backend.ConsoleError
                       (Js.lit "Failed to save quote request")]))))
    /\ (forall (d : Api.QuoteRequestData) (st : Backend.St),
           Spec.acceptable d ->
           Api.handler w (Spec.post d) st =
           (Effect.Returned
              (Api.mkResponse true 500
                 (Api.ErrorBody (Js.lit "Failed to save quote request"))),
            Backend.mkSt
              (Backend.db st)
              (Backend.log st
                 ++ [Backend.InsertQuoteRequest (Api.request_insert d);
                     Backend.ConsoleError (Js.lit "Database error:")]))).
Proof.
  intros w detail Hq. split.
  - intros s Hs. apply handleSubmit_quote_error with (detail := detail); assumption.
  - intros d st Hd. apply handler_quote_error with (detail := detail); assumption.
Qed.

Lemma failed_request_insert_witness :
  App.handleSubmit
    (Spec.world_of (Backend.DbError (Js.lit "duplicate key value"))
                   (Backend.Data tt) true true)
    (Spec.jane_app [Js.lit "seo"] Spec.jane_form)
  = (Effect.Returned tt,
     App.mkApp
       (App.mkUi None [Js.lit "seo"] Spec.jane_form false None
                 (Some (Js.lit "Failed to save quote request")))
       (Backend.mkSt
          (Backend.mkDb [] [])
          [Backend.InsertQuoteRequest
             (App.request_insert
                (Spec.world_of (Backend.DbError (Js.lit "duplicate key value"))
                               (Backend.Data tt) true true)
                Spec.jane_form);
           Backend.ConsoleError (Js.lit "Database error:");
           Backend.ConsoleError (Js.lit "Failed to save quote request")])).
Proof.
  apply (proj1 (failed_request_insert_fixed_message
                  (Spec.world_of (Backend.DbError (Js.lit "duplicate key value"))
                                 (Backend.Data tt) true true)
                  (detail := Js.lit "duplicate key value") eq_refl)
               (Spec.jane_app [Js.lit "seo"] Spec.jane_form)).
  unfold Spec.submittable. simpl. repeat split; discriminate.
Defined.

(** C3: when both inserts succeed and both e-mail sends fail, the
    submission still completes: the success message is shown, the error
    state stays empty, the selection is emptied and the form is reset; the
    failure only appears in the log, as a warning.  The endpoint likewise
    answers 200 with its success body. *)
Theorem failed_emails_still_succeed :
  forall (w : Backend.World) (g : Backend.Generated) (x : unit),
    Backend.quote_insert w = Backend.Data g ->
    Backend.services_insert w = Backend.Data x ->
    Backend.admin_email_ok w = false ->
    Backend.client_email_ok w = false ->
    (forall s : App.AppState,
        Spec.submittable (App.ui s) ->
        Spec.result (App.handleSubmit w) s = Effect.Returned tt
        /\ App.ui (Spec.final (App.handleSubmit w) s) =
           App.mkUi (App.expandedCategory (App.ui s)) [] App.empty_form false
             (Some (Js.lit
                "Request sent successfully. Our team will contact you shortly."))
             None
        /\ In (Backend.ConsoleWarn (Js.lit "Email sending failed:"))
              (Spec.new_events (App.backend s)
                 (App.backend (Spec.final (App.handleSubmit w) s))))
    /\ (forall (d : Api.QuoteRequestData) (st : Backend.St),
           Spec.acceptable d ->
           Spec.result (Api.handler w (Spec.post d)) st =
           Effect.Returned
             (Api.mkResponse true 200
                (Api.SuccessBody (Backend.g_request_number g)
                   (Js.lit "Quote request submitted successfully")))
           /\ In (Backend.ConsoleError (Js.lit "Email sending error:"))
                 (Spec.new_events st (Spec.final (Api.handler w (Spec.post d)) st))).
Proof.
  intros w g x Hq Hv Ha Hc. split.
  - intros s Hs. unfold Spec.result, Spec.final.
    rewrite (@handleSubmit_persisted w s Hs g Hq x Hv).
    cbn [fst snd App.ui App.backend].
    split; [reflexivity|]. split; [reflexivity|].
    unfold Spec.persisted. cbn [Backend.log Backend.db]. rewrite <- app_assoc.
    rewrite new_events_app. apply in_or_app. right.
    apply notification_events_warn. exact Ha.
  - intros d st Hd. unfold Spec.result, Spec.final.
    rewrite (@handler_persisted w d st Hd g Hq x Hv).
    cbn [fst snd]. split; [reflexivity|].
    rewrite new_events_app. apply in_or_app. right.
    unfold Spec.server_email_events. rewrite Ha. simpl. auto.
Qed.

Lemma failed_emails_witness :
  Spec.result
    (App.handleSubmit
       (Spec.world_of (Backend.Data Spec.generated) (Backend.Data tt) false false))
    (Spec.jane_app [Js.lit "seo"] Spec.jane_form)
  = Effect.Returned tt
  /\ App.ui (Spec.final
       (App.handleSubmit
          (Spec.world_of (Backend.Data Spec.generated) (Backend.Data tt)
                         false false))
       (Spec.jane_app [Js.lit "seo"] Spec.jane_form))
     = App.mkUi None [] App.empty_form false
         (Some (Js.lit
            "Request sent successfully. Our team will contact you shortly."))
         None.
Proof.
  destruct (proj1 (failed_emails_still_succeed
                     (Spec.world_of (Backend.Data Spec.generated)
                                    (Backend.Data tt) false false)
                     (g := Spec.generated) (x := tt)
                     eq_refl eq_refl eq_refl eq_refl)
                  (Spec.jane_app [Js.lit "seo"] Spec.jane_form))
    as [H1 [H2 _]].
  - unfold Spec.submittable. simpl. repeat split; discriminate.
  - split; [exact H1 | exact H2].
Defined.

(** C4: a submission with a name, an e-mail address and a non-empty
    selection whose two inserts succeed issues exactly one insert of one
    request row, with status "pending", and exactly one insert of the
    service rows, one row per selected id in order, each named by the
    catalog title of its id; "seo" is titled "SEO & Listing Optimization"
    and an id that is not in the catalog keeps its raw id as the name. *)
Theorem successful_submission_rows :
  forall (w : Backend.World) (s : App.AppState)
         (g : Backend.Generated) (x : unit),
    Spec.submittable (App.ui s) ->
    Backend.quote_insert w = Backend.Data g ->
    Backend.services_insert w = Backend.Data x ->
    let s' := Spec.final (App.handleSubmit w) s in
    let row := App.request_insert w (App.form (App.ui s)) in
    let rows :=
      map (fun id =>
             Backend.mkServiceInsert (Backend.g_id g) (App.serviceTitleById id)
                                     None None None)
          (App.selected (App.ui s)) in
    Backend.quote_requests (Backend.db (App.backend s')) =
      Backend.quote_requests (Backend.db (App.backend s))
        ++ [Backend.store_request g row]
    /\ Backend.r_status row = Js.lit "pending"
    /\ Backend.quote_request_services (Backend.db (App.backend s')) =
         Backend.quote_request_services (Backend.db (App.backend s)) ++ rows
    /\ List.length rows = List.length (App.selected (App.ui s))
    /\ filter Backend.is_db_insert
         (Spec.new_events (App.backend s) (App.backend s')) =
       [Backend.InsertQuoteRequest row; Backend.InsertQuoteRequestServices rows]
    /\ App.serviceTitleById (Js.lit "seo") = Js.lit "SEO & Listing Optimization"
    /\ (forall id, ~ Spec.in_catalog id -> App.serviceTitleById id = id).
Proof.
  intros w s g x Hs Hq Hv s' row rows. subst s'. unfold Spec.final.
  rewrite (@handleSubmit_persisted w s Hs g Hq x Hv).
  cbn [fst snd App.ui App.backend Backend.db Backend.log].
  assert (Hrows : App.service_inserts (Backend.g_id g) (App.selected (App.ui s))
                  = rows).
  { unfold App.service_inserts. subst rows. apply map_ext.
    intros id. rewrite service_name_of_title. reflexivity. }
  unfold Spec.persisted.
  cbn [Backend.db Backend.log Backend.quote_requests
       Backend.quote_request_services].
  rewrite Hrows. repeat split.
  - subst rows. apply length_map.
  - rewrite <- app_assoc, new_events_app, filter_app,
      notification_events_no_insert. reflexivity.
  - intros id Hout. unfold App.serviceTitleById.
    rewrite title_in_categories_none; [reflexivity|].
    intros c sv Hc Hin E. apply Hout. exists c, sv. auto.
Qed.

Lemma successful_submission_witness :
  Backend.quote_request_services
    (Backend.db (App.backend
       (Spec.final
          (App.handleSubmit
             (Spec.world_of (Backend.Data Spec.generated) (Backend.Data tt)
                            true true))
          (Spec.jane_app [Js.lit "seo"] Spec.jane_form))))
  = [Backend.mkServiceInsert 1 (App.serviceTitleById (Js.lit "seo"))
                             None None None]
  /\ App.serviceTitleById (Js.lit "seo") = Js.lit "SEO & Listing Optimization".
Proof.
  destruct (@successful_submission_rows
              (Spec.world_of (Backend.Data Spec.generated) (Backend.Data tt)
                             true true)
              (Spec.jane_app [Js.lit "seo"] Spec.jane_form)
              Spec.generated tt)
    as [_ [_ [H [_ [_ [Hseo _]]]]]].
  - unfold Spec.submittable. simpl. repeat split; discriminate.
  - reflexivity.
  - reflexivity.
  - split; [exact H | exact Hseo].
Defined.

(** C5: for a payload that passes validation, so that both sends are
    attempted, [sendQuoteRequestEmails] returns [success = true] when both
    sends succeed, [success = true] with the message that the client
    confirmation failed when only the admin send succeeds, and
    [success = false] when the admin send fails. *)
Theorem combined_email_result :
  forall (w : Backend.World) (d : EmailService.QuoteRequestData)
         (st : Backend.St),
    Spec.valid_payload d = true ->
    (Backend.admin_email_ok w = true -> Backend.client_email_ok w = true ->
     Spec.result (EmailService.sendQuoteRequestEmails w d) st =
     Effect.Returned
       (EmailService.mkEmailResult true
          (Js.lit "Quote request emails sent successfully")))
    /\ (Backend.admin_email_ok w = true -> Backend.client_email_ok w = false ->
        Spec.result (EmailService.sendQuoteRequestEmails w d) st =
        Effect.Returned
          (EmailService.mkEmailResult true
             (Js.lit "Admin notification sent, but client confirmation failed")))
    /\ (Backend.admin_email_ok w = false ->
        Spec.result (EmailService.sendQuoteRequestEmails w d) st =
        Effect.Returned
          (EmailService.mkEmailResult false
             (Js.lit "Failed to send quote request emails"))).
Proof.
  intros w d st V. unfold Spec.result.
  rewrite (@sendQuoteRequestEmails_valid w d st V).
  cbn [fst]. unfold Spec.combined_result.
  repeat split.
  - intros -> ->. reflexivity.
  - intros -> ->. reflexivity.
  - intros ->. reflexivity.
Qed.

Lemma combined_email_witness :
  Spec.result
    (EmailService.sendQuoteRequestEmails
       (Spec.world_of (Backend.Data Spec.generated) (Backend.Data tt) true false)
       (App.email_data
          (Spec.world_of (Backend.Data Spec.generated) (Backend.Data tt)
                         true false)
          Spec.jane_form [Js.lit "seo"]))
    Spec.empty_backend
  = Effect.Returned
      (EmailService.mkEmailResult true
         (Js.lit "Admin notification sent, but client confirmation failed")).
Proof.
  apply (proj1 (proj2
    (@combined_email_result
       (Spec.world_of (Backend.Data Spec.generated) (Backend.Data tt) true false)
       (App.email_data
          (Spec.world_of (Backend.Data Spec.generated) (Backend.Data tt)
                         true false)
          Spec.jane_form [Js.lit "seo"])
       Spec.empty_backend
       ltac:(vm_compute; reflexivity)))).
  - reflexivity.
  - reflexivity.
Defined.

(** C8, on the endpoint: a request whose service rows fail to insert is
    answered 200 with the success body; the failure is only logged, no
    service row is stored and the e-mails are still sent.  (The
    browser-direct path aborts with "Failed to save selected services":
    [handleSubmit_services_error].) *)
Theorem endpoint_accepts_after_failed_service_rows :
  let w := Spec.world_of (Backend.Data Spec.generated)
                         (Backend.DbError (Js.lit "permission denied"))
                         true true in
  let st := Spec.final (Api.handler w (Spec.post Spec.jane_body))
                       Spec.empty_backend in
  Spec.result (Api.handler w (Spec.post Spec.jane_body)) Spec.empty_backend
    = Effect.Returned
        (Api.mkResponse true 200
           (Api.SuccessBody (Js.lit "QR2024010001")
              (Js.lit "Quote request submitted successfully")))
  /\ Backend.quote_request_services (Backend.db st) = []
  /\ List.length (Backend.quote_requests (Backend.db st)) = 1
  /\ Spec.new_events Spec.empty_backend st =
     [Backend.InsertQuoteRequest (Api.request_insert Spec.jane_body);
      Backend.InsertQuoteRequestServices
        (Api.service_inserts 1 (Api.services_of Spec.jane_body));
      Backend.ConsoleError (Js.lit "Services insert error:");
      Backend.PostEmail (Js.lit "admin@example.com")
        (Js.lit "New Quote Request - QR2024010001") false;
      Backend.PostEmail (Js.lit "jane@x.com")
        (Js.lit "Quote Request Received - QR2024010001") false].
Proof. vm_compute. repeat split. Qed.

(** C9: a submission that aborts, because an insert answers with an error
    or because its promise rejects, returns normally and leaves the
    selection and the form as they were; the error message is set, the
    submitting flag is back to false, and nothing else of the component
    state differs. *)
Theorem aborted_submission_keeps_selection_and_form :
  forall (w : Backend.World) (s : App.AppState) (m : Js.str),
    Spec.submittable (App.ui s) ->
    Spec.abort_message w = Some m ->
    let s' := Spec.final (App.handleSubmit w) s in
    Spec.result (App.handleSubmit w) s = Effect.Returned tt
    /\ App.selected (App.ui s') = App.selected (App.ui s)
    /\ App.form (App.ui s') = App.form (App.ui s)
    /\ App.error (App.ui s') = Some m
    /\ (App.submitting (App.ui s) = false ->
        App.ui s' = Spec.with_error (App.ui s) (Some m)).
Proof.
  intros w s m Hs Hm s'.
  assert (H : Spec.result (App.handleSubmit w) s = Effect.Returned tt
              /\ App.ui s' = Spec.aborted_ui (App.ui s) m).
  { subst s'. unfold Spec.abort_message in Hm. unfold Spec.result, Spec.final.
    destruct (Backend.quote_insert w) as [g|detail|e] eqn:Hq.
    - destruct (Backend.services_insert w) as [x|detail|e] eqn:Hv.
      + discriminate.
      + injection Hm as <-.
        rewrite (@handleSubmit_services_error w s Hs g Hq detail Hv).
        split; reflexivity.
      + injection Hm as <-.
        rewrite (@handleSubmit_services_rejects w s Hs g Hq e Hv).
        split; reflexivity.
    - injection Hm as <-.
      rewrite (@handleSubmit_quote_error w s Hs detail Hq). split; reflexivity.
    - injection Hm as <-.
      rewrite (@handleSubmit_quote_rejects w s Hs e Hq). split; reflexivity. }
  destruct H as [Hr Hu]. rewrite Hu. repeat split; try assumption.
  intros Hsub. unfold Spec.aborted_ui, Spec.with_error. rewrite Hsub.
  reflexivity.
Qed.

Lemma aborted_submission_witness :
  App.selected
    (App.ui (Spec.final
       (App.handleSubmit
          (Spec.world_of (Backend.Data Spec.generated)
                         (Backend.Rejects (Effect.ErrorObj (Js.lit "Failed to fetch")))
                         true true))
       (Spec.jane_app [Js.lit "market-research"; Js.lit "website"] Spec.jane_form)))
  = [Js.lit "market-research"; Js.lit "website"]
  /\ App.form
       (App.ui (Spec.final
          (App.handleSubmit
             (Spec.world_of (Backend.Data Spec.generated)
                            (Backend.Rejects (Effect.ErrorObj (Js.lit "Failed to fetch")))
                            true true))
          (Spec.jane_app [Js.lit "market-research"; Js.lit "website"]
                         Spec.jane_form)))
     = Spec.jane_form.
Proof.
  destruct (@aborted_submission_keeps_selection_and_form
              (Spec.world_of (Backend.Data Spec.generated)
                             (Backend.Rejects (Effect.ErrorObj (Js.lit "Failed to fetch")))
                             true true)
              (Spec.jane_app [Js.lit "market-research"; Js.lit "website"]
                             Spec.jane_form)
              (Js.lit "Failed to fetch"))
    as [_ [Hsel [Hform _]]].
  - unfold Spec.submittable. simpl. repeat split; discriminate.
  - reflexivity.
  - split; [exact Hsel | exact Hform].
Defined.

(** C10: [sendQuoteRequestEmails] validates its payload again.  A payload
    with an empty name, an empty list of services or an e-mail address
    that the pattern rejects gets [success = false] with a message that
    starts "Validation failed: " and lists at least one error, and nothing
    is sent or logged.  Hence a submission whose address is not empty but
    fails the pattern stores its rows, shows success, and attempts no
    e-mail at all. *)
Theorem notification_revalidates_payload :
  (forall (w : Backend.World) (d : EmailService.QuoteRequestData)
          (st : Backend.St),
      EmailService.q_name d = []
      \/ EmailService.q_selectedServices d = []
      \/ Regex.test EmailService.EMAIL_PATTERN (EmailService.q_email d) = false ->
      let errs :=
        EmailService.errors
          (EmailService.validateQuoteRequestData (EmailService.as_partial d)) in
      EmailService.sendQuoteRequestEmails w d st =
      (Effect.Returned
         (EmailService.mkEmailResult false
            (Js.lit "Validation failed: " ++ Js.join (Js.lit ", ") errs)),
       st)
      /\ errs <> [])
  /\ (forall (w : Backend.World) (s : App.AppState)
             (g : Backend.Generated) (x : unit),
         Spec.submittable (App.ui s) ->
         Regex.test EmailService.EMAIL_PATTERN
           (App.f_email (App.form (App.ui s))) = false ->
         Backend.quote_insert w = Backend.Data g ->
         Backend.services_insert w = Backend.Data x ->
         let s' := Spec.final (App.handleSubmit w) s in
         Backend.db (App.backend s') =
           Backend.db (Spec.persisted w (App.ui s) g (App.backend s))
         /\ existsb Backend.is_email_send
              (Spec.new_events (App.backend s) (App.backend s')) = false
         /\ App.success (App.ui s') = Some App.MSG_SENT
         /\ App.error (App.ui s') = None).
Proof.
  split.
  - intros w d st H errs. apply invalid_payload in H. split.
    + apply sendQuoteRequestEmails_invalid. exact H.
    + apply validation_errors_nonempty. exact H.
  - intros w s g x Hs Hre Hq Hv s'. subst s'. unfold Spec.final.
    rewrite (@handleSubmit_persisted w s Hs g Hq x Hv).
    cbn [fst snd App.ui App.backend Backend.db Backend.log].
    rewrite notification_events_invalid.
    + unfold Spec.persisted. cbn [Backend.db Backend.log].
      rewrite <- app_assoc, new_events_app.
      repeat split.
    + apply invalid_payload. right. right. exact Hre.
Qed.

Lemma notification_revalidates_witness :
  existsb Backend.is_email_send
    (Spec.new_events Spec.empty_backend
       (App.backend
          (Spec.final
             (App.handleSubmit
                (Spec.world_of (Backend.Data Spec.generated) (Backend.Data tt)
                               true true))
             (Spec.jane_app [Js.lit "seo"]
                (App.mkForm (Js.lit "Jane Doe") [] (Js.lit "jane.x.com") []
                            [] [] [])))))
  = false.
Proof.
  destruct (proj2 notification_revalidates_payload
              (Spec.world_of (Backend.Data Spec.generated) (Backend.Data tt)
                             true true)
              (Spec.jane_app [Js.lit "seo"]
                 (App.mkForm (Js.lit "Jane Doe") [] (Js.lit "jane.x.com") []
                             [] [] []))
              Spec.generated tt)
    as [_ [H _]].
  - unfold Spec.submittable. simpl. repeat split; discriminate.
  - vm_compute. reflexivity.
  - reflexivity.
  - reflexivity.
  - exact H.
Defined.

Lemma invalid_submission_witness :
  App.handleSubmit
    (Spec.world_of (Backend.Data Spec.generated) (Backend.Data tt) true true)
    (Spec.jane_app [] Spec.jane_form)
  = (Effect.Returned tt,
     App.mkApp
       (Spec.with_error (App.ui (Spec.jane_app [] Spec.jane_form))
                        (Some App.MSG_REQUIRED))
       Spec.empty_backend).
Proof.
  apply (proj1 (proj1 invalid_submission_makes_no_call
                  (Spec.world_of (Backend.Data Spec.generated) (Backend.Data tt)
                                 true true)
                  (Spec.jane_app [] Spec.jane_form)
                  (or_intror (or_intror eq_refl)))).
Defined.

(** The end-to-end scenario: Jane Doe selects market research and the
    corporate website, and everything goes through. *)
Example end_to_end_scenario :
  let w := Spec.world_of (Backend.Data Spec.generated) (Backend.Data tt)
                         true true in
  let s' := Spec.final (App.handleSubmit w)
              (Spec.jane_app [Js.lit "market-research"; Js.lit "website"]
                             Spec.jane_form) in
  map Backend.v_service_name
      (Backend.quote_request_services (Backend.db (App.backend s')))
  = [Js.lit "Market Research & Consumer Insights";
     Js.lit "Corporate Website Development"]
  /\ List.length (Backend.quote_requests (Backend.db (App.backend s'))) = 1
  /\ App.selected (App.ui s') = []
  /\ App.form (App.ui s') = App.empty_form
  /\ filter Backend.is_email_send
       (Spec.new_events Spec.empty_backend (App.backend s'))
     = [Backend.PostEmail (Js.lit "admin@example.com")
          (Js.lit "New Quote Request - Jane Doe") true;
        Backend.PostEmail (Js.lit "jane@x.com")
          (Js.lit "Quote Request Received - OneShopCentrale") false].
Proof. vm_compute. repeat split. Qed.

(* ===================================================================== *)
(** ** Form editing *)
(* ===================================================================== *)

Section FormEditing.
Import Effect App FormState Spec.

Ltac split_keys :=
  repeat match goal with
         | |- context [Js.eqb ?a (Js.lit ?k)] =>
             let E := fresh "E" in
             destruct (Js.eqb a (Js.lit k)) eqn:E;
             [ apply js_eqb_eq in E; try subst a | apply js_eqb_neq in E ]
         end.

(** Reading back after a merge: the merged key holds the new value, any
    other key what it held. *)
Lemma read_merge (f : ContactForm) (name value other : Js.str) :
  read (merge f name value) other =
  if Js.eqb name other
  then match read f name with Some _ => Some value | None => None end
  else read f other.
Proof.
  destruct (Js.eqb name other) eqn:Eno.
  - apply js_eqb_eq in Eno. subst other.
    unfold merge, read. split_keys; try reflexivity; try discriminate.
  - apply js_eqb_neq in Eno.
    unfold merge. split_keys; unfold read; simpl; split_keys;
      try reflexivity; try discriminate; try congruence.
Qed.

Lemma handleChange_final (name value : Js.str) (s : AppState) :
  final (handleChange name value) s =
  mkApp (mkUi (expandedCategory (ui s)) (selected (ui s))
              (merge (form (ui s)) name value)
              (submitting (ui s)) (success (ui s)) (error (ui s)))
        (backend s).
Proof. reflexivity. Qed.

Lemma change_all_final (edits : list (Js.str * Js.str)) (s : AppState) :
  final (change_all edits) s =
  mkApp (mkUi (expandedCategory (ui s)) (selected (ui s))
              (fold_left (fun f e => merge f (fst e) (snd e)) edits
                         (form (ui s)))
              (submitting (ui s)) (success (ui s)) (error (ui s)))
        (backend s).
Proof.
  revert s. induction edits as [|[n v] rest IH]; intros s.
  - destruct s as [[] ?]. reflexivity.
  - change (final (change_all ((n, v) :: rest)) s)
      with (final (change_all rest) (final (handleChange n v) s)).
    rewrite IH, handleChange_final. reflexivity.
Qed.

Lemma read_merge_known (f : ContactForm) (name value other : Js.str) :
  read f other <> None -> read (merge f name value) other <> None.
Proof.
  intros H. rewrite read_merge. destruct (Js.eqb name other) eqn:E.
  - apply js_eqb_eq in E. subst other.
    destruct (read f name); [discriminate | contradiction].
  - exact H.
Qed.

Lemma fold_merge_last_edit (edits : list (Js.str * Js.str))
      (f : ContactForm) (name : Js.str) :
  read f name <> None ->
  read (fold_left (fun f e => merge f (fst e) (snd e)) edits f) name =
  match last_edit edits name with
  | Some v => Some v
  | None => read f name
  end.
Proof.
  revert f. induction edits as [|[n v] rest IH]; intros f Hk.
  - reflexivity.
  - simpl. rewrite IH by (apply read_merge_known; exact Hk).
    destruct (last_edit rest name); [reflexivity|].
    rewrite read_merge. destruct (Js.eqb n name) eqn:E.
    + apply js_eqb_eq in E. subst n.
      destruct (read f name); [reflexivity | contradiction].
    + reflexivity.
Qed.

End FormEditing.

(** X1: [handleChange] merges one field into the form: the field named by
    the event reads back the new value, every other field reads what it
    held, and the selection, the flags, the messages and the backend are
    untouched. *)
Theorem handleChange_merges_one_field :
  forall (name value : Js.str) (s : App.AppState),
    FormState.read (App.form (App.ui s)) name <> None ->
    let s' := Spec.final (FormState.handleChange name value) s in
    FormState.read (App.form (App.ui s')) name = Some value
    /\ (forall other, other <> name ->
          FormState.read (App.form (App.ui s')) other
          = FormState.read (App.form (App.ui s)) other)
    /\ App.selected (App.ui s') = App.selected (App.ui s)
    /\ App.submitting (App.ui s') = App.submitting (App.ui s)
    /\ App.success (App.ui s') = App.success (App.ui s)
    /\ App.error (App.ui s') = App.error (App.ui s)
    /\ App.expandedCategory (App.ui s') = App.expandedCategory (App.ui s)
    /\ App.backend s' = App.backend s.
Proof.
  intros name value s Hk s'. subst s'. rewrite handleChange_final.
  cbn [App.ui App.form App.selected App.submitting App.success App.error
       App.expandedCategory App.backend].
  split.
  - rewrite read_merge, js_eqb_refl.
    destruct (FormState.read (App.form (App.ui s)) name);
      [reflexivity | contradiction].
  - split; [|repeat split].
    intros other Hne. rewrite read_merge.
    destruct (Js.eqb name other) eqn:E; [|reflexivity].
    apply js_eqb_eq in E. congruence.
Qed.

Lemma handleChange_witness :
  FormState.read
    (App.form (App.ui (Spec.final
       (FormState.handleChange (Js.lit "email") (Js.lit "jane@y.org"))
       (Spec.jane_app [] Spec.jane_form))))
    (Js.lit "email")
  = Some (Js.lit "jane@y.org").
Proof.
  apply (proj1 (handleChange_merges_one_field
                  (Js.lit "email") (Js.lit "jane@y.org")
                  (Spec.jane_app [] Spec.jane_form)
                  ltac:(vm_compute; discriminate))).
Defined.

(** X2: after any sequence of change events, each field of the form holds
    the value of the last event that named it, or its initial value when
    no event named it; the selection is untouched. *)
Theorem change_events_last_write_wins :
  forall (edits : list (Js.str * Js.str)) (s : App.AppState) (name : Js.str),
    FormState.read (App.form (App.ui s)) name <> None ->
    let s' := Spec.final (FormState.change_all edits) s in
    FormState.read (App.form (App.ui s')) name =
      match FormState.last_edit edits name with
      | Some v => Some v
      | None => FormState.read (App.form (App.ui s)) name
      end
    /\ App.selected (App.ui s') = App.selected (App.ui s).
Proof.
  intros edits s name Hk s'. subst s'. rewrite change_all_final.
  cbn [App.ui App.form App.selected]. split; [|reflexivity].
  apply fold_merge_last_edit. exact Hk.
Qed.

Lemma change_events_witness :
  FormState.read
    (App.form (App.ui (Spec.final
       (FormState.change_all
          [(Js.lit "name", Js.lit "J");
           (Js.lit "email", Js.lit "j@x.io");
           (Js.lit "name", Js.lit "Jo")])
       Spec.initial_app)))
    (Js.lit "name")
  = Some (Js.lit "Jo").
Proof.
  apply (proj1 (change_events_last_write_wins
                  [(Js.lit "name", Js.lit "J");
                   (Js.lit "email", Js.lit "j@x.io");
                   (Js.lit "name", Js.lit "Jo")]
                  Spec.initial_app (Js.lit "name")
                  ltac:(vm_compute; discriminate))).
Defined.

(* ===================================================================== *)
(** ** More on the selection *)
(* ===================================================================== *)

Section Selection.
Import App Spec Catalog.



Lemma includes_false (l : list Js.str) (x : Js.str) :
  Js.includes l x = false <-> ~ In x l.
Proof.
  split.
  - intros H Hin. apply js_includes_In in Hin. congruence.
  - intros H. destruct (Js.includes l x) eqn:E; [|reflexivity].
    apply js_includes_In in E. contradiction.
Qed.

Lemma fold_toggle_subset (ids sel : list Js.str) (id : Js.str) :
  In id (fold_left (fun sel x => toggle x sel) ids sel) ->
  In id sel \/ In id ids.
Proof.
  revert sel. induction ids as [|x ids IH]; intros sel H; simpl in H.
  - left. exact H.
  - apply IH in H. destruct H as [H|H]; [|right; right; exact H].
    apply toggle_In in H. destruct (Js.eqb x id) eqn:E.
    + apply js_eqb_eq in E. right. left. exact E.
    + left. exact H.
Qed.

Lemma in_catalog_ids (id : Js.str) :
  in_catalog id <-> In id (map s_id (all_services SERVICE_CATEGORIES)).
Proof.
  unfold in_catalog. rewrite in_map_iff. split.
  - intros [c [s [Hc [Hs E]]]]. exists s. split; [exact E|].
    apply in_all_services. exists c. auto.
  - intros [s [E Hs]]. apply in_all_services in Hs.
    destruct Hs as [c [Hc Hs]]. exists c, s. auto.
Qed.

End Selection.



(** X4: starting from the empty selection, when every toggled id is the id
    of a catalog service, every selected id is one too: its displayed
    title is a catalog title, not the raw id fallback, and the selection
    never holds more than the 47 services of the catalog. *)
Theorem selection_stays_in_catalog :
  forall (ids : list Js.str) (s : App.AppState),
    App.selected (App.ui s) = [] ->
    (forall id, In id ids -> Spec.in_catalog id) ->
    let sel := App.selected (App.ui (Spec.final (Spec.toggle_all ids) s)) in
    (forall id, In id sel ->
       In id ids
       /\ exists c sv,
            In c Catalog.SERVICE_CATEGORIES /\ In sv (Catalog.c_services c)
            /\ Catalog.s_id sv = id
            /\ App.serviceTitleById id = Catalog.s_title sv)
    /\ List.length sel <= 47.
Proof.
  intros ids s Hempty Hcat sel. subst sel. rewrite toggle_all_final.
  cbn [App.ui App.selected]. rewrite Hempty.
  assert (Hsub : forall id,
             In id (fold_left (fun sel x => App.toggle x sel) ids []) ->
             In id ids).
  { intros id H. apply fold_toggle_subset in H. destruct H as [[]|H]. exact H. }
  split.
  - intros id H. apply Hsub in H. split; [exact H|].
    destruct (Hcat id H) as [c [sv [Hc [Hs E]]]].
    exists c, sv. repeat split; try assumption.
    rewrite <- E.
    pose proof catalog_titles_resolve as R. rewrite forallb_forall in R.
    apply js_eqb_eq. apply R. apply in_all_services. exists c. auto.
  - rewrite <- catalog_size.
    rewrite <- (length_map Catalog.s_id).
    apply NoDup_incl_length.
    + apply fold_toggle_NoDup. constructor.
    + intros id H. apply in_catalog_ids. apply Hcat. apply Hsub. exact H.
Qed.

Lemma selection_stays_in_catalog_witness :
  List.length
    (App.selected (App.ui (Spec.final
       (Spec.toggle_all [Js.lit "seo"; Js.lit "qa"; Js.lit "seo"; Js.lit "ip"])
       Spec.initial_app)))
  <= 47.
Proof.
  apply (proj2 (selection_stays_in_catalog
                  [Js.lit "seo"; Js.lit "qa"; Js.lit "seo"; Js.lit "ip"]
                  Spec.initial_app eq_refl
                  ltac:(intros id H; apply in_catalog_ids;
                        repeat (destruct H as [H|H];
                                [subst id; vm_compute; tauto|]);
                        destruct H))).
Defined.

(* ===================================================================== *)
(** ** More on the browser-direct submission *)
(* ===================================================================== *)

Section SubmissionOutcomes.
Import Effect Backend App Spec.

Lemma submittable_dec (u : UiState) :
  submittable u
  \/ (f_name (form u) = [] \/ f_email (form u) = [] \/ selected u = []).
Proof.
  unfold submittable.
  destruct (f_name (form u)); [right; left; reflexivity|].
  destruct (f_email (form u)); [right; right; left; reflexivity|].
  destruct (selected u); [right; right; right; reflexivity|].
  left. repeat split; discriminate.
Qed.

Lemma handleSubmit_rejected (w : World) (s : AppState) :
  f_name (form (ui s)) = [] \/ f_email (form (ui s)) = []
  \/ selected (ui s) = [] ->
  handleSubmit w s =
  (Returned tt, mkApp (with_error (ui s) (Some MSG_REQUIRED)) (backend s)).
Proof.
  intros H. apply submit_check_fails in H.
  unfold handleSubmit. run_effects. rewrite H. reflexivity.
Qed.

(** Every submission of a form that passes the check ends in one of two
    UI states. *)
Lemma handleSubmit_outcome (w : World) (s : AppState) :
  submittable (ui s) ->
  exists b,
    handleSubmit w s =
    (Returned tt,
     mkApp (match abort_message w with
            | Some m => aborted_ui (ui s) m
            | None => completed_ui (ui s)
            end) b)
    /\ quote_requests (db b) =
       quote_requests (db (backend s))
         ++ match quote_insert w with
            | Data g => [store_request g (request_insert w (form (ui s)))]
            | _ => []
            end
    /\ quote_request_services (db b) =
       quote_request_services (db (backend s))
         ++ match quote_insert w, services_insert w with
            | Data g, Data _ => service_inserts (g_id g) (selected (ui s))
            | _, _ => []
            end.
Proof.
  intros Hs. unfold abort_message.
  destruct (quote_insert w) as [g|detail|e] eqn:Hq.
  - destruct (services_insert w) as [x|detail|e] eqn:Hv.
    + eexists. split; [apply (@handleSubmit_persisted w s Hs g Hq x Hv)|].
      unfold persisted. simpl. split; reflexivity.
    + eexists. split; [apply (@handleSubmit_services_error w s Hs g Hq detail Hv)|].
      simpl. rewrite app_nil_r. split; reflexivity.
    + eexists. split; [apply (@handleSubmit_services_rejects w s Hs g Hq e Hv)|].
      simpl. rewrite app_nil_r. split; reflexivity.
  - eexists. split; [apply (@handleSubmit_quote_error w s Hs detail Hq)|].
    simpl. rewrite !app_nil_r. split; reflexivity.
  - eexists. split; [apply (@handleSubmit_quote_rejects w s Hs e Hq)|].
    simpl. rewrite !app_nil_r. split; reflexivity.
Qed.

End SubmissionOutcomes.

(** X5: [handleSubmit] never throws to its caller, whatever the database
    and the e-mail provider do; when the form passed the check the
    submitting flag is false afterwards, when it did not the flag is
    untouched; the expanded category is never changed. *)
Theorem handleSubmit_always_returns :
  forall (w : Backend.World) (s : App.AppState),
    let s' := Spec.final (App.handleSubmit w) s in
    Spec.result (App.handleSubmit w) s = Effect.Returned tt
    /\ (Spec.submittable (App.ui s) -> App.submitting (App.ui s') = false)
    /\ (~ Spec.submittable (App.ui s) ->
        App.submitting (App.ui s') = App.submitting (App.ui s))
    /\ App.expandedCategory (App.ui s') = App.expandedCategory (App.ui s).
Proof.
  intros w s s'. subst s'. unfold Spec.result, Spec.final.
  destruct (submittable_dec (App.ui s)) as [Hs|Hn].
  - destruct (@handleSubmit_outcome w s Hs) as [b [E _]]. rewrite E.
    cbn [fst snd App.ui]. split; [reflexivity|].
    destruct (Spec.abort_message w); simpl; repeat split; tauto.
  - rewrite (handleSubmit_rejected w s Hn). cbn [fst snd App.ui].
    repeat split. intros Hs. exfalso.
    destruct Hs as [H1 [H2 H3]]. destruct Hn as [H|[H|H]]; contradiction.
Qed.

(** X6: submitting again right after a completed submission is rejected by
    the check, because the form and the selection were cleared: no call
    is made, the validation message is shown, and the success message of
    the first submission is still displayed beside it. *)
Theorem resubmission_is_rejected :
  forall (w w' : Backend.World) (s : App.AppState)
         (g : Backend.Generated) (x : unit),
    Spec.submittable (App.ui s) ->
    Backend.quote_insert w = Backend.Data g ->
    Backend.services_insert w = Backend.Data x ->
    let s1 := Spec.final (App.handleSubmit w) s in
    App.handleSubmit w' s1 =
    (Effect.Returned tt,
     App.mkApp
       (App.mkUi (App.expandedCategory (App.ui s)) [] App.empty_form false
                 (Some App.MSG_SENT) (Some App.MSG_REQUIRED))
       (App.backend s1)).
Proof.
  intros w w' s g x Hs Hq Hv s1.
  assert (Hu : App.ui s1 = Spec.completed_ui (App.ui s)).
  { subst s1. unfold Spec.final.
    rewrite (@handleSubmit_persisted w s Hs g Hq x Hv). reflexivity. }
  rewrite handleSubmit_rejected.
  - rewrite Hu. reflexivity.
  - rewrite Hu. left. reflexivity.
Qed.

Lemma resubmission_witness :
  App.error
    (App.ui (Spec.final
       (App.handleSubmit
          (Spec.world_of (Backend.Data Spec.generated) (Backend.Data tt)
                         true true))
       (Spec.final
          (App.handleSubmit
             (Spec.world_of (Backend.Data Spec.generated) (Backend.Data tt)
                            true true))
          (Spec.jane_app [Js.lit "seo"] Spec.jane_form))))
  = Some App.MSG_REQUIRED.
Proof.
  unfold Spec.final at 1.
  rewrite (@resubmission_is_rejected
             (Spec.world_of (Backend.Data Spec.generated) (Backend.Data tt)
                            true true)
             (Spec.world_of (Backend.Data Spec.generated) (Backend.Data tt)
                            true true)
             (Spec.jane_app [Js.lit "seo"] Spec.jane_form)
             Spec.generated tt).
  - reflexivity.
  - unfold Spec.submittable. simpl. repeat split; discriminate.
  - reflexivity.
  - reflexivity.
Defined.

(** X7: the two inserts of [handleSubmit] are not one transaction.  Once
    the request insert has succeeded the request row stays stored whatever
    happens next; its service rows are stored only when the second insert
    succeeds, so a failure of the second insert leaves a request without
    services while the user is shown an error. *)
Theorem request_row_is_never_rolled_back :
  forall (w : Backend.World) (s : App.AppState) (g : Backend.Generated),
    Spec.submittable (App.ui s) ->
    Backend.quote_insert w = Backend.Data g ->
    let s' := Spec.final (App.handleSubmit w) s in
    Backend.quote_requests (Backend.db (App.backend s')) =
      Backend.quote_requests (Backend.db (App.backend s))
        ++ [Backend.store_request g
              (App.request_insert w (App.form (App.ui s)))]
    /\ ((forall x, Backend.services_insert w <> Backend.Data x) ->
        Backend.quote_request_services (Backend.db (App.backend s')) =
          Backend.quote_request_services (Backend.db (App.backend s))
        /\ App.error (App.ui s') <> None
        /\ App.selected (App.ui s') = App.selected (App.ui s)).
Proof.
  intros w s g Hs Hq s'. subst s'. unfold Spec.final.
  destruct (@handleSubmit_outcome w s Hs) as [b [E [Hr Hv]]]. rewrite E.
  cbn [snd App.backend App.ui]. rewrite Hr, Hv, Hq. split; [reflexivity|].
  intros Hfail. unfold Spec.abort_message. rewrite Hq.
  destruct (Backend.services_insert w) as [x|detail|e].
  - exfalso. apply (Hfail x). reflexivity.
  - simpl. rewrite app_nil_r. repeat split. discriminate.
  - simpl. rewrite app_nil_r. repeat split. discriminate.
Qed.

Lemma request_row_witness :
  Backend.quote_requests
    (Backend.db (App.backend (Spec.final
       (App.handleSubmit
          (Spec.world_of (Backend.Data Spec.generated)
                         (Backend.DbError (Js.lit "permission denied"))
                         true true))
       (Spec.jane_app [Js.lit "seo"] Spec.jane_form))))
  = [Backend.store_request Spec.generated
       (App.request_insert
          (Spec.world_of (Backend.Data Spec.generated)
                         (Backend.DbError (Js.lit "permission denied"))
                         true true)
          Spec.jane_form)].
Proof.
  apply (proj1 (@request_row_is_never_rolled_back
                  (Spec.world_of (Backend.Data Spec.generated)
                                 (Backend.DbError (Js.lit "permission denied"))
                                 true true)
                  (Spec.jane_app [Js.lit "seo"] Spec.jane_form)
                  Spec.generated
                  ltac:(unfold Spec.submittable; simpl;
                        repeat split; discriminate)
                  eq_refl)).
Defined.

(* ===================================================================== *)
(** ** Literals and printed numbers *)
(* ===================================================================== *)

Section Printing.

Lemma lit_inj (a b : string) : Js.lit a = Js.lit b -> a = b.
Proof.
  unfold Js.lit. intros H.
  rewrite <- (string_of_list_ascii_of_string a),
          <- (string_of_list_ascii_of_string b).
  f_equal. revert H.
  generalize (list_ascii_of_string a) (list_ascii_of_string b).
  intros l. induction l as [|x l IH]; intros [|y m] H; simpl in H;
    try discriminate; [reflexivity|].
  injection H as Hx Hl. f_equal; [|apply IH; exact Hl].
  rewrite <- (ascii_N_embedding x), <- (ascii_N_embedding y), Hx.
  reflexivity.
Qed.

Lemma of_N_inj (n m : N) : Js.of_N n = Js.of_N m -> n = m.
Proof.
  unfold Js.of_N. intros H. apply lit_inj in H.
  apply DecimalN.Unsigned.to_uint_inj.
  pose proof (NilEmpty.usu (N.to_uint n)) as Hn.
  pose proof (NilEmpty.usu (N.to_uint m)) as Hm.
  rewrite H in Hn. congruence.
Qed.

Lemma uint_digits (d : Decimal.uint) :
  forallb Digits.is_digit (Js.lit (NilEmpty.string_of_uint d)) = true.
Proof. induction d; simpl; try reflexivity; exact IHd. Qed.

Lemma of_N_digits (n : N) : forallb Digits.is_digit (Js.of_N n) = true.
Proof. apply uint_digits. Qed.

Lemma of_N_nonempty (n : N) : Js.of_N n <> [].
Proof.
  unfold Js.of_N. destruct n as [|p]; [discriminate|].
  intros H.
  assert (E : NilEmpty.string_of_uint (N.to_uint (N.pos p)) = ""%string).
  { apply lit_inj. exact H. }
  pose proof (NilEmpty.usu (N.to_uint (N.pos p))) as U. rewrite E in U.
  change (Some Decimal.Nil = Some (N.to_uint (N.pos p))) in U.
  injection U as U.
  assert (O : N.of_uint Decimal.Nil = N.pos p).
  { rewrite U. exact (DecimalN.Unsigned.of_to (N.pos p)). }
  discriminate.
Qed.

End Printing.

(** X8: the request number of a browser-direct submission is "REQ-"
    followed by the decimal digits of the clock value, so two submissions
    carry the same request number exactly when they read the same
    millisecond. *)
Theorem request_numbers_follow_the_clock :
  forall (w w' : Backend.World) (f f' : App.ContactForm),
    (Backend.r_request_number (App.request_insert w f)
     = Backend.r_request_number (App.request_insert w' f')
     <-> Backend.date_now w = Backend.date_now w')
    /\ exists digits,
         Backend.r_request_number (App.request_insert w f)
         = Some (Js.lit "REQ-" ++ digits)
         /\ digits <> []
         /\ forallb Digits.is_digit digits = true.
Proof.
  intros w w' f f'. split.
  - simpl. split.
    + intros H. injection H as H. apply of_N_inj. exact H.
    + intros ->. reflexivity.
  - exists (Js.of_N (Backend.date_now w)). split; [reflexivity|].
    split; [apply of_N_nonempty | apply of_N_digits].
Qed.

(** X9: for every selection, the service names stored with the request,
    the titles put in the e-mail payload and the titles shown in the cart
    are the same list, although the three are computed by three different
    lookups. *)
Theorem stored_emailed_and_displayed_titles_agree :
  forall (w : Backend.World) (f : App.ContactForm)
         (sel : list Js.str) (quote_id : N),
    map Backend.v_service_name (App.service_inserts quote_id sel)
    = map App.serviceTitleById sel
    /\ EmailService.q_selectedServices (App.email_data w f sel)
       = map App.serviceTitleById sel.
Proof.
  intros w f sel quote_id. split.
  - unfold App.service_inserts. rewrite map_map. apply map_ext.
    intros id. apply service_name_of_title.
  - unfold App.email_data. cbn [EmailService.q_selectedServices].
    apply map_ext. intros id. apply email_title_of_title.
Qed.

(* ===================================================================== *)
(** ** More on the validation of the notification payload *)
(* ===================================================================== *)

Section MoreValidation.
Import EmailService Spec.

Lemma trimStart_no_space (s : Js.str) :
  forallb (fun c => negb (Js.is_space c)) s = true -> Js.trimStart s = s.
Proof.
  destruct s as [|c s]; simpl; [reflexivity|].
  intros H. apply andb_prop in H. destruct H as [H _].
  apply negb_true_iff in H. rewrite H. reflexivity.
Qed.

Lemma trim_no_space (s : Js.str) :
  forallb (fun c => negb (Js.is_space c)) s = true -> Js.trim s = s.
Proof.
  intros H. unfold Js.trim, Js.trimEnd.
  rewrite (trimStart_no_space s H).
  rewrite trimStart_no_space.
  - apply rev_involutive.
  - rewrite forallb_forall in *. intros c Hc. apply H.
    apply in_rev. exact Hc.
Qed.

Lemma not_space_or_at_no_space (c : N) :
  not_space_or_at c = true -> negb (Js.is_space c) = true.
Proof.
  unfold not_space_or_at. intros H. apply negb_true_iff in H.
  apply orb_false_iff in H. destruct H as [H _]. rewrite H. reflexivity.
Qed.

(** An address the pattern accepts has no white space, so the blank test
    that precedes the pattern test never rejects it. *)
Lemma accepted_not_blank (email : Js.str) :
  Regex.test EMAIL_PATTERN email = true -> blank (Some email) = false.
Proof.
  intros H. apply EMAIL_PATTERN_accepts in H.
  destruct H as [l [d [e [-> [Hl [_ [_ HF]]]]]]].
  apply Forall_app in HF. destruct HF as [Fl HF].
  apply Forall_app in HF. destruct HF as [Fd Fe].
  assert (Hns : forallb (fun c => negb (Js.is_space c))
                        (l ++ 64%N :: d ++ 46%N :: e) = true).
  { assert (Hpart : forall part,
               Forall (fun c => not_space_or_at c = true) part ->
               forallb (fun c => negb (Js.is_space c)) part = true).
    { intros part HP. apply forallb_forall. intros c Hc.
      apply not_space_or_at_no_space.
      rewrite Forall_forall in HP. apply HP. exact Hc. }
    rewrite forallb_app. simpl. rewrite forallb_app. simpl.
    rewrite (Hpart l Fl), (Hpart d Fd), (Hpart e Fe). reflexivity. }
  apply not_true_is_false. intros B.
  apply blank_spec in B. rewrite (trim_no_space _ Hns) in B.
  destruct l; [congruence | discriminate].
Qed.

Lemma blank_false (s : Js.str) : blank (Some s) = false <-> Js.trim s <> [].
Proof.
  split.
  - intros H E. apply blank_spec in E. congruence.
  - intros H. destruct (blank (Some s)) eqn:B; [|reflexivity].
    apply blank_spec in B. contradiction.
Qed.

End MoreValidation.

(** X10: the language of the address pattern
    [/^[^\s@]+@[^\s@]+\.[^\s@]+$/]: a string is accepted exactly when it is
    a non-empty local part, an at sign, a non-empty label, a dot and a
    non-empty rest, none of the three parts holding white space or an at
    sign (the label and the rest may hold further dots). *)
Theorem email_pattern_language :
  forall s : Js.str,
    Regex.test EmailService.EMAIL_PATTERN s = true <->
    exists l d e,
      s = l ++ 64%N :: d ++ 46%N :: e
      /\ l <> [] /\ d <> [] /\ e <> []
      /\ Forall (fun c => Js.is_space c = false /\ c <> 64%N) (l ++ d ++ e).
Proof.
  intros s. rewrite EMAIL_PATTERN_accepts.
  assert (Hc : forall c, EmailService.not_space_or_at c = true
                         <-> Js.is_space c = false /\ c <> 64%N).
  { intros c. unfold EmailService.not_space_or_at.
    rewrite negb_true_iff, orb_false_iff, N.eqb_neq. tauto. }
  split; intros [l [d [e [E [Hl [Hd [He HF]]]]]]]; exists l, d, e;
    repeat split; try assumption;
    eapply Forall_impl; try exact HF; intros c; apply Hc.
Qed.

(** X11: [validateQuoteRequestData] accepts exactly the payloads that give
    a name with something other than white space in it, an address the
    pattern accepts, and a non-empty list of services; [isValid] is true
    exactly when the list of errors is empty. *)
Theorem validation_accepts_exactly :
  forall p : EmailService.PartialQuoteRequestData,
    (EmailService.isValid (EmailService.validateQuoteRequestData p) = true <->
     exists name email services,
       EmailService.p_name p = Some name /\ Js.trim name <> []
       /\ EmailService.p_email p = Some email
       /\ Regex.test EmailService.EMAIL_PATTERN email = true
       /\ EmailService.p_selectedServices p = Some services
       /\ services <> [])
    /\ (EmailService.isValid (EmailService.validateQuoteRequestData p) = true <->
        EmailService.errors (EmailService.validateQuoteRequestData p) = []).
Proof.
  intros [pn pe ps]. split.
  - unfold EmailService.validateQuoteRequestData.
    cbn [EmailService.p_name EmailService.p_email
         EmailService.p_selectedServices EmailService.isValid].
    destruct pn as [name|], pe as [email|], ps as [services|];
      try destruct (EmailService.blank (Some name)) eqn:Bn;
      try destruct (EmailService.blank (Some email)) eqn:Be;
      try destruct (Regex.test EmailService.EMAIL_PATTERN email) eqn:R;
      try destruct services as [|sv services];
      simpl;
      (split;
       [ intros H; try discriminate H
       | intros [n' [e' [s' [Hn [Tn [He [Rr [Hs Ne]]]]]]]];
         try discriminate Hn; try discriminate He; try discriminate Hs;
         try (injection Hn as <-); try (injection He as <-);
         try (injection Hs as <-);
         try congruence;
         try (apply blank_false in Tn; congruence);
         try (apply accepted_not_blank in Rr; congruence) ]).
    exists name, email, (sv :: services).
    repeat split; try reflexivity; try discriminate; try exact R.
    apply blank_false. exact Bn.
  - change (EmailService.isValid (EmailService.validateQuoteRequestData
                                    (EmailService.mkPartial pn pe ps)))
      with (Nat.eqb (List.length
                       (EmailService.errors
                          (EmailService.validateQuoteRequestData
                             (EmailService.mkPartial pn pe ps)))) 0).
    apply length_zero_nil.
Qed.

Lemma validation_accepts_witness :
  EmailService.isValid
    (EmailService.validateQuoteRequestData
       (EmailService.mkPartial (Some (Js.lit "Jane Doe"))
                               (Some (Js.lit "jane@x.com"))
                               (Some [Js.lit "SEO & Listing Optimization"])))
  = true.
Proof.
  apply (proj2 (proj1 (validation_accepts_exactly
    (EmailService.mkPartial (Some (Js.lit "Jane Doe"))
                            (Some (Js.lit "jane@x.com"))
                            (Some [Js.lit "SEO & Listing Optimization"]))))).
  exists (Js.lit "Jane Doe"), (Js.lit "jane@x.com"),
         [Js.lit "SEO & Listing Optimization"].
  repeat split; try reflexivity; try discriminate.
Defined.

(* ===================================================================== *)
(** ** When the notification is attempted *)
(* ===================================================================== *)

Section Attempts.
Import Effect Backend EmailService App Spec.

Lemma email_events_sends (w : World) (d : QuoteRequestData) :
  filter is_email_send (email_events w d) =
  [PostEmail (ADMIN_EMAIL w)
     (Js.lit "New Quote Request - " ++ company_or_name d) true;
   PostEmail (q_email d)
     (Js.lit "Quote Request Received - OneShopCentrale") false].
Proof.
  unfold email_events.
  destruct (admin_email_ok w), (client_email_ok w); reflexivity.
Qed.

Lemma notification_events_sends (w : World) (d : QuoteRequestData) :
  filter is_email_send (notification_events w d) =
  if valid_payload d then filter is_email_send (email_events w d) else [].
Proof.
  unfold notification_events. destruct (valid_payload d); [|reflexivity].
  rewrite filter_app.
  destruct (admin_email_ok w); cbn [filter is_email_send]; apply app_nil_r.
Qed.

Lemma valid_email_data (w : World) (f : ContactForm) (sel : list Js.str) :
  sel <> [] ->
  (valid_payload (email_data w f sel) = true <->
   Js.trim (f_name f) <> []
   /\ Regex.test EMAIL_PATTERN (f_email f) = true).
Proof.
  intros Hsel. rewrite valid_payload_spec.
  cbn [email_data q_name q_email q_selectedServices].
  rewrite blank_false. split.
  - intros [Hn [_ [Hr _]]]. auto.
  - intros [Hn Hr]. repeat split; try assumption.
    + apply accepted_not_blank. exact Hr.
    + destruct sel; [congruence | discriminate].
Qed.

End Attempts.

(** X12: once both inserts of a browser-direct submission have succeeded,
    the e-mails are attempted exactly when the name holds something other
    than white space and the address is accepted by the pattern: then the
    admin notification (with the PDF) and the client confirmation are
    posted, in that order; otherwise nothing is posted at all. *)
Theorem notification_attempted_exactly_when_valid :
  forall (w : Backend.World) (s : App.AppState)
         (g : Backend.Generated) (x : unit),
    Spec.submittable (App.ui s) ->
    Backend.quote_insert w = Backend.Data g ->
    Backend.services_insert w = Backend.Data x ->
    let f := App.form (App.ui s) in
    let sends :=
      filter Backend.is_email_send
        (Spec.new_events (App.backend s)
           (App.backend (Spec.final (App.handleSubmit w) s))) in
    (Js.trim (App.f_name f) <> []
     /\ Regex.test EmailService.EMAIL_PATTERN (App.f_email f) = true ->
     sends =
     [Backend.PostEmail (Backend.ADMIN_EMAIL w)
        (Js.lit "New Quote Request - "
           ++ Js.or_else (App.f_company f) (App.f_name f)) true;
      Backend.PostEmail (App.f_email f)
        (Js.lit "Quote Request Received - OneShopCentrale") false])
    /\ (~ (Js.trim (App.f_name f) <> []
           /\ Regex.test EmailService.EMAIL_PATTERN (App.f_email f) = true) ->
        sends = []).
Proof.
  intros w s g x Hs Hq Hv f sends. subst sends f. unfold Spec.final.
  rewrite (@handleSubmit_persisted w s Hs g Hq x Hv).
  cbn [snd App.backend]. unfold Spec.persisted. cbn [Backend.log Backend.db].
  rewrite <- app_assoc, new_events_app, filter_app.
  cbn [filter Backend.is_email_send app].
  rewrite notification_events_sends.
  assert (Hsel : App.selected (App.ui s) <> []) by apply Hs.
  pose proof (@valid_email_data w (App.form (App.ui s))
                                (App.selected (App.ui s)) Hsel) as V.
  split.
  - intros H. apply V in H. rewrite H, email_events_sends. reflexivity.
  - intros H.
    destruct (Spec.valid_payload
                (App.email_data w (App.form (App.ui s))
                                (App.selected (App.ui s)))) eqn:E;
      [|reflexivity].
    exfalso. apply H. apply V. reflexivity.
Qed.

Lemma notification_attempted_witness :
  filter Backend.is_email_send
    (Spec.new_events Spec.empty_backend
       (App.backend
          (Spec.final
             (App.handleSubmit
                (Spec.world_of (Backend.Data Spec.generated) (Backend.Data tt)
                               false false))
             (Spec.jane_app [Js.lit "seo"] Spec.jane_form))))
  = [Backend.PostEmail (Js.lit "admin@example.com")
       (Js.lit "New Quote Request - Jane Doe") true;
     Backend.PostEmail (Js.lit "jane@x.com")
       (Js.lit "Quote Request Received - OneShopCentrale") false].
Proof.
  apply (proj1 (@notification_attempted_exactly_when_valid
                  (Spec.world_of (Backend.Data Spec.generated)
                                 (Backend.Data tt) false false)
                  (Spec.jane_app [Js.lit "seo"] Spec.jane_form)
                  Spec.generated tt
                  ltac:(unfold Spec.submittable; simpl;
                        repeat split; discriminate)
                  eq_refl eq_refl)).
  split; [vm_compute; discriminate | vm_compute; reflexivity].
Defined.

(** X13: [sendQuoteRequestEmails] never throws and never writes to the
    database.  For a payload that passes validation it posts the admin
    notification and then the client confirmation, the second one also
    when the first one failed; for any other payload it posts nothing. *)
Theorem notification_posts_both_or_nothing :
  forall (w : Backend.World) (d : EmailService.QuoteRequestData)
         (st : Backend.St),
    exists (r : EmailService.EmailResult) (events : list Backend.Event),
      EmailService.sendQuoteRequestEmails w d st =
      (Effect.Returned r,
       Backend.mkSt (Backend.db st) (Backend.log st ++ events))
      /\ filter Backend.is_email_send events =
         (if Spec.valid_payload d
          then [Backend.PostEmail (Backend.ADMIN_EMAIL w)
                  (Js.lit "New Quote Request - "
                     ++ EmailService.company_or_name d) true;
                Backend.PostEmail (EmailService.q_email d)
                  (Js.lit "Quote Request Received - OneShopCentrale") false]
          else [])
      /\ filter Backend.is_db_insert events = [].
Proof.
  intros w d st. destruct (Spec.valid_payload d) eqn:V.
  - exists (Spec.combined_result w), (Spec.email_events w d).
    split; [apply sendQuoteRequestEmails_valid; exact V|].
    split; [apply email_events_sends | apply email_events_no_insert].
  - eexists. exists [].
    split; [rewrite (@sendQuoteRequestEmails_invalid w d st V)|].
    + rewrite app_nil_r. destruct st. reflexivity.
    + split; reflexivity.
Qed.

(** X14: what the user sees after [handleSubmit] does not depend on the
    e-mail provider: two worlds in which the two inserts are answered
    alike lead to the same component state, whatever the two sends do. *)
Theorem ui_outcome_ignores_email_outcomes :
  forall (w w' : Backend.World) (s : App.AppState),
    Backend.quote_insert w = Backend.quote_insert w' ->
    Backend.services_insert w = Backend.services_insert w' ->
    App.ui (Spec.final (App.handleSubmit w) s)
    = App.ui (Spec.final (App.handleSubmit w') s).
Proof.
  intros w w' s Hq Hv. unfold Spec.final.
  destruct (submittable_dec (App.ui s)) as [Hs|Hn].
  - destruct (@handleSubmit_outcome w s Hs) as [b [E _]].
    destruct (@handleSubmit_outcome w' s Hs) as [b' [E' _]].
    rewrite E, E'. cbn [snd App.ui].
    unfold Spec.abort_message. rewrite Hq, Hv. reflexivity.
  - rewrite !handleSubmit_rejected by exact Hn. reflexivity.
Qed.

Lemma ui_outcome_witness :
  App.ui (Spec.final
            (App.handleSubmit
               (Spec.world_of (Backend.Data Spec.generated) (Backend.Data tt)
                              true true))
            (Spec.jane_app [Js.lit "seo"] Spec.jane_form))
  = App.ui (Spec.final
              (App.handleSubmit
                 (Spec.world_of (Backend.Data Spec.generated) (Backend.Data tt)
                                false false))
              (Spec.jane_app [Js.lit "seo"] Spec.jane_form)).
Proof.
  apply (@ui_outcome_ignores_email_outcomes
           (Spec.world_of (Backend.Data Spec.generated) (Backend.Data tt)
                          true true)
           (Spec.world_of (Backend.Data Spec.generated) (Backend.Data tt)
                          false false)
           (Spec.jane_app [Js.lit "seo"] Spec.jane_form)
           eq_refl eq_refl).
Defined.

(* ===================================================================== *)
(** ** The attachment name *)
(* ===================================================================== *)

Section AttachmentName.
Import Attachment.

Lemma dash_runs_no_space (b : bool) (s : Js.str) :
  forallb (fun c => negb (Js.is_space c)) (dash_runs b s) = true.
Proof.
  revert b. induction s as [|c s IH]; intros b; simpl.
  - reflexivity.
  - destruct (Js.is_space c) eqn:E.
    + destruct b; simpl; apply IH.
    + simpl. rewrite E. simpl. apply IH.
Qed.

Lemma dash_runs_unchanged (b : bool) (s : Js.str) :
  forallb (fun c => negb (Js.is_space c)) s = true -> dash_runs b s = s.
Proof.
  revert b. induction s as [|c s IH]; intros b H; simpl.
  - reflexivity.
  - simpl in H. apply andb_prop in H. destruct H as [Hc Hs].
    apply negb_true_iff in Hc. rewrite Hc. f_equal. apply IH. exact Hs.
Qed.

Lemma dash_runs_length (b : bool) (s : Js.str) :
  List.length (dash_runs b s) <= List.length s.
Proof.
  revert b. induction s as [|c s IH]; intros b; simpl.
  - lia.
  - pose proof (IH true). pose proof (IH false).
    destruct (Js.is_space c); [destruct b|]; simpl; lia.
Qed.

End AttachmentName.

(** X15: the name of the PDF attached to the admin notification never
    holds white space, is never longer than the company or name it is
    built from (plus the fixed prefix and suffix), and is exactly
    "quote-request-<company or name>.pdf" when that text holds no white
    space. *)
Theorem attachment_name_has_no_white_space :
  forall d : EmailService.QuoteRequestData,
    forallb (fun c => negb (Js.is_space c)) (Attachment.filename d) = true
    /\ List.length (Attachment.filename d)
       <= 18 + List.length (EmailService.company_or_name d)
    /\ (forallb (fun c => negb (Js.is_space c))
                (EmailService.company_or_name d) = true ->
        Attachment.filename d =
        Js.lit "quote-request-" ++ EmailService.company_or_name d
          ++ Js.lit ".pdf").
Proof.
  intros d. unfold Attachment.filename, Attachment.replace_spaces.
  split; [|split].
  - rewrite !forallb_app, dash_runs_no_space. reflexivity.
  - rewrite !length_app.
    pose proof (dash_runs_length false (EmailService.company_or_name d)).
    change (List.length (Js.lit "quote-request-")) with 14.
    change (List.length (Js.lit ".pdf")) with 4. lia.
  - intros H. rewrite dash_runs_unchanged by exact H. reflexivity.
Qed.

(* ===================================================================== *)
(** ** More on the server-mediated endpoint *)
(* ===================================================================== *)

Section EndpointOutcomes.
Import Effect Backend Api Spec.

Lemma acceptable_dec (d : QuoteRequestData) :
  acceptable d
  \/ (Js.truthy_opt (contact_field d k_name) = false
      \/ Js.truthy_opt (contact_field d k_email) = false
      \/ services_length d = 0).
Proof.
  unfold acceptable.
  destruct (Js.truthy_opt (contact_field d k_name)); [|right; left; reflexivity].
  destruct (Js.truthy_opt (contact_field d k_email));
    [|right; right; left; reflexivity].
  destruct (services_length d); [right; right; right; reflexivity|].
  left. repeat split. discriminate.
Qed.

Lemma handler_rejected (w : World) (d : QuoteRequestData) (st : Backend.St) :
  Js.truthy_opt (contact_field d k_name) = false
  \/ Js.truthy_opt (contact_field d k_email) = false
  \/ services_length d = 0 ->
  handler w (post d) st =
  (Returned (refused 400 "Missing required fields"), st).
Proof.
  intros H. apply endpoint_check_fails in H.
  unfold handler, post. run_effects. rewrite H. reflexivity.
Qed.

Lemma handler_options (w : World) (req : Request) (st : Backend.St) :
  method req = Js.lit "OPTIONS" ->
  handler w req st = (Returned (mkResponse false 200 EmptyObject), st).
Proof. intros H. unfold handler. rewrite H. reflexivity. Qed.

Lemma handler_other_method (w : World) (req : Request) (st : Backend.St) :
  method req <> Js.lit "OPTIONS" -> method req <> Js.lit "POST" ->
  handler w req st = (Returned (refused 405 "Method not allowed"), st).
Proof.
  intros H1 H2. unfold handler.
  rewrite (proj2 (js_eqb_neq _ _) H1), (proj2 (js_eqb_neq _ _) H2).
  reflexivity.
Qed.

Lemma request_is_post (req : Request) :
  method req = Js.lit "POST" -> req = post (body req).
Proof. destruct req as [m b]. simpl. intros ->. reflexivity. Qed.

Lemma handler_post_outcome (w : World) (d : QuoteRequestData) (st : Backend.St) :
  acceptable d ->
  exists events,
    handler w (post d) st =
    (Returned (Outcomes.endpoint_answer w),
     mkSt (mkDb (quote_requests (db st)
                   ++ match quote_insert w with
                      | Data g => [store_request g (request_insert d)]
                      | _ => []
                      end)
                (quote_request_services (db st)
                   ++ match quote_insert w, services_insert w with
                      | Data g, Data _ =>
                          service_inserts (g_id g) (services_of d)
                      | _, _ => []
                      end))
          (log st ++ events))
    /\ (exists rest, events = InsertQuoteRequest (request_insert d) :: rest)
    /\ filter is_email_send events =
       match quote_insert w, services_insert w with
       | Data g, Data _ | Data g, DbError _ =>
           filter is_email_send (server_email_events w d (g_request_number g))
       | _, _ => []
       end.
Proof.
  intros Hd. unfold Outcomes.endpoint_answer.
  destruct st as [[qr qs] lg].
  destruct (quote_insert w) as [g|detail|e] eqn:Hq.
  - destruct (services_insert w) as [x|detail|e] eqn:Hv.
    + eexists. split; [apply (@handler_persisted w d _ Hd g Hq x Hv)|].
      split; [eexists; reflexivity | reflexivity].
    + eexists. split.
      * rewrite (@handler_services_error w d _ Hd g Hq detail Hv).
        cbn [db log quote_requests quote_request_services].
        rewrite (app_nil_r qs). reflexivity.
      * split; [eexists; reflexivity | reflexivity].
    + eexists. split.
      * rewrite (@handler_services_rejects w d _ Hd g Hq e Hv).
        cbn [db log quote_requests quote_request_services].
        rewrite (app_nil_r qs). reflexivity.
      * split; [eexists; reflexivity | reflexivity].
  - eexists. split.
    + rewrite (@handler_quote_error w d _ Hd detail Hq).
      cbn [db log quote_requests quote_request_services].
      rewrite (app_nil_r qs), (app_nil_r qr). reflexivity.
    + split; [eexists; reflexivity | reflexivity].
  - eexists. split.
    + rewrite (@handler_quote_rejects w d _ Hd e Hq).
      cbn [db log quote_requests quote_request_services].
      rewrite (app_nil_r qs), (app_nil_r qr). reflexivity.
    + split; [eexists; reflexivity | reflexivity].
Qed.

End EndpointOutcomes.

(** X16: the quote endpoint always answers, and it reaches the database or
    the e-mail provider exactly for a POST whose body names a contact name,
    a contact e-mail and at least one service.  The preflight answer (to
    OPTIONS) is the only one sent without the CORS headers. *)
Theorem endpoint_calls_out_exactly_for_acceptable_posts :
  forall (w : Backend.World) (req : Api.Request) (st : Backend.St),
    exists resp,
      Spec.result (Api.handler w req) st = Effect.Returned resp
      /\ (existsb Backend.is_network_call
             (Spec.new_events st (Spec.final (Api.handler w req) st)) = true
          <-> Api.method req = Js.lit "POST" /\ Spec.acceptable (Api.body req))
      /\ (Api.cors_headers resp = false <-> Api.method req = Js.lit "OPTIONS").
Proof.
  intros w req st. unfold Spec.result, Spec.final.
  destruct (Js.eqb (Api.method req) (Js.lit "OPTIONS")) eqn:Eo.
  - apply js_eqb_eq in Eo. rewrite (handler_options w req st Eo).
    eexists. split; [reflexivity|]. cbn [snd Api.cors_headers].
    rewrite new_events_same. split.
    + split; [discriminate|]. intros [H _]. rewrite Eo in H.
      apply lit_inj in H. discriminate.
    + tauto.
  - apply js_eqb_neq in Eo.
    destruct (Js.eqb (Api.method req) (Js.lit "POST")) eqn:Ep.
    + apply js_eqb_eq in Ep. rewrite (request_is_post req Ep).
      cbn [Api.method Api.body Spec.post].
      destruct (acceptable_dec (Api.body req)) as [Hd|Hn].
      * destruct (@handler_post_outcome w (Api.body req) st Hd)
          as [events [E [[rest Hev] _]]].
        rewrite E. eexists. split; [reflexivity|]. cbn [snd].
        rewrite new_events_app, Hev. split.
        -- split; [intros _; split; [reflexivity | exact Hd] | reflexivity].
        -- split.
           ++ unfold Outcomes.endpoint_answer.
              destruct (Backend.quote_insert w);
                try destruct (Backend.services_insert w); discriminate.
           ++ intros H. apply lit_inj in H. discriminate.
      * rewrite (handler_rejected w _ st Hn).
        eexists. split; [reflexivity|]. cbn [snd Api.cors_headers Spec.refused].
        rewrite new_events_same. split.
        -- split; [discriminate|]. intros [_ [H1 [H2 H3]]].
           destruct Hn as [H|[H|H]]; congruence.
        -- split; [discriminate|]. intros H. apply lit_inj in H. discriminate.
    + apply js_eqb_neq in Ep. rewrite (handler_other_method w req st Eo Ep).
      eexists. split; [reflexivity|]. cbn [snd Api.cors_headers Spec.refused].
      rewrite new_events_same. split.
      * split; [discriminate|]. intros [H _]. contradiction.
      * split; [discriminate|]. intros H. contradiction.
Qed.

(** X17: a success answer of the quote endpoint always stands for a stored
    request: the request insert succeeded, the row is in the table, and
    the request number in the answer is the number of that row. *)
Theorem endpoint_success_means_request_stored :
  forall (w : Backend.World) (req : Api.Request) (st : Backend.St)
         (resp : Api.Response) (number message : Js.str),
    Spec.result (Api.handler w req) st = Effect.Returned resp ->
    Api.json resp = Api.SuccessBody number message ->
    exists g,
      Backend.quote_insert w = Backend.Data g
      /\ number = Backend.g_request_number g
      /\ Api.status resp = 200%N
      /\ Backend.quote_requests
           (Backend.db (Spec.final (Api.handler w req) st)) =
         Backend.quote_requests (Backend.db st)
           ++ [Backend.mkQuoteRequestRow (Backend.g_id g) number
                 (Api.request_insert (Api.body req))].
Proof.
  intros w req st resp number message. unfold Spec.result, Spec.final.
  destruct (Js.eqb (Api.method req) (Js.lit "OPTIONS")) eqn:Eo.
  - apply js_eqb_eq in Eo. rewrite (handler_options w req st Eo).
    cbn [fst]. intros H. injection H as <-. discriminate.
  - apply js_eqb_neq in Eo.
    destruct (Js.eqb (Api.method req) (Js.lit "POST")) eqn:Ep.
    + apply js_eqb_eq in Ep. rewrite (request_is_post req Ep).
      cbn [Api.body Spec.post].
      destruct (acceptable_dec (Api.body req)) as [Hd|Hn].
      * destruct (@handler_post_outcome w (Api.body req) st Hd)
          as [events [E _]].
        rewrite E. cbn [fst snd Backend.db Backend.quote_requests].
        intros H. injection H as <-. unfold Outcomes.endpoint_answer.
        destruct (Backend.quote_insert w) as [g|detail|e]; try discriminate.
        destruct (Backend.services_insert w); try discriminate;
          intros H; injection H as <- <-; exists g; repeat split.
      * rewrite (handler_rejected w _ st Hn). cbn [fst].
        intros H. injection H as <-. discriminate.
    + apply js_eqb_neq in Ep. rewrite (handler_other_method w req st Eo Ep).
      cbn [fst]. intros H. injection H as <-. discriminate.
Qed.

Lemma endpoint_success_witness :
  exists g,
    Backend.quote_insert
      (Spec.world_of (Backend.Data Spec.generated) (Backend.Data tt) true true)
    = Backend.Data g
    /\ Js.lit "QR2024010001" = Backend.g_request_number g.
Proof.
  destruct (@endpoint_success_means_request_stored
              (Spec.world_of (Backend.Data Spec.generated) (Backend.Data tt)
                             true true)
              (Spec.post Spec.jane_body) Spec.empty_backend
              (Spec.accepted (Js.lit "QR2024010001"))
              (Js.lit "QR2024010001")
              (Js.lit "Quote request submitted successfully")
              ltac:(vm_compute; reflexivity) eq_refl)
    as [g [Hq [Hn _]]].
  exists g. split; assumption.
Defined.

(** X18: on the quote endpoint the client confirmation is posted only
    after the admin notification went through, and neither the answer nor
    the database depends on what the e-mail provider does: two worlds in
    which the two inserts are answered alike give the same answer and the
    same tables. *)
Theorem endpoint_answer_ignores_email_outcomes :
  forall (w w' : Backend.World) (d : Api.QuoteRequestData) (st : Backend.St),
    Spec.acceptable d ->
    Backend.quote_insert w = Backend.quote_insert w' ->
    Backend.services_insert w = Backend.services_insert w' ->
    Spec.result (Api.handler w (Spec.post d)) st
    = Spec.result (Api.handler w' (Spec.post d)) st
    /\ Backend.db (Spec.final (Api.handler w (Spec.post d)) st)
       = Backend.db (Spec.final (Api.handler w' (Spec.post d)) st)
    /\ (forall g,
          Backend.quote_insert w = Backend.Data g ->
          (forall e, Backend.services_insert w <> Backend.Rejects e) ->
          filter Backend.is_email_send
            (Spec.new_events st (Spec.final (Api.handler w (Spec.post d)) st))
          = Backend.PostEmail (Backend.ADMIN_EMAIL w)
              (Js.lit "New Quote Request - " ++ Backend.g_request_number g)
              false
            :: (if Backend.admin_email_ok w
                then [Backend.PostEmail (Api.client_address d)
                        (Js.lit "Quote Request Received - "
                           ++ Backend.g_request_number g) false]
                else [])).
Proof.
  intros w w' d st Hd Hq Hv. unfold Spec.result, Spec.final.
  destruct (@handler_post_outcome w d st Hd) as [ev [E [_ Hs]]].
  destruct (@handler_post_outcome w' d st Hd) as [ev' [E' _]].
  rewrite E, E'. cbn [fst snd Backend.db].
  unfold Outcomes.endpoint_answer.
  split; [rewrite Hq, Hv; reflexivity|].
  split; [rewrite Hq, Hv; reflexivity|].
  intros g Hg Hnr. rewrite new_events_app, Hs, Hg.
  unfold Spec.server_email_events.
  destruct (Backend.services_insert w) as [x|detail|e].
  - destruct (Backend.admin_email_ok w), (Backend.client_email_ok w);
      reflexivity.
  - destruct (Backend.admin_email_ok w), (Backend.client_email_ok w);
      reflexivity.
  - exfalso. apply (Hnr e). reflexivity.
Qed.

Lemma endpoint_answer_witness :
  Spec.result
    (Api.handler
       (Spec.world_of (Backend.Data Spec.generated) (Backend.Data tt) true true)
       (Spec.post Spec.jane_body))
    Spec.empty_backend
  = Spec.result
      (Api.handler
         (Spec.world_of (Backend.Data Spec.generated) (Backend.Data tt)
                        false true)
         (Spec.post Spec.jane_body))
      Spec.empty_backend.
Proof.
  apply (proj1 (@endpoint_answer_ignores_email_outcomes
                  (Spec.world_of (Backend.Data Spec.generated)
                                 (Backend.Data tt) true true)
                  (Spec.world_of (Backend.Data Spec.generated)
                                 (Backend.Data tt) false true)
                  Spec.jane_body Spec.empty_backend
                  ltac:(unfold Spec.acceptable; simpl;
                        repeat split; discriminate)
                  eq_refl eq_refl)).
Defined.

(* ===================================================================== *)
(** ** The e-mail relay endpoint *)
(* ===================================================================== *)

Section Relay.
Import Effect SendEmailApi Outcomes.

Lemma relay_not_ready (w : World) (req : Request) (l : list Event) :
  relay_ready req = false ->
  exists resp,
    handler w req l = (Returned resp, l) /\ status resp <> 200%N
    \/ handler w req l = (Returned resp, l)
       /\ method req = Js.lit "OPTIONS".
Proof.
  unfold relay_ready, handler. intros H.
  destruct (Js.eqb (method req) (Js.lit "OPTIONS")) eqn:Eo.
  - apply js_eqb_eq in Eo. eexists. right. split; [reflexivity | exact Eo].
  - destruct (Js.eqb (method req) (Js.lit "POST")) eqn:Ep; simpl.
    + simpl in H. unfold try_catch, ret.
      destruct (Js.truthy_opt (to (body req)));
        destruct (Js.truthy_opt (subject (body req)));
        destruct (Js.truthy_opt (html (body req)));
        try discriminate H; simpl;
        eexists; left; (split; [reflexivity | discriminate]).
    + eexists. left. split; [reflexivity | discriminate].
Qed.

Lemma relay_ready_run (w : World) (req : Request) (l : list Event) :
  relay_ready req = true ->
  handler w req l =
  (Returned (relay_answer w),
   l ++ Post (build_payload w (body req))
     :: match provider w with
        | Accepted _ => []
        | _ => [ConsoleError (Js.lit "Email sending error:")]
        end).
Proof.
  unfold relay_ready. intros H.
  apply andb_prop in H. destruct H as [H Hh].
  apply andb_prop in H. destruct H as [H Hs].
  apply andb_prop in H. destruct H as [Hp Ht].
  assert (Ho : Js.eqb (method req) (Js.lit "OPTIONS") = false).
  { apply js_eqb_neq. apply js_eqb_eq in Hp. rewrite Hp.
    intros E. apply lit_inj in E. discriminate. }
  unfold handler, relay_answer, sendEmail, emit.
  rewrite Ho, Hp. cbn [negb].
  unfold try_catch, bind, ret, throw, modify. rewrite Ht, Hs, Hh. cbn [negb orb].
  destruct (provider w) as [id|st text|[m|]]; cbn; rewrite <- ?app_assoc;
    reflexivity.
Qed.

End Relay.

(** X19: the relay endpoint always answers, posts to the provider at most
    once, and posts exactly for a POST whose body gives a recipient, a
    subject and an HTML body; the posted message goes to that one
    recipient.  Without a post the answer is never a 200, except for the
    preflight. *)
Theorem relay_posts_exactly_for_complete_posts :
  forall (w : SendEmailApi.World) (req : SendEmailApi.Request)
         (l : list SendEmailApi.Event),
    exists resp events,
      SendEmailApi.handler w req l = (Effect.Returned resp, l ++ events)
      /\ filter SendEmailApi.is_post events =
         (if Outcomes.relay_ready req
          then [SendEmailApi.Post
                  (SendEmailApi.build_payload w (SendEmailApi.body req))]
          else [])
      /\ SendEmailApi.p_to
           (SendEmailApi.build_payload w (SendEmailApi.body req))
         = [SendEmailApi.to (SendEmailApi.body req)]
      /\ (Outcomes.relay_ready req = false ->
          SendEmailApi.status resp = 200%N ->
          SendEmailApi.method req = Js.lit "OPTIONS").
Proof.
  intros w req l. destruct (Outcomes.relay_ready req) eqn:R.
  - eexists. eexists. split; [apply relay_ready_run; exact R|]. split.
    + destruct (SendEmailApi.provider w); reflexivity.
    + split; [|discriminate]. unfold SendEmailApi.build_payload.
      destruct (SendEmailApi.attachments (SendEmailApi.body req)) as [a|];
        [destruct (Nat.ltb 0 (List.length a))|]; reflexivity.
  - destruct (relay_not_ready w req l R) as [resp [[E Hs]|[E Ho]]];
      exists resp, []; rewrite app_nil_r;
      (split; [exact E|]); (split; [reflexivity|]);
      (split; [unfold SendEmailApi.build_payload;
               destruct (SendEmailApi.attachments (SendEmailApi.body req))
                 as [a|];
               [destruct (Nat.ltb 0 (List.length a))|]; reflexivity|]).
    + intros _ H. contradiction.
    + intros _ _. exact Ho.
Qed.

(** X20: when the provider refuses a message, the relay endpoint answers
    500 and hands the provider's status code and response text to its
    caller in the [details] field; when the provider accepts, the answer is
    200 with the provider's message id. *)
Theorem relay_passes_provider_answer_on :
  forall (w : SendEmailApi.World) (req : SendEmailApi.Request)
         (l : list SendEmailApi.Event),
    Outcomes.relay_ready req = true ->
    (forall id,
        SendEmailApi.provider w = SendEmailApi.Accepted id ->
        Spec.result (SendEmailApi.handler w req) l =
        Effect.Returned
          (SendEmailApi.mkResponse true 200
             (SendEmailApi.SentBody (Js.lit "Email sent successfully") id)))
    /\ (forall status text,
          SendEmailApi.provider w = SendEmailApi.Refused status text ->
          Spec.result (SendEmailApi.handler w req) l =
          Effect.Returned
            (SendEmailApi.mkResponse true 500
               (SendEmailApi.FailureBody (Js.lit "Failed to send email")
                  (Js.lit "Resend API error: " ++ Js.of_N status
                     ++ Js.lit " - " ++ text)))).
Proof.
  intros w req l R. unfold Spec.result. rewrite (relay_ready_run w req l R).
  cbn [fst]. unfold Outcomes.relay_answer. split.
  - intros id ->. reflexivity.
  - intros st text ->. reflexivity.
Qed.

Lemma relay_passes_witness :
  Spec.result
    (SendEmailApi.handler
       (SendEmailApi.mkWorld (Js.lit "noreply@example.com")
          (SendEmailApi.Refused 422 (Js.lit "invalid from address")))
       (SendEmailApi.mkRequest (Js.lit "POST")
          (SendEmailApi.mkEmailData (Some (Js.lit "jane@x.com"))
             (Some (Js.lit "Hello")) (Some (Js.lit "<p>Hi</p>")) None)))
    []
  = Effect.Returned
      (SendEmailApi.mkResponse true 500
         (SendEmailApi.FailureBody (Js.lit "Failed to send email")
            (Js.lit "Resend API error: 422 - invalid from address"))).
Proof.
  apply (proj2 (@relay_passes_provider_answer_on
                  (SendEmailApi.mkWorld (Js.lit "noreply@example.com")
                     (SendEmailApi.Refused 422 (Js.lit "invalid from address")))
                  (SendEmailApi.mkRequest (Js.lit "POST")
                     (SendEmailApi.mkEmailData (Some (Js.lit "jane@x.com"))
                        (Some (Js.lit "Hello")) (Some (Js.lit "<p>Hi</p>"))
                        None))
                  [] eq_refl)
               422%N (Js.lit "invalid from address") eq_refl).
Defined.

(* ===================================================================== *)
(** ** Storage paths *)
(* ===================================================================== *)

Section StoragePaths.
Import Storage.

Lemma last_segment_from_plain (acc s : Js.str) :
  forallb (fun c => negb (N.eqb c 47)) s = true ->
  last_segment_from acc s = acc ++ s.
Proof.
  revert acc. induction s as [|c s IH]; intros acc H; simpl.
  - symmetry. apply app_nil_r.
  - simpl in H. apply andb_prop in H. destruct H as [Hc Hs].
    apply negb_true_iff in Hc. rewrite Hc, IH by exact Hs.
    rewrite <- app_assoc. reflexivity.
Qed.

Lemma last_segment_from_slash (acc a b : Js.str) :
  last_segment_from acc (a ++ 47%N :: b) = last_segment_from [] b.
Proof.
  revert acc. induction a as [|c a IH]; intros acc; simpl.
  - reflexivity.
  - destruct (N.eqb c 47); apply IH.
Qed.

Lemma digit_not_slash (s : Js.str) :
  forallb Digits.is_digit s = true ->
  forallb (fun c => negb (N.eqb c 47)) s = true.
Proof.
  intros H. apply forallb_forall. intros c Hc.
  rewrite forallb_forall in H. specialize (H c Hc).
  unfold Digits.is_digit in H. apply andb_prop in H. destruct H as [H _].
  apply N.leb_le in H. apply negb_true_iff. apply N.eqb_neq. lia.
Qed.

Lemma sanitize_chars (fileName : Js.str) :
  forallb (fun c => allowed c || N.eqb c 95) (sanitize fileName) = true.
Proof.
  unfold sanitize. induction fileName as [|c s IH]; simpl.
  - reflexivity.
  - rewrite IH. destruct (allowed c) eqn:A; [rewrite A|]; reflexivity.
Qed.

Lemma allowed_not_slash (c : N) :
  allowed c || N.eqb c 95 = true -> negb (N.eqb c 47) = true.
Proof.
  intros H. apply negb_true_iff. apply N.eqb_neq. intros ->.
  vm_compute in H. discriminate.
Qed.

End StoragePaths.

(** X21: [generateStoragePath] keeps the file name inside its directory:
    the sanitised name has the length of the original, holds only letters,
    digits, dots, dashes and underscores (so no slash), sanitising it again
    changes nothing, and the last segment of the path is exactly
    "<timestamp>_<sanitised name>", whatever the file name was. *)
Theorem storage_path_confines_file_name :
  forall (timestamp : N) (applicationId fileName : Js.str),
    List.length (Storage.sanitize fileName) = List.length fileName
    /\ forallb (fun c => Storage.allowed c || N.eqb c 95)
               (Storage.sanitize fileName) = true
    /\ Storage.sanitize (Storage.sanitize fileName) = Storage.sanitize fileName
    /\ Storage.last_segment
         (Storage.generateStoragePath timestamp applicationId fileName)
       = Js.of_N timestamp ++ Js.lit "_" ++ Storage.sanitize fileName.
Proof.
  intros timestamp applicationId fileName.
  split; [apply length_map|]. split; [apply sanitize_chars|]. split.
  - unfold Storage.sanitize. rewrite map_map. apply map_ext. intros c.
    destruct (Storage.allowed c) eqn:A; [rewrite A|]; reflexivity.
  - unfold Storage.generateStoragePath, Storage.last_segment.
    rewrite app_assoc.
    change (Js.lit "/" ++ Js.of_N timestamp ++ Js.lit "_"
              ++ Storage.sanitize fileName)
      with (47%N :: (Js.of_N timestamp ++ Js.lit "_"
                       ++ Storage.sanitize fileName)).
    rewrite last_segment_from_slash.
    rewrite last_segment_from_plain; [reflexivity|].
    rewrite !forallb_app.
    rewrite (digit_not_slash _ (of_N_digits timestamp)).
    cbn [andb]. change (forallb _ (Js.lit "_")) with true. cbn [andb].
    apply forallb_forall. intros c Hc. apply allowed_not_slash.
    pose proof (sanitize_chars fileName) as S.
    rewrite forallb_forall in S. apply S. exact Hc.
Qed.

(* ===================================================================== *)
(** ** Server-side request numbers *)
(* ===================================================================== *)

Section RequestNumbers.
Import Schema.

Lemma like_match_any (s : text) : like_match [AnyString] s = true.
Proof.
  induction s as [|c s IH]; [reflexivity|].
  simpl in *. exact IH.
Qed.

Lemma like_match_prefix (p s : text) :
  like_match (map Literal p ++ [AnyString]) s = starts_with p s.
Proof.
  revert s. induction p as [|c p IH]; intros s.
  - simpl map. simpl app. rewrite like_match_any. destruct s; reflexivity.
  - destruct s as [|x s]; [reflexivity|].
    simpl. rewrite <- IH. reflexivity.
Qed.

Lemma like_tokens_plain (p : text) :
  forallb plain p = true ->
  like_tokens (p ++ Js.lit "%") = Some (map Literal p ++ [AnyString]).
Proof.
  induction p as [|c p IH]; intros H.
  - reflexivity.
  - simpl in H. apply andb_prop in H. destruct H as [Hc Hp].
    unfold plain in Hc. apply andb_prop in Hc. destruct Hc as [Hc H95].
    apply andb_prop in Hc. destruct Hc as [H92 H37].
    apply negb_true_iff in H92, H37, H95.
    change ((c :: p) ++ Js.lit "%") with (c :: (p ++ Js.lit "%")).
    cbn [like_tokens]. rewrite H92, H37, H95, (IH Hp). reflexivity.
Qed.

Lemma digit_plain (s : text) :
  forallb Digits.is_digit s = true -> forallb plain s = true.
Proof.
  intros H. apply forallb_forall. intros c Hc.
  rewrite forallb_forall in H. specialize (H c Hc).
  unfold Digits.is_digit in H. apply andb_prop in H. destruct H as [H1 H2].
  apply N.leb_le in H1, H2. unfold plain.
  rewrite !andb_true_iff, !negb_true_iff, !N.eqb_neq. lia.
Qed.

Lemma zero_padded_digits (width : nat) (n : N) :
  forallb Digits.is_digit (zero_padded width n) = true.
Proof.
  unfold zero_padded. rewrite forallb_app, of_N_digits, andb_true_r.
  induction (width - List.length (Js.of_N n)) as [|k IH]; [reflexivity|].
  simpl. exact IH.
Qed.

Lemma month_prefix_plain (now : Now) : forallb plain (month_prefix now) = true.
Proof.
  unfold month_prefix, to_char_YYYYMM. rewrite !forallb_app.
  rewrite !(@digit_plain _ (zero_padded_digits _ _)). reflexivity.
Qed.

Lemma like_month_prefix (now : Now) (n : text) :
  like n (month_prefix now ++ Js.lit "%")
  = Some (starts_with (month_prefix now) n).
Proof.
  unfold like. rewrite (@like_tokens_plain _ (month_prefix_plain now)).
  cbn [option_map]. rewrite like_match_prefix. reflexivity.
Qed.

Lemma starts_with_app (p x : text) : starts_with p (p ++ x) = true.
Proof.
  induction p as [|c p IH]; simpl; [reflexivity|].
  rewrite N.eqb_refl. exact IH.
Qed.

Lemma numbered_starts (now : Now) (i : N) :
  starts_with (month_prefix now) (numbered now i) = true.
Proof.
  unfold numbered, month_prefix. rewrite app_assoc. apply starts_with_app.
Qed.

(** How many rows of the month a table holds. *)
Lemma month_count (now : Now) (table : list text) (j : nat) :
  (forall n, In n table -> starts_with (month_prefix now) n = false) ->
  List.length
    (filter (fun request_number =>
               match like request_number (month_prefix now ++ Js.lit "%") with
               | Some b => b
               | None => false
               end)
            (table ++ issued now j)) = j.
Proof.
  intros Hold. rewrite filter_app, length_app.
  assert (H0 : filter (fun request_number =>
                         match like request_number
                                    (month_prefix now ++ Js.lit "%") with
                         | Some b => b
                         | None => false
                         end) table = []).
  { induction table as [|n t IH]; [reflexivity|].
    cbn [filter]. rewrite like_month_prefix, Hold by (left; reflexivity).
    apply IH. intros m Hm. apply Hold. right. exact Hm. }
  rewrite H0. cbn [List.length Nat.add]. unfold issued.
  assert (H1 : forall l,
             filter (fun request_number =>
                       match like request_number
                                  (month_prefix now ++ Js.lit "%") with
                       | Some b => b
                       | None => false
                       end)
                    (map (fun i => numbered now (N.of_nat i)) l)
             = map (fun i => numbered now (N.of_nat i)) l).
  { induction l as [|i l IH]; [reflexivity|].
    cbn [map filter]. rewrite like_month_prefix, numbered_starts, IH.
    reflexivity. }
  rewrite H1, length_map, length_seq. reflexivity.
Qed.

Lemma generate_next (now : Now) (table : list text) (j : nat) :
  (forall n, In n table -> starts_with (month_prefix now) n = false) ->
  generate_quote_request_number now (table ++ issued now j)
  = numbered now (N.of_nat (S j)).
Proof.
  intros Hold. unfold generate_quote_request_number.
  fold (month_prefix now). rewrite (@month_count now table j Hold).
  unfold numbered, month_prefix. rewrite <- app_assoc.
  replace (N.of_nat j + 1)%N with (N.of_nat (S j)) by lia. reflexivity.
Qed.

Lemma small_counter (i : N) : (i < 10000)%N -> In i small_counters.
Proof.
  intros H. unfold small_counters. apply in_map_iff.
  exists (N.to_nat i). split; [apply N2Nat.id|]. apply in_seq. lia.
Qed.

Lemma padded_value_checked :
  forallb (fun i => N.eqb (digits_value (lpad (Js.of_N i) 4 (Js.lit "0"))) i)
          small_counters = true.
Proof. vm_compute. reflexivity. Qed.

Lemma printed_length_checked :
  forallb (fun i => Nat.leb (List.length (Js.of_N i)) 4) small_counters = true.
Proof. vm_compute. reflexivity. Qed.

Lemma padded_value (i : N) :
  (i < 10000)%N -> digits_value (lpad (Js.of_N i) 4 (Js.lit "0")) = i.
Proof.
  intros H. pose proof padded_value_checked as C.
  rewrite forallb_forall in C. apply N.eqb_eq. apply C.
  apply small_counter. exact H.
Qed.

Lemma numbered_inj (now : Now) (i j : N) :
  (i < 10000)%N -> (j < 10000)%N ->
  numbered now i = numbered now j -> i = j.
Proof.
  intros Hi Hj H. unfold numbered in H.
  apply app_inv_head in H. apply app_inv_head in H.
  rewrite <- (@padded_value i Hi), <- (@padded_value j Hj), H. reflexivity.
Qed.

Lemma lpad4_length (s : text) : List.length (lpad s 4 (Js.lit "0")) = 4.
Proof.
  unfold lpad. destruct (Nat.leb 4 (List.length s)) eqn:E.
  - apply Nat.leb_le in E. apply firstn_length_le. exact E.
  - apply Nat.leb_gt in E. rewrite length_app, firstn_length_le; [lia|].
    assert (L : forall k, List.length (List.concat (repeat (Js.lit "0") k)) = k).
    { induction k as [|k IH]; [reflexivity|]. simpl. rewrite IH. reflexivity. }
    rewrite L. lia.
Qed.

Lemma zero_padded_length (width : nat) (n : N) :
  List.length (Js.of_N n) <= width ->
  List.length (zero_padded width n) = width.
Proof.
  intros H. unfold zero_padded. rewrite length_app, repeat_length. lia.
Qed.

Lemma printed_length (n : N) :
  (n < 10000)%N -> List.length (Js.of_N n) <= 4.
Proof.
  intros H. pose proof printed_length_checked as C.
  rewrite forallb_forall in C. apply Nat.leb_le. apply C.
  apply small_counter. exact H.
Qed.

Lemma month_printed_length (m : N) :
  (m <= 12)%N -> List.length (Js.of_N m) <= 2.
Proof.
  intros H.
  assert (C : forallb (fun i => Nat.leb (List.length (Js.of_N i)) 2)
                      (map N.of_nat (seq 0 13)) = true)
    by (vm_compute; reflexivity).
  rewrite forallb_forall in C. apply Nat.leb_le. apply C.
  apply in_map_iff. exists (N.to_nat m). split; [apply N2Nat.id|].
  apply in_seq. lia.
Qed.

Lemma numbered_length (now : Now) (i : N) :
  (year now < 10000)%N -> (month now <= 12)%N ->
  List.length (numbered now i) = 12.
Proof.
  intros Hy Hm. unfold numbered, to_char_YYYYMM.
  rewrite !length_app, lpad4_length.
  rewrite (@zero_padded_length 4 (year now) (@printed_length (year now) Hy)).
  rewrite (@zero_padded_length 2 (month now) (@month_printed_length (month now) Hm)).
  reflexivity.
Qed.

Lemma numbered_fresh (now : Now) (table : list text) (j : nat) :
  (forall n, In n table -> starts_with (month_prefix now) n = false) ->
  (N.of_nat (S j) < 10000)%N ->
  ~ In (numbered now (N.of_nat (S j))) (table ++ issued now j).
Proof.
  intros Hold Hj Hin. apply in_app_or in Hin. destruct Hin as [Hin|Hin].
  - apply Hold in Hin. rewrite numbered_starts in Hin. discriminate.
  - unfold issued in Hin. apply in_map_iff in Hin.
    destruct Hin as [i [E Hi]]. apply in_seq in Hi.
    apply numbered_inj in E; lia.
Qed.

Lemma issued_succ (now : Now) (j : nat) :
  issued now (S j) = issued now j ++ [numbered now (N.of_nat (S j))].
Proof. unfold issued. rewrite seq_S, map_app. reflexivity. Qed.

Lemma insert_next (now : Now) (table : list text) (j : nat) :
  (year now < 10000)%N -> (month now <= 12)%N ->
  (forall n, In n table -> starts_with (month_prefix now) n = false) ->
  (N.of_nat (S j) < 10000)%N ->
  insert_request now (table ++ issued now j) None
  = Some (table ++ issued now (S j)).
Proof.
  intros Hy Hm Hold Hj. unfold insert_request, set_quote_request_number.
  rewrite (@generate_next now table j Hold).
  rewrite (@numbered_length now _ Hy Hm). cbn [Nat.ltb Nat.leb].
  rewrite (proj2 (includes_false _ _) (@numbered_fresh now table j Hold Hj)).
  rewrite issued_succ, app_assoc. reflexivity.
Qed.

Lemma insert_many (now : Now) (table : list text) (k j : nat) :
  (year now < 10000)%N -> (month now <= 12)%N ->
  (forall n, In n table -> starts_with (month_prefix now) n = false) ->
  (N.of_nat (j + k) < 10000)%N ->
  insert_unnumbered now k (table ++ issued now j)
  = Some (table ++ issued now (j + k)).
Proof.
  intros Hy Hm Hold. revert j. induction k as [|k IH]; intros j Hj.
  - rewrite Nat.add_0_r. reflexivity.
  - cbn [insert_unnumbered]. rewrite (@insert_next now table j Hy Hm Hold) by lia.
    rewrite IH by lia. replace (S j + k) with (j + S k) by lia. reflexivity.
Qed.

Lemma truncated_counter :
  lpad (Js.of_N 10000) 4 (Js.lit "0") = lpad (Js.of_N 1000) 4 (Js.lit "0").
Proof. vm_compute. reflexivity. Qed.

Lemma issued_contains (now : Now) (i j : nat) :
  1 <= i <= j -> In (numbered now (N.of_nat i)) (issued now j).
Proof.
  intros H. unfold issued.
  apply (in_map (fun i => numbered now (N.of_nat i))). apply in_seq. lia.
Qed.

End RequestNumbers.

Section RequestNumberRuns.
Import Schema.

Lemma month_count_of (now : Now) (table : list text) (cs : list N) :
  (forall n, In n table -> starts_with (month_prefix now) n = false) ->
  List.length
    (filter (fun request_number =>
               match like request_number (month_prefix now ++ Js.lit "%") with
               | Some b => b
               | None => false
               end)
            (table ++ map (numbered now) cs)) = List.length cs.
Proof.
  intros Hold. rewrite filter_app, length_app.
  assert (H0 : filter (fun request_number =>
                         match like request_number
                                    (month_prefix now ++ Js.lit "%") with
                         | Some b => b
                         | None => false
                         end) table = []).
  { induction table as [|n t IH]; [reflexivity|].
    cbn [filter]. rewrite like_month_prefix, Hold by (left; reflexivity).
    apply IH. intros m Hm. apply Hold. right. exact Hm. }
  rewrite H0. cbn [List.length Nat.add].
  induction cs as [|c cs IH]; [reflexivity|].
  cbn [map filter]. rewrite like_month_prefix, numbered_starts.
  cbn [List.length]. rewrite IH. reflexivity.
Qed.

Lemma insert_unnumbered_add (now : Now) (a b : nat) (table : list text) :
  insert_unnumbered now (a + b) table =
  match insert_unnumbered now a table with
  | Some t => insert_unnumbered now b t
  | None => None
  end.
Proof.
  revert table. induction a as [|a IH]; intros table; [reflexivity|].
  cbn [Nat.add insert_unnumbered].
  destruct (insert_request now table None); [apply IH | reflexivity].
Qed.

Lemma issued_NoDup (now : Now) (k : nat) :
  (N.of_nat k < 10000)%N -> NoDup (issued now k).
Proof.
  intros Hk. unfold issued.
  assert (H : forall l, NoDup l -> (forall i, In i l -> (N.of_nat i < 10000)%N) ->
                        NoDup (map (fun i => numbered now (N.of_nat i)) l)).
  { induction l as [|i l IH]; intros Hnd Hb; [constructor|].
    inversion Hnd; subst. cbn [map]. constructor.
    - intros Hin. apply in_map_iff in Hin. destruct Hin as [i' [E Hi']].
      apply numbered_inj in E.
      + apply Nat2N.inj in E. subst i'. contradiction.
      + apply Hb. right. exact Hi'.
      + apply Hb. left. reflexivity.
    - apply IH; [assumption|]. intros i' Hi'. apply Hb. right. exact Hi'. }
  apply H; [apply seq_NoDup|]. intros i Hi. apply in_seq in Hi. lia.
Qed.

End RequestNumberRuns.

(** X22: server-side request numbers of one month are sequential.  On a
    table that holds no number of the current month (numbers of other
    months and the browser's "REQ-..." numbers do not count), up to 9999
    unnumbered inserts all succeed and are given, in order, "QR", the year
    and month, and the counters 0001, 0002, ... as four digits; the numbers
    are pairwise different and twelve characters long. *)
Theorem month_numbers_are_sequential :
  forall (now : Schema.Now) (table : list Schema.text) (k : nat),
    (Schema.year now < 10000)%N -> (Schema.month now <= 12)%N ->
    (forall n, In n table ->
       Schema.starts_with (Schema.month_prefix now) n = false) ->
    (N.of_nat k < 10000)%N ->
    Schema.insert_unnumbered now k table = Some (table ++ Schema.issued now k)
    /\ NoDup (Schema.issued now k)
    /\ (forall n, In n (Schema.issued now k) -> List.length n = 12).
Proof.
  intros now table k Hy Hm Hold Hk. split; [|split].
  - pose proof (@insert_many now table k 0 Hy Hm Hold Hk) as H.
    unfold Schema.issued at 1 in H. cbn [seq map] in H.
    rewrite app_nil_r in H. exact H.
  - apply issued_NoDup. exact Hk.
  - intros n Hn. unfold Schema.issued in Hn. apply in_map_iff in Hn.
    destruct Hn as [i [<- _]]. apply numbered_length; assumption.
Qed.

Lemma month_numbers_witness :
  Schema.insert_unnumbered (Schema.mkNow 2024 1) 3
    [Js.lit "REQ-1705312800000"; Js.lit "QR2023120001"]
  = Some ([Js.lit "REQ-1705312800000"; Js.lit "QR2023120001"]
            ++ [Js.lit "QR2024010001"; Js.lit "QR2024010002";
                Js.lit "QR2024010003"]).
Proof.
  apply (proj1 (@month_numbers_are_sequential
                  (Schema.mkNow 2024 1)
                  [Js.lit "REQ-1705312800000"; Js.lit "QR2023120001"] 3
                  ltac:(reflexivity) ltac:(discriminate)
                  ltac:(intros n [<-|[<-|[]]]; vm_compute; reflexivity)
                  ltac:(reflexivity))).
Defined.

(** X23: the counter is cut to four characters, so a month has room for
    9999 server-side numbers only: the ten-thousandth unnumbered insert of
    a month is given the number of the thousandth and is rejected by the
    uniqueness of the column. *)
Theorem ten_thousandth_request_is_rejected :
  forall (now : Schema.Now) (table : list Schema.text),
    (Schema.year now < 10000)%N -> (Schema.month now <= 12)%N ->
    (forall n, In n table ->
       Schema.starts_with (Schema.month_prefix now) n = false) ->
    Schema.generate_quote_request_number now
      (table ++ Schema.issued now (N.to_nat 9999))
    = Schema.numbered now 1000
    /\ Schema.insert_unnumbered now (N.to_nat 10000) table = None.
Proof.
  intros now table Hy Hm Hold.
  assert (G : Schema.generate_quote_request_number now
                (table ++ Schema.issued now (N.to_nat 9999))
              = Schema.numbered now 1000).
  { rewrite (@generate_next now table _ Hold).
    replace (N.of_nat (S (N.to_nat 9999))) with 10000%N by lia.
    unfold Schema.numbered. rewrite truncated_counter. reflexivity. }
  split; [exact G|].
  replace (N.to_nat 10000) with (N.to_nat 9999 + 1) by lia.
  rewrite insert_unnumbered_add.
  pose proof (@insert_many now table (N.to_nat 9999) 0 Hy Hm Hold) as H.
  unfold Schema.issued at 1 in H. cbn [seq map] in H. rewrite app_nil_r in H.
  rewrite H by lia. cbn [Nat.add Schema.insert_unnumbered].
  unfold Schema.insert_request, Schema.set_quote_request_number.
  rewrite G, (@numbered_length now _ Hy Hm). cbn [Nat.ltb Nat.leb].
  assert (I : Js.includes (table ++ Schema.issued now (N.to_nat 9999))
                          (Schema.numbered now 1000) = true).
  { apply js_includes_In. apply in_or_app. right.
    replace 1000%N with (N.of_nat (N.to_nat 1000)) by lia.
    apply issued_contains. lia. }
  rewrite I. reflexivity.
Qed.

Lemma ten_thousandth_witness :
  Schema.generate_quote_request_number (Schema.mkNow 2024 1)
    ([] ++ Schema.issued (Schema.mkNow 2024 1) (N.to_nat 9999))
  = Js.lit "QR2024011000".
Proof.
  apply (proj1 (@ten_thousandth_request_is_rejected
                  (Schema.mkNow 2024 1) []
                  ltac:(reflexivity) ltac:(discriminate)
                  ltac:(intros n []))).
Defined.

(** X24: the counter is the number of rows of the month, not the highest
    number issued.  Whenever the table already holds the number whose
    counter is that row count plus one, as it does once any row of the
    month but the newest has been deleted, the next unnumbered insert is
    given a number that exists and is rejected. *)
Theorem row_count_numbering_collides :
  forall (now : Schema.Now) (table : list Schema.text) (counters : list N),
    (Schema.year now < 10000)%N -> (Schema.month now <= 12)%N ->
    (forall n, In n table ->
       Schema.starts_with (Schema.month_prefix now) n = false) ->
    In (N.of_nat (S (List.length counters))) counters ->
    Schema.insert_request now
      (table ++ map (Schema.numbered now) counters) None = None.
Proof.
  intros now table counters Hy Hm Hold Hin.
  unfold Schema.insert_request, Schema.set_quote_request_number.
  assert (G : Schema.generate_quote_request_number now
                (table ++ map (Schema.numbered now) counters)
              = Schema.numbered now (N.of_nat (S (List.length counters)))).
  { unfold Schema.generate_quote_request_number.
    fold (Schema.month_prefix now).
    rewrite (@month_count_of now table counters Hold).
    unfold Schema.numbered, Schema.month_prefix. rewrite <- app_assoc.
    replace (N.of_nat (List.length counters) + 1)%N
      with (N.of_nat (S (List.length counters))) by lia.
    reflexivity. }
  rewrite G, (@numbered_length now _ Hy Hm). cbn [Nat.ltb Nat.leb].
  assert (I : Js.includes (table ++ map (Schema.numbered now) counters)
                (Schema.numbered now (N.of_nat (S (List.length counters))))
              = true).
  { apply js_includes_In. apply in_or_app. right. apply in_map. exact Hin. }
  rewrite I. reflexivity.
Qed.

Lemma row_count_numbering_witness :
  Schema.insert_request (Schema.mkNow 2024 1)
    ([Js.lit "REQ-1705312800000"]
       ++ map (Schema.numbered (Schema.mkNow 2024 1)) [2%N; 3%N]) None
  = None.
Proof.
  apply (@row_count_numbering_collides
           (Schema.mkNow 2024 1) [Js.lit "REQ-1705312800000"] [2%N; 3%N]
           ltac:(reflexivity) ltac:(discriminate)
           ltac:(intros n [<-|[]]; vm_compute; reflexivity)
           ltac:(right; left; reflexivity)).
Defined.

(* ===================================================================== *)
(** ** The PDF summary *)
(* ===================================================================== *)

Section PdfRuns.
Import Effect Pdf.

Lemma bind_returned {A B} (m : M Doc A) (k : A -> M Doc B)
      (d d' : Doc) (v : A) :
  m d = (Returned v, d') -> bind m k d = k v d'.
Proof. intros H. unfold bind. rewrite H. reflexivity. Qed.

Lemma draw_run (op : Op) (d : Doc) :
  draw op d = (Returned tt, mkDoc (pages d) (ops d ++ [op])).
Proof. reflexivity. Qed.

Lemma addText_run (lib : Lib) (text : Js.str) (x y : Z) (size : N)
      (style : string) (w : Width) (d : Doc) :
  addText lib text x y size style w d =
  (Returned (y + Z.of_nat (List.length (splitTextToSize lib text w))
                 * lineHeight)%Z,
   mkDoc (pages d)
         (ops d ++ [SetFontSize size; SetFont (Js.lit style);
                    Text (splitTextToSize lib text w) x (At y)])).
Proof.
  unfold addText, bind, draw, modify, ret. cbn [pages ops].
  rewrite <- !app_assoc. reflexivity.
Qed.

Lemma addSectionHeader_run (title : string) (y : Z) (d : Doc) :
  addSectionHeader title y d =
  (Returned (y + 20)%Z,
   mkDoc (pages d)
         (ops d ++ [SetFillColor 59 130 246;
                    Rect margin (y - 5) ContentWidth 12;
                    SetTextColor 255 255 255; SetFontSize 12;
                    SetFont (Js.lit "bold");
                    Text [Js.lit title] (margin + 5) (At (y + 3));
                    SetTextColor 0 0 0])).
Proof.
  unfold addSectionHeader, bind, draw, modify, ret. cbn [pages ops].
  rewrite <- !app_assoc. reflexivity.
Qed.

Lemma addField_run (lib : Lib) (label value : Js.str) (y : Z) (d : Doc) :
  addField lib label value y d =
  (Returned (field_y lib value y),
   mkDoc (pages d) (ops d ++ field_ops lib label value y)).
Proof.
  unfold addField, field_y, field_ops, field_drawn.
  destruct (Js.truthy value); cbn [negb andb].
  - destruct (Nat.eqb (List.length (Js.trim value)) 0); cbn [negb].
    + unfold ret. rewrite app_nil_r. destruct d. reflexivity.
    + unfold bind, draw, modify, ret. cbn [pages ops].
      rewrite <- !app_assoc. reflexivity.
  - unfold ret. rewrite app_nil_r. destruct d. reflexivity.
Qed.

Lemma checkNewPage_run (lib : Lib) (y : Z) (d : Doc) :
  checkNewPage lib y d =
  (Returned (page_y lib y),
   mkDoc (pages d + breaks (page_ops lib y)) (ops d ++ page_ops lib y)).
Proof.
  unfold checkNewPage, page_y, page_ops.
  destruct (Z.ltb (bottom lib) (y + 30)).
  - unfold bind, addPage, modify, ret. cbn [pages ops breaks].
    rewrite Nat.add_1_r. reflexivity.
  - unfold ret. cbn [breaks]. rewrite Nat.add_0_r, app_nil_r.
    destruct d. reflexivity.
Qed.

Lemma addServices_run (lib : Lib) (services : list Js.str) (index : nat)
      (y : Z) (d : Doc) :
  addServices lib services index y d =
  (Returned (services_y lib services y),
   mkDoc (pages d) (ops d ++ services_ops lib services index y)).
Proof.
  revert index y d. induction services as [|sv rest IH]; intros index y d.
  - cbn. rewrite app_nil_r. destruct d. reflexivity.
  - cbn [addServices services_y services_ops].
    erewrite bind_returned by apply addField_run. rewrite IH.
    cbn [pages ops]. rewrite <- app_assoc. reflexivity.
Qed.

Lemma addFooters_run (n : nat) (numbers : list nat) (d : Doc) :
  addFooters n numbers d =
  (Returned tt, mkDoc (pages d) (ops d ++ footer_ops n numbers)).
Proof.
  revert d. induction numbers as [|i rest IH]; intros d.
  - cbn. rewrite app_nil_r. destruct d. reflexivity.
  - cbn [addFooters]. unfold bind at 1 2 3 4. cbn [draw modify].
    rewrite IH. cbn [pages ops]. unfold footer_ops. cbn [flat_map].
    rewrite <- !app_assoc. reflexivity.
Qed.

Lemma breaks_app (a b : list Op) : breaks (a ++ b) = breaks a + breaks b.
Proof.
  induction a as [|op a IH]; [reflexivity|].
  destruct op; cbn [app breaks]; rewrite ?IH; reflexivity.
Qed.

Lemma headers_app (a b : list Op) : headers (a ++ b) = headers a ++ headers b.
Proof.
  induction a as [|op a IH]; [reflexivity|].
  destruct op as [| | | | |lines x [y|]| |]; cbn [app headers];
    rewrite ?IH; try reflexivity.
  destruct (Z.eqb x (margin + 5)); reflexivity.
Qed.

Lemma field_quiet (lib : Lib) (label value : Js.str) (y : Z) :
  breaks (field_ops lib label value y) = 0
  /\ headers (field_ops lib label value y) = []
  /\ forallb (fun op => negb (is_footer_text op))
             (field_ops lib label value y) = true.
Proof. unfold field_ops. destruct (field_drawn value); repeat split. Qed.

Lemma services_quiet (lib : Lib) (services : list Js.str) (index : nat) (y : Z) :
  breaks (services_ops lib services index y) = 0
  /\ headers (services_ops lib services index y) = []
  /\ forallb (fun op => negb (is_footer_text op))
             (services_ops lib services index y) = true.
Proof.
  revert index y. induction services as [|sv rest IH]; intros index y.
  - repeat split.
  - cbn [services_ops].
    destruct (field_quiet lib (Js.lit "Service " ++ Js.of_N (N.of_nat index + 1))
                          sv y) as [B [H F]].
    destruct (IH (S index) (field_y lib sv y)) as [B' [H' F']].
    rewrite breaks_app, headers_app, forallb_app, B, B', H, H', F, F'.
    repeat split.
Qed.

Lemma page_quiet (lib : Lib) (y : Z) :
  breaks (page_ops lib y) <= 1
  /\ headers (page_ops lib y) = []
  /\ forallb (fun op => negb (is_footer_text op)) (page_ops lib y) = true.
Proof.
  unfold page_ops. destruct (Z.ltb (bottom lib) (y + 30)); cbn; repeat split; lia.
Qed.

Lemma page_y_room (lib : Lib) (y : Z) :
  page_y lib y = 20%Z \/ (page_y lib y + 30 <= bottom lib)%Z.
Proof.
  unfold page_y. destruct (Z.ltb (bottom lib) (y + 30)) eqn:E.
  - left. reflexivity.
  - right. apply Z.ltb_ge in E. exact E.
Qed.

(** Footers drawn after calls that draw none. *)
Lemma footers_after (a b : list Op) (c : nat) :
  forallb (fun op => negb (is_footer_text op)) a = true ->
  (forall c1 c2, footers_from c1 b = footers_from c2 b) ->
  footers_from c (a ++ b) = footers_from c b.
Proof.
  intros Ha Hb. revert c. induction a as [|op a IH]; intros c; [reflexivity|].
  cbn [forallb] in Ha. apply andb_prop in Ha. destruct Ha as [Hop Ha].
  destruct op as [| | | | |lines x [y|]| |]; cbn [app footers_from];
    try (rewrite (IH Ha); try reflexivity; apply Hb).
  discriminate Hop.
Qed.

Lemma footers_of_footer_ops (n : nat) (numbers : list nat) (c : nat) :
  footers_from c (footer_ops n numbers)
  = map (fun i => (i, [footer_text i n])) numbers.
Proof.
  revert c. induction numbers as [|i rest IH]; intros c; [reflexivity|].
  unfold footer_ops. cbn [flat_map app footers_from map].
  f_equal. apply IH.
Qed.

End PdfRuns.

Section PdfShape.
Import Effect Pdf.

Lemma bind_assoc_at {A B C} (m : M Doc A) (f : A -> M Doc B)
      (g : B -> M Doc C) (d : Doc) :
  bind (bind m f) g d = bind m (fun x => bind (f x) g) d.
Proof.
  unfold bind. destruct (m d) as [[v|e] d']; [|reflexivity].
  destruct (f v d') as [[v'|e'] d'']; reflexivity.
Qed.

Ltac run_eq m d :=
  lazymatch m with
  | draw ?op => constr:(draw_run op d)
  | addText ?l ?t ?x ?y ?s ?st ?w => constr:(addText_run l t x y s st w d)
  | checkNewPage ?l ?y => constr:(checkNewPage_run l y d)
  | addSectionHeader ?t ?y => constr:(addSectionHeader_run t y d)
  | addField ?l ?a ?b ?y => constr:(addField_run l a b y d)
  | addServices ?l ?s ?i ?y => constr:(addServices_run l s i y d)
  end.

(** One step of the drawing, on the document it has reached. *)
Ltac step :=
  lazymatch goal with
  | |- context [bind (bind ?m ?f) ?g ?d] => rewrite (bind_assoc_at m f g d)
  | |- context [bind (ret ?v) ?k ?d] =>
      change (bind (ret v) k d) with (k v d); cbv beta
  | |- context [bind get ?k ?d] =>
      change (bind get k d) with (k d d); cbv beta
  | |- context [bind ?m ?k ?d] =>
      let E := run_eq m d in
      rewrite (@bind_returned _ _ m k d _ _ E); cbn [pages ops]
  end.

Lemma page_header_room (lib : Lib) (y : Z) :
  header_room lib (page_y lib y + 3).
Proof.
  unfold header_room. destruct (page_y_room lib y) as [H|H]; [left|right]; lia.
Qed.

Ltac quiet :=
  repeat rewrite (proj1 (field_quiet _ _ _ _));
  repeat rewrite (proj1 (proj2 (field_quiet _ _ _ _)));
  repeat rewrite (proj2 (proj2 (field_quiet _ _ _ _)));
  repeat rewrite (proj1 (services_quiet _ _ _ _));
  repeat rewrite (proj1 (proj2 (services_quiet _ _ _ _)));
  repeat rewrite (proj2 (proj2 (services_quiet _ _ _ _)));
  repeat rewrite (proj1 (proj2 (page_quiet _ _)));
  repeat rewrite (proj2 (proj2 (page_quiet _ _))).

Ltac bound_breaks :=
  repeat match goal with
         | |- context [breaks (page_ops ?l ?y)] =>
             let H := fresh "B" in
             pose proof (proj1 (page_quiet l y)) as H;
             generalize dependent (breaks (page_ops l y)); intros
         end.

(** The document: a body with at most four page breaks and three or four
    section headers, followed by the footers. *)
Lemma document_shape (lib : Lib) (data : EmailService.QuoteRequestData) :
  exists body n y1 y2 y3 y4,
    document lib data = mkDoc n (body ++ footer_ops n (seq 1 n))
    /\ n = 1 + breaks body
    /\ breaks body <= 4
    /\ forallb (fun op => negb (is_footer_text op)) body = true
    /\ headers body =
       [([Js.lit "Contact Information"], y1);
        ([Js.lit "Project Details"], y2);
        ([Js.lit "Requested Services"], y3)]
         ++ (if has_message (EmailService.q_message data)
             then [([Js.lit "Additional Information"], y4)]
             else [])
    /\ header_room lib y1 /\ header_room lib y2 /\ header_room lib y3
    /\ header_room lib y4.
Proof.
  unfold document, render.
  destruct (Nat.ltb 0 (List.length (EmailService.q_selectedServices data)));
    destruct (has_message (EmailService.q_message data));
    repeat step; rewrite addFooters_run; cbn [snd pages ops].
  all: eexists; eexists; eexists; eexists; eexists; eexists.
  all: split; [reflexivity|].
  all: split; [rewrite !breaks_app; quiet; cbn [breaks pages ops new_doc];
               bound_breaks; lia|].
  all: split; [rewrite !breaks_app; quiet; cbn [breaks ops new_doc];
               bound_breaks; lia|].
  all: split; [rewrite !forallb_app; quiet; reflexivity|].
  all: split; [rewrite !headers_app; quiet; cbn [headers ops new_doc];
               change (Z.eqb margin (margin + 5)) with false;
               change (Z.eqb (margin + 5) (margin + 5)) with true;
               cbn [app]; reflexivity|].
  all: repeat split; first [left; reflexivity | apply page_header_room].
Qed.

Lemma footer_ops_quiet (n : nat) (numbers : list nat) :
  breaks (footer_ops n numbers) = 0 /\ headers (footer_ops n numbers) = [].
Proof.
  unfold footer_ops. induction numbers as [|i rest [IHb IHh]]; [split; reflexivity|].
  cbn [flat_map app breaks headers]. split; assumption.
Qed.

End PdfShape.

(** X25: the PDF summary has between one and five pages, whatever the
    length of the texts and the number of services, because a page is only
    added before a section header and never between fields; and every page
    gets exactly one footer, "Page i of n | Generated by OneShopCentrale
    System", drawn on page i, for i from 1 to the number of pages n. *)
Theorem pdf_pages_and_footers :
  forall (lib : Pdf.Lib) (data : EmailService.QuoteRequestData),
    let d := Pdf.document lib data in
    1 <= Pdf.pages d <= 5
    /\ Pdf.pages d = 1 + Pdf.breaks (Pdf.ops d)
    /\ Pdf.footers_from 1 (Pdf.ops d) =
       map (fun i => (i, [Pdf.footer_text i (Pdf.pages d)]))
           (seq 1 (Pdf.pages d)).
Proof.
  intros lib data d. subst d.
  destruct (document_shape lib data)
    as [body [n [y1 [y2 [y3 [y4 [E [Hn [Hb [Hf _]]]]]]]]]].
  rewrite E. cbn [Pdf.pages Pdf.ops].
  split; [lia|]. split.
  - rewrite breaks_app, (proj1 (footer_ops_quiet n (seq 1 n))). lia.
  - rewrite (footers_after body _ 1 Hf).
    + apply footers_of_footer_ops.
    + intros c1 c2. rewrite !footers_of_footer_ops. reflexivity.
Qed.

(** X26: the PDF summary draws its section headers in the fixed order
    Contact Information, Project Details, Requested Services, followed by
    Additional Information exactly when a message with something other
    than white space was given; and every header is drawn either at the
    top of a fresh page or with at least the 30 units asked for left above
    the bottom margin. *)
Theorem pdf_sections_in_order_with_room :
  forall (lib : Pdf.Lib) (data : EmailService.QuoteRequestData),
    exists y1 y2 y3 y4,
      Pdf.headers (Pdf.ops (Pdf.document lib data)) =
        [([Js.lit "Contact Information"], y1);
         ([Js.lit "Project Details"], y2);
         ([Js.lit "Requested Services"], y3)]
          ++ (if Pdf.has_message (EmailService.q_message data)
              then [([Js.lit "Additional Information"], y4)]
              else [])
      /\ Pdf.header_room lib y1 /\ Pdf.header_room lib y2
      /\ Pdf.header_room lib y3 /\ Pdf.header_room lib y4.
Proof.
  intros lib data.
  destruct (document_shape lib data)
    as [body [n [y1 [y2 [y3 [y4 [E [_ [_ [_ [Hh [R1 [R2 [R3 R4]]]]]]]]]]]]]].
  exists y1, y2, y3, y4. rewrite E. cbn [Pdf.ops].
  rewrite headers_app, (proj2 (footer_ops_quiet n (seq 1 n))), app_nil_r.
  auto.
Qed.
